(** * zoxel: the MagicaVoxel file plugin (src/plugins/io_magicavoxel.py)
      and the voxel editor widget (src/voxel_widget.py)

    A shallow embedding of [MagicaVoxelFile.save] and [MagicaVoxelFile.load]
    and of the voxel grid they talk to, and of the integer and decision
    logic of [GLWidget], followed by their properties.  Integers are Python
    integers ([Z]); a byte is a [Z] in [0, 256); a file is the list of its
    bytes. *)

From Stdlib Require Import ZArith Lia.
From stdpp Require Import base numbers list gmap strings.

Local Open Scope Z_scope.

(** ** The voxel grid *)

Module VoxelData.

(** Modelled from the spec: the grid class behind [api.get_voxel_data()]
    (voxel.py) is not part of the sources at hand.  The spec describes it
    as a bounded 3D index space [width x height x depth] whose cells hold
    either "empty" (0) or a 32-bit colour, with [get], [set] and [resize];
    a position outside the index space holds no cell, so [get] finds it
    empty and [set] leaves the grid alone; [resize] reallocates the grid
    to the new dimensions, clearing prior contents. *)
Record t := Make {
  width : Z;
  height : Z;
  depth : Z;
  cells : gmap (Z * Z * Z) Z
}.

(** Modelled from the spec: whether [(x, y, z)] lies in the index space. *)
Definition is_valid_bounds (g : t) (x y z : Z) : bool :=
  (0 <=? x) && (x <? width g) &&
  (0 <=? y) && (y <? height g) &&
  (0 <=? z) && (z <? depth g).

(** Modelled from the spec: [get(x,y,z) -> color-or-empty]. *)
Definition get (g : t) (x y z : Z) : Z :=
  if is_valid_bounds g x y z then default 0 (cells g !! (x, y, z)) else 0.

(** Modelled from the spec: [set(x,y,z,color)]. *)
Definition set (g : t) (x y z : Z) (color : Z) : t :=
  if is_valid_bounds g x y z
  then Make (width g) (height g) (depth g) (<[(x, y, z) := color]> (cells g))
  else g.

(** Modelled from the spec: [resize(width,height,depth)], which allocates
    the grid anew at exactly these dimensions, clearing prior contents. *)
Definition resize (_ : t) (w h d : Z) : t := Make w h d ∅.

End VoxelData.

Abbreviation VoxelData := VoxelData.t.

(** ** Files, exceptions and the monad of the plugin *)

(** The exceptions the two methods can end in. *)
Inductive exn :=
  | PaletteExceeded (uniq : Z)  (* "Model uses %d uniq colors, which exceeds palette size." *)
  | NotMagicaVoxel              (* "Not an MagicaVoxel file" *)
  | ModelTooLarge               (* "Model to large - max 127x127x127" *)
  | IndexError                  (* bytearray index out of range *)
  | ValueError.                 (* byte must be in range(0, 256) *)

(** The file object [f]: never opened, open, or closed. *)
Inductive fstatus := NotOpened | Opened | Closed.

(** What a call can see and change: the bytes of the file named by
    [filename], the handle [f] with the part of the file it has not read
    yet, and the grid returned by [api.get_voxel_data()]. *)
Record world := World {
  disk : list Z;
  f_status : fstatus;
  f_rest : list Z;
  voxels : VoxelData
}.

Inductive outcome (A : Type) :=
  | Return (a : A)
  | Raise (e : exn)
  | OutOfFuel.
Arguments Return {A} a.
Arguments Raise {A} e.
Arguments OutOfFuel {A}.

Definition M (A : Type) : Type := world -> outcome A * world.

Definition ret {A} (a : A) : M A := fun w => (Return a, w).

Definition bind {A B} (m : M A) (k : A -> M B) : M B :=
  fun w =>
    match m w with
    | (Return a, w') => k a w'
    | (Raise e, w') => (Raise e, w')
    | (OutOfFuel, w') => (OutOfFuel, w')
    end.

Definition raise {A} (e : exn) : M A := fun w => (Raise e, w).

Definition timeout {A} : M A := fun w => (OutOfFuel, w).

Declare Scope io_scope.
Delimit Scope io_scope with io.
Notation "x <- m ;; k" := (bind m (fun x => k))
  (at level 100, m at next level, k at level 200,
   right associativity) : io_scope.
Local Open Scope io_scope.

(** [for v in l: body] *)
Fixpoint for_each {A} (l : list A) (body : A -> M unit) : M unit :=
  match l with
  | [] => ret tt
  | a :: l' => _ <- body a ;; for_each l' body
  end.

Definition xrange (n : Z) : list Z := seqZ 0 n.

(** [self.api.get_voxel_data()] *)
Definition get_voxel_data : M VoxelData := fun w => (Return (voxels w), w).

Definition set_voxel_data (g : VoxelData) : M unit :=
  fun w => (Return tt, World (disk w) (f_status w) (f_rest w) g).

(** [f = open(filename, "wb")]: the file is truncated. *)
Definition open_wb : M unit :=
  fun w => (Return tt, World [] Opened [] (voxels w)).

(** [f = open(filename, "rb")] *)
Definition open_rb : M unit :=
  fun w => (Return tt, World (disk w) Opened (disk w) (voxels w)).

(** [f.write(data)] *)
Definition f_write (data : list Z) : M unit :=
  fun w => (Return tt, World (disk w ++ data) (f_status w) (f_rest w) (voxels w)).

(** [f.read(n)]: at most [n] bytes, fewer at the end of the file. *)
Definition f_read (n : Z) : M (list Z) :=
  fun w => (Return (take (Z.to_nat n) (f_rest w)),
            World (disk w) (f_status w) (drop (Z.to_nat n) (f_rest w)) (voxels w)).

(** [f.close()] *)
Definition f_close : M unit :=
  fun w => (Return tt, World (disk w) Closed (f_rest w) (voxels w)).

Definition is_byte (b : Z) : bool := (0 <=? b) && (b <? 256).

(** Appending to or extending a [bytearray] refuses values outside
    [range(0, 256)]. *)
Definition bytearray (l : list Z) : M (list Z) :=
  if forallb is_byte l then ret l else raise ValueError.

(** [b[i]] *)
Definition index (b : list Z) (i : nat) : M Z :=
  match b !! i with
  | Some v => ret v
  | None => raise IndexError
  end.

Fixpoint bytes_of_string (s : string) : list Z :=
  match s with
  | EmptyString => []
  | String a s' => Z.of_N (Ascii.N_of_ascii a) :: bytes_of_string s'
  end.

(** ** The helpers [uint32] and [string] *)

Definition le32 (value : Z) : list Z :=
  [ Z.land value 0xff;
    Z.shiftr (Z.land value 0xff00) 8;
    Z.shiftr (Z.land value 0xff0000) 16;
    Z.shiftr (Z.land value 0xff000000) 24 ].

(** [self.uint32(f, value)] *)
Definition uint32_write (value : Z) : M unit :=
  data <- bytearray (le32 value) ;;
  f_write data.

(** [x[0] | x[1]<<8 | x[2]<<16 | x[3]<<24] when [len(x) == 4], else 0 *)
Definition decode32 (x : list Z) : Z :=
  match x with
  | [x0; x1; x2; x3] =>
      Z.lor (Z.lor (Z.lor x0 (Z.shiftl x1 8)) (Z.shiftl x2 16)) (Z.shiftl x3 24)
  | _ => 0
  end.

(** [self.uint32(f)] *)
Definition uint32_read : M Z :=
  x <- f_read 4 ;;
  ret (decode32 x).

(** [self.string(f, value)] *)
Definition string_write (value : string) : M unit :=
  f_write (bytes_of_string value).

(** ** [save] *)

(** The variables of the counting loop. *)
Record locals := Locals {
  voxel_count : Z;
  paletteMap : gmap Z Z;
  palette : gmap Z Z;
  idx : Z
}.

(** The body of the counting loop for the voxel value [vox].  The test
    [color in palette.keys()] looks [color] up among the keys of [palette],
    which are the indices handed out so far. *)
Definition count_voxel (vox : Z) (s : locals) : locals :=
  if vox =? 0 then s
  else
    let color := Z.land vox 0xffffff00 in
    let s' :=
      match palette s !! color with
      | Some _ => s
      | None =>
          Locals (voxel_count s)
                 (<[color := idx s]> (paletteMap s))
                 (<[idx s := color]> (palette s))
                 (idx s + 1)
      end in
    Locals (voxel_count s' + 1) (paletteMap s') (palette s') (idx s').

(** Lines 63-77: count the voxels and construct the palette. *)
Definition count_and_palette (g : VoxelData) : locals :=
  foldl (fun s z =>
    foldl (fun s y =>
      foldl (fun s x => count_voxel (VoxelData.get g x y z) s)
            s (xrange (VoxelData.width g)))
          s (xrange (VoxelData.height g)))
        (Locals 0 ∅ ∅ 0) (xrange (VoxelData.depth g)).

(** One entry of the palette chunk, lines 115-123. *)
Definition write_palette_entry (palette : gmap Z Z) (i : Z) : M unit :=
  b <- match palette !! i with
       | Some color =>
           bytearray [ Z.shiftr (Z.land color 0xff000000) 24;
                       Z.shiftr (Z.land color 0xff0000) 16;
                       Z.shiftr (Z.land color 0xff00) 8;
                       0xff ]
       | None => bytearray [0xff; 0xff; 0xff; 0xff]
       end ;;
  f_write b.

(** The body of the record-writing loop, lines 134-148. *)
Definition write_voxel (g : VoxelData) (paletteMap : gmap Z Z) (x y z : Z) : M unit :=
  let vox := VoxelData.get g x z y in
  if vox =? 0 then ret tt
  else
    let cidx :=
      match paletteMap !! Z.land vox 0xffffff00 with
      | Some i => i
      | None => 0
      end in
    v <- bytearray [x; y; z; cidx] ;;
    f_write v.

Definition save : M unit :=
  voxels <- get_voxel_data ;;
  let s := count_and_palette voxels in
  if 256 <=? idx s then raise (PaletteExceeded (idx s))
  else
    (* self.api.warning(...) only reports idx *)
    let chunk_size := 16 + 4 * 3 in
    let chunk_rgba := 16 + 4 * 256 in
    let chunk_voxel := 16 + 4 + voxel_count s * 4 in
    let chunk_main := 16 + chunk_size + chunk_rgba + chunk_voxel in
    _ <- open_wb ;;
    _ <- string_write "VOX " ;;
    _ <- uint32_write 150 ;;
    _ <- string_write "MAIN" ;;
    _ <- uint32_write 0 ;;
    _ <- uint32_write chunk_main ;;
    _ <- string_write "SIZE" ;;
    _ <- uint32_write (4 * 3) ;;
    _ <- uint32_write 0 ;;
    _ <- uint32_write (VoxelData.width voxels) ;;
    _ <- uint32_write (VoxelData.height voxels) ;;
    _ <- uint32_write (VoxelData.depth voxels) ;;
    _ <- string_write "RGBA" ;;
    _ <- uint32_write (4 * 256) ;;
    _ <- uint32_write 0 ;;
    _ <- for_each (xrange 256) (write_palette_entry (palette s)) ;;
    _ <- string_write "XYZI" ;;
    _ <- uint32_write (4 + voxel_count s * 4) ;;
    _ <- uint32_write 0 ;;
    _ <- uint32_write (voxel_count s) ;;
    _ <- for_each (xrange (VoxelData.depth voxels)) (fun z =>
           for_each (xrange (VoxelData.height voxels)) (fun y =>
             for_each (xrange (VoxelData.width voxels)) (fun x =>
               write_voxel voxels (paletteMap s) x y z))) ;;
    f_close.

(** ** [load] *)

(** The palette chunk, lines 193-196: 256 entries of four bytes. *)
Definition read_palette_entry (palette : gmap Z Z) (i : Z) : M (gmap Z Z) :=
  b <- f_read 4 ;;
  b0 <- index b 0 ;;
  b1 <- index b 1 ;;
  b2 <- index b 2 ;;
  b3 <- index b 3 ;;
  ret (<[i := Z.lor (Z.lor (Z.lor (Z.shiftl b0 24) (Z.shiftl b1 16)) (Z.shiftl b2 8)) b3]> palette).

Fixpoint read_palette (l : list Z) (palette : gmap Z Z) : M (gmap Z Z) :=
  match l with
  | [] => ret palette
  | i :: l' => palette' <- read_palette_entry palette i ;; read_palette l' palette'
  end.

(** One record of the voxel chunk, lines 202-209. *)
Definition read_voxel (palette : gmap Z Z) (_ : Z) : M unit :=
  b <- f_read 4 ;;
  b3 <- index b 3 ;;
  let color :=
    match palette !! b3 with
    | Some c => c
    | None => 0xffffffff
    end in
  b0 <- index b 0 ;;
  b2 <- index b 2 ;;
  b1 <- index b 1 ;;
  g <- get_voxel_data ;;
  set_voxel_data (VoxelData.set g b0 b2 b1 color).

(** The body of the [while left:] loop without the two updates of [left]:
    read a chunk header and handle the chunk. *)
Definition load_chunk (palette : gmap Z Z) : M (gmap Z Z * Z * Z) :=
  cid <- f_read 4 ;;
  content_size <- uint32_read ;;
  child_size <- uint32_read ;;
  palette' <-
    (if bool_decide (cid = bytes_of_string "SIZE") then
       width <- uint32_read ;;
       height <- uint32_read ;;
       depth <- uint32_read ;;
       if (127 <? width) || (127 <? height) || (127 <? depth)
       then raise ModelTooLarge
       else
         g <- get_voxel_data ;;
         _ <- set_voxel_data (VoxelData.resize g width height depth) ;;
         ret palette
     else if bool_decide (cid = bytes_of_string "RGBA") then
       read_palette (xrange 256) palette
     else if bool_decide (cid = bytes_of_string "XYZI") then
       voxel_count <- uint32_read ;;
       _ <- for_each (xrange voxel_count) (read_voxel palette) ;;
       ret palette
     else
       _ <- f_read (content_size + child_size) ;;
       ret palette) ;;
  ret (palette', content_size, child_size).

(** The loop [while left:], lines 173-215.  It has no bound of its own, so
    the model runs it on [fuel] and ends in [OutOfFuel] when that is used
    up.  It returns the value of [left] the loop was left with. *)
Fixpoint load_chunks (fuel : nat) (palette : gmap Z Z) (left : Z) : M Z :=
  if left =? 0 then ret left
  else
    match fuel with
    | O => timeout
    | S fuel' =>
        r <- load_chunk palette ;;
        let '(palette', content_size, child_size) := r in
        let left := left - 16 in
        load_chunks fuel' palette' (left - content_size + child_size)
    end.

Definition load (fuel : nat) : M unit :=
  _ <- open_rb ;;
  magic <- f_read 4 ;;
  version <- uint32_read ;;
  if negb (bool_decide (magic = bytes_of_string "VOX ")) then raise NotMagicaVoxel
  else
    cid <- f_read 4 ;;
    content_size <- uint32_read ;;
    child_size <- uint32_read ;;
    _ <- load_chunks fuel ∅ (content_size + child_size) ;;
    f_close.

(** ** Worlds, traversals and file layouts used in the statements *)

Definition empty_grid (w h d : Z) : VoxelData := VoxelData.Make w h d ∅.

(** The world before [save]: no file yet, the grid [g] in the editor. *)
Definition start (g : VoxelData) : world := World [] NotOpened [] g.

(** The world in which [load] finds the bytes [file] under [filename]. *)
Definition with_file (file : list Z) (g : VoxelData) : world :=
  World file NotOpened [] g.

(** The positions the three nested loops of [save] run through, in order. *)
Definition traversal (g : VoxelData) : list (Z * Z * Z) :=
  z ← xrange (VoxelData.depth g);
  y ← xrange (VoxelData.height g);
  x ← xrange (VoxelData.width g);
  [(x, y, z)].

Definition get_at (g : VoxelData) (p : Z * Z * Z) : Z :=
  VoxelData.get g p.1.1 p.1.2 p.2.

Definition nonempty (g : VoxelData) (p : Z * Z * Z) : Prop := get_at g p ≠ 0.

(** The number of non-empty cells of the grid. *)
Definition nonempty_cells (g : VoxelData) : Z :=
  Z.of_nat (length (filter (nonempty g) (traversal g))).

(** [(x, y, z)] as the record loop reads it: the cell [(x, z, y)]. *)
Definition swap_yz (p : Z * Z * Z) : Z * Z * Z := (p.1.1, p.2, p.1.2).

(** The world [w] after [data] has been written to the file. *)
Definition append_disk (data : list Z) (w : world) : world :=
  World (disk w ++ data) (f_status w) (f_rest w) (voxels w).

(** The four bytes [save] writes for slot [i] of the palette chunk. *)
Definition palette_entry (palette : gmap Z Z) (i : Z) : list Z :=
  match palette !! i with
  | Some color =>
      [ Z.shiftr (Z.land color 0xff000000) 24;
        Z.shiftr (Z.land color 0xff0000) 16;
        Z.shiftr (Z.land color 0xff00) 8;
        0xff ]
  | None => [0xff; 0xff; 0xff; 0xff]
  end.

(** The bytes the record loop writes at loop variables [(x, y, z)]. *)
Definition voxel_record (g : VoxelData) (paletteMap : gmap Z Z) (p : Z * Z * Z) : list Z :=
  let vox := get_at g (swap_yz p) in
  if vox =? 0 then []
  else [ p.1.1; p.1.2; p.2;
         match paletteMap !! Z.land vox 0xffffff00 with Some i => i | None => 0 end ].

Definition voxel_records (g : VoxelData) (paletteMap : gmap Z Z) : list Z :=
  traversal g ≫= voxel_record g paletteMap.

(** The layout of the file [save] leaves behind, chunk by chunk. *)
Definition file_header (children : Z) : list Z :=
  bytes_of_string "VOX " ++ le32 150 ++
  bytes_of_string "MAIN" ++ le32 0 ++ le32 children.

Definition size_chunk (w h d : Z) : list Z :=
  bytes_of_string "SIZE" ++ le32 12 ++ le32 0 ++ le32 w ++ le32 h ++ le32 d.

Definition rgba_chunk (palette : gmap Z Z) : list Z :=
  bytes_of_string "RGBA" ++ le32 1024 ++ le32 0 ++ (xrange 256 ≫= palette_entry palette).

Definition xyzi_chunk (count : Z) (records : list Z) : list Z :=
  bytes_of_string "XYZI" ++ le32 (4 + count * 4) ++ le32 0 ++ le32 count ++ records.

Definition saved_file (g : VoxelData) : list Z :=
  let s := count_and_palette g in
  file_header (1104 + 4 * voxel_count s) ++
  size_chunk (VoxelData.width g) (VoxelData.height g) (VoxelData.depth g) ++
  rgba_chunk (palette s) ++
  xyzi_chunk (voxel_count s) (voxel_records g (paletteMap s)).

(** Every index in [paletteMap] has been handed out. *)
Definition palette_map_below (s : locals) : Prop :=
  0 <= idx s /\ forall c i, paletteMap s !! c = Some i -> 0 <= i < idx s.

(** The palette holds the colour of every index in [paletteMap], and its
    keys are the indices handed out; [idx] has counted the non-empty cells. *)
Definition palette_consistent (s : locals) : Prop :=
  idx s = voxel_count s /\ 0 <= idx s /\
  (forall k c, palette s !! k = Some c -> 0 <= k < idx s) /\
  (forall c i, paletteMap s !! c = Some i -> palette s !! i = Some c).

(** The loop positions at which the record loop writes a record. *)
Definition written (g : VoxelData) : list (Z * Z * Z) :=
  filter (fun p => nonempty g (swap_yz p)) (traversal g).

(** [b[0] << 24 | b[1] << 16 | b[2] << 8 | b[3]] *)
Definition pack_rgba (b : list Z) : Z :=
  Z.lor (Z.lor (Z.lor (Z.shiftl (b !!! 0%nat) 24) (Z.shiftl (b !!! 1%nat) 16))
               (Z.shiftl (b !!! 2%nat) 8)) (b !!! 3%nat).

(** The colour [load] gives a record with palette index [i]. *)
Definition resolve (palette : gmap Z Z) (i : Z) : Z :=
  match palette !! i with
  | Some c => c
  | None => 0xffffffff
  end.

(** The effect of one record [(b0, b1, b2, b3)] of the voxel chunk. *)
Definition apply_record (palette : gmap Z Z) (g : VoxelData) (r : Z * Z * Z * Z) : VoxelData :=
  VoxelData.set g r.1.1.1 r.1.2 r.1.1.2 (resolve palette r.2).

Definition record_bytes (r : Z * Z * Z * Z) : list Z := [r.1.1.1; r.1.1.2; r.1.2; r.2].

(** The table [load] builds from the entries [entry i] of a palette chunk. *)
Definition loaded_palette (entry : Z -> list Z) (l : list Z) (palette : gmap Z Z) : gmap Z Z :=
  foldl (fun p i => <[i := pack_rgba (entry i)]> p) palette l.

(** The palette index the record loop writes for the voxel value [vox]. *)
Definition palette_index (paletteMap : gmap Z Z) (vox : Z) : Z :=
  match paletteMap !! Z.land vox 0xffffff00 with
  | Some i => i
  | None => 0
  end.

Definition record_of (g : VoxelData) (paletteMap : gmap Z Z) (p : Z * Z * Z) : Z * Z * Z * Z :=
  (p.1.1, p.1.2, p.2, palette_index paletteMap (get_at g (swap_yz p))).

(** The records of the voxel chunk, in the order they are written. *)
Definition written_records (g : VoxelData) (paletteMap : gmap Z Z) : list (Z * Z * Z * Z) :=
  record_of g paletteMap <$> written g.

(** The grid [load] builds from the file [save] wrote for [g]. *)
Definition loaded_grid (g : VoxelData) : VoxelData :=
  let s := count_and_palette g in
  foldl (apply_record (loaded_palette (palette_entry (palette s)) (xrange 256) ∅))
        (empty_grid (VoxelData.width g) (VoxelData.height g) (VoxelData.depth g))
        (written_records g (paletteMap s)).

(** The three chunks that follow the root chunk header. *)
Definition saved_chunks (g : VoxelData) : list Z :=
  let s := count_and_palette g in
  size_chunk (VoxelData.width g) (VoxelData.height g) (VoxelData.depth g) ++
  rgba_chunk (palette s) ++
  xyzi_chunk (voxel_count s) (voxel_records g (paletteMap s)).

(** The content length and the children length of the root chunk, as
    [load] reads them from bytes 12-19 of a file. *)
Definition main_header_fields (file : list Z) : Z * Z :=
  (decode32 (take 4 (drop 12 file)), decode32 (take 4 (drop 16 file))).

(** The colours of the non-empty cells, reserved low byte masked off. *)
Definition distinct_colors (g : VoxelData) : gset Z :=
  list_to_set ((fun p => Z.land (get_at g p) 0xffffff00)
                 <$> filter (nonempty g) (traversal g)).

(** A chunk: tag, content length, children length, payload. *)
Definition chunk (tag : list Z) (content child : Z) (payload : list Z) : list Z :=
  tag ++ le32 content ++ le32 child ++ payload.

(** The tag of a chunk [load] does not know. *)
Definition note_tag : list Z := bytes_of_string "NOTE".

(** The three loop variables of the record loop are bytes. *)
Definition byte_position (p : Z * Z * Z) : bool :=
  is_byte p.1.1 && is_byte p.1.2 && is_byte p.2.

(** The file as it stands when the record loop starts. *)
Definition saved_up_to_records (g : VoxelData) : list Z :=
  let s := count_and_palette g in
  file_header (1104 + 4 * voxel_count s) ++
  size_chunk (VoxelData.width g) (VoxelData.height g) (VoxelData.depth g) ++
  rgba_chunk (palette s) ++
  xyzi_chunk (voxel_count s) [].

(** The two tables of the counting loop: the keys of [palette] are the
    indices handed out, and [paletteMap] maps a colour to a slot of
    [palette] that holds it. *)
Definition palette_table (s : locals) : Prop :=
  0 <= idx s <= voxel_count s /\
  (forall k, is_Some (palette s !! k) <-> 0 <= k < idx s) /\
  (forall c i, paletteMap s !! c = Some i -> palette s !! i = Some c).

(** [save] sees of [g'] what it sees of [g]: the same dimensions, the same
    empty cells, the same colours above the reserved byte. *)
Definition same_for_save (g g' : VoxelData) : Prop :=
  VoxelData.width g' = VoxelData.width g /\
  VoxelData.height g' = VoxelData.height g /\
  VoxelData.depth g' = VoxelData.depth g /\
  forall x y z,
    (VoxelData.get g' x y z = 0 <-> VoxelData.get g x y z = 0) /\
    Z.land (VoxelData.get g' x y z) 0xffffff00 = Z.land (VoxelData.get g x y z) 0xffffff00.

(** ** What a computation leaves alone *)

(** The world [w] with other bytes on the disk. *)
Definition set_disk (dk : list Z) (w : world) : world :=
  World dk (f_status w) (f_rest w) (voxels w).

(** [m] neither looks at the bytes on the disk nor changes them. *)
Definition disk_blind {A} (m : M A) : Prop :=
  forall dk w, m (set_disk dk w) = ((m w).1, set_disk dk (m w).2).

(** [m] leaves the handle as it found it. *)
Definition keeps_status {A} (m : M A) : Prop :=
  forall w, f_status (m w).2 = f_status w.

(** Run on an open handle, [m] closes it when it returns and leaves it
    open when it does not. *)
Definition closes {A} (m : M A) : Prop :=
  forall w, f_status w = Opened ->
    f_status (m w).2 = match (m w).1 with Return _ => Closed | _ => Opened end.

(** [m] leaves the grid as it found it. *)
Definition keeps_voxels {A} (m : M A) : Prop :=
  forall w, voxels (m w).2 = voxels w.

(** ** Example grids and files *)

(** [g] with every cell [p] set to [color p]. *)
Definition fill (g : VoxelData) (color : Z * Z * Z -> Z) : VoxelData :=
  foldl (fun g p => VoxelData.set g p.1.1 p.1.2 p.2 (color p)) g (traversal g).

(** One voxel at (0, 1, 0) in a grid one wide, two high and one deep. *)
Definition grid_1x2x1 : VoxelData :=
  VoxelData.set (empty_grid 1 2 1) 0 1 0 0x10203000.

(** The place of a cell of a 7x7x7 grid in the order of the loops. *)
Definition cell_number (p : Z * Z * Z) : Z := p.1.1 + 7 * p.1.2 + 49 * p.2.

(** 343 cells of one colour. *)
Definition cube7_one_color : VoxelData :=
  fill (empty_grid 7 7 7) (fun _ => 0x10203000).

(** 255 cells, each of a colour of its own. *)
Definition cube7_255_colors : VoxelData :=
  fill (empty_grid 7 7 7)
       (fun p => if cell_number p <? 255 then (cell_number p + 1) * 256 else 0).

(** 256 cells in 255 colours: the last two cells share one. *)
Definition cube7_255_colors_256_cells : VoxelData :=
  fill (empty_grid 7 7 7)
       (fun p => if cell_number p <? 256
                 then (Z.min (cell_number p) 254 + 1) * 256 else 0).

(** 256 cells in 256 colours, opaque black (0x000000ff) in the last one. *)
Definition cube7_256_colors_black_last : VoxelData :=
  fill (empty_grid 7 7 7)
       (fun p => if cell_number p <? 256
                 then Z.lor (((cell_number p + 1) mod 256) * 256) 0xff else 0).

(** 256 cells, each of a colour of its own, in a grid 128 wide. *)
Definition grid_128x2x1_256_colors : VoxelData :=
  fill (empty_grid 128 2 1) (fun p => (p.1.1 + 128 * p.1.2 + 1) * 256).

(** One voxel at (3, 5, 9) in a 10x10x10 grid. *)
Definition grid_3_5_9 : VoxelData :=
  VoxelData.set (empty_grid 10 10 10) 3 5 9 0x10203000.

(** One voxel at (3, 5, 9) as [load] leaves it: with a low byte of 0xff. *)
Definition grid_3_5_9_loaded : VoxelData :=
  VoxelData.set (empty_grid 10 10 10) 3 5 9 0x102030ff.

(** One voxel in a grid 128 wide. *)
Definition grid_128x1x1 : VoxelData :=
  VoxelData.set (empty_grid 128 1 1) 127 0 0 0x10203000.

(** One voxel at (256, 0, 0) in a grid 300 wide. *)
Definition grid_300x1x1 : VoxelData :=
  VoxelData.set (empty_grid 300 1 1) 256 0 0 0x10203000.

(** A file whose root chunk declares a single byte of children. *)
Definition file_root_length_1 : list Z := file_header 1.

(** A file whose SIZE chunk declares a width of 128. *)
Definition file_width_128 : list Z := file_header 28 ++ size_chunk 128 1 1.

(** ** The voxel editor widget (src/voxel_widget.py) *)

(** The widget draws with OpenGL and listens to Qt.  What is embedded here
    is what its methods compute themselves: the decoding of a colour id in
    [window_to_voxel], the choice of axes in [view_axis] and
    [mousePressEvent], and the handling of mouse moves and releases.  What
    comes from outside (a pixel read back from OpenGL, the clock, the
    floating-point arithmetic of the camera) is an argument. *)

Module GLWidget.

(** Constants for referring to axis. *)
Definition X_AXIS : Z := 1.
Definition Y_AXIS : Z := 2.
Definition Z_AXIS : Z := 3.

(** Drag types. *)
Definition DRAG_START : Z := 1.
Definition DRAG_END : Z := 2.
Definition DRAG : Z := 3.

(** The values of [QtCore.Qt.RightButton], [QtCore.Qt.MiddleButton] and
    [QtCore.Qt.KeyboardModifier.ControlModifier] in Qt. *)
Definition RightButton : Z := 0x2.
Definition MiddleButton : Z := 0x4.
Definition ControlModifier : Z := 0x04000000.

(** [ord(c[0]) << 16 | ord(c[1]) << 8 | ord(c[2])] *)
Definition voxelid (c : Z * Z * Z) : Z :=
  Z.lor (Z.lor (Z.shiftl c.1.1 16) (Z.shiftl c.1.2 8)) c.2.

(** [window_to_voxel], lines 436-464, from the pixel [c] that [glReadPixels]
    gives for the window position and the result of
    [self.plane_intersection(x, y)] (three integers, or three times [None]).
    A component [None] is Python's [None]. *)
Definition window_to_voxel (c : Z * Z * Z)
    (plane_intersection : option Z * option Z * option Z) :
    option Z * option Z * option Z * option Z :=
  let voxelid := voxelid c in
  if voxelid =? 0xffffff then
    let '(x, y, z) := plane_intersection in
    match x with
    | None => (None, None, None, None)
    | Some _ => (x, y, z, None)
    end
  else
    let x := Z.shiftr (Z.land voxelid 0xfe0000) 17 in
    let y := Z.shiftr (Z.land voxelid 0x1fc00) 10 in
    let z := Z.shiftr (Z.land voxelid 0x3f8) 3 in
    let face := Z.land voxelid 0x07 in
    (Some x, Some y, Some z, Some face).

Section view_axis.

(** The floating-point numbers of [gluUnProject], with their [>=] and [abs]. *)
Context {F : Type} (ge : F -> F -> bool) (fabs : F -> F).

(** [view_axis], lines 504-517, from the three deviations [dx], [dy] and
    [dz] of the ray through the middle of the window. *)
Definition view_axis (dx dy dz : F) : Z * Z :=
  if ge dz dx && ge dz dy then (X_AXIS, Y_AXIS)
  else if ge dy dx && ge dy dz then (X_AXIS, Z_AXIS)
  else (Z_AXIS, Y_AXIS).

(** [self._htranslate] and [self._vtranslate]: a vector at first, then the
    size of one of its components. *)
Inductive translate := Vector (v : F * F * F) | Scalar (s : F).

(** Lines 335-346 of [mousePressEvent] for one of the two axes [a]: the
    three tests [a == self.X_AXIS], [a == self.Y_AXIS], [a == self.Z_AXIS],
    of which at most one holds. *)
Definition translate_along (a : Z) (v : F * F * F) : translate :=
  if a =? X_AXIS then Scalar (fabs v.1.1)
  else if a =? Y_AXIS then Scalar (fabs v.1.2)
  else if a =? Z_AXIS then Scalar (fabs v.2)
  else Vector v.

(** The deviation of the ray along the axis [a]. *)
Definition deviation (dx dy dz : F) (a : Z) : F :=
  if a =? X_AXIS then dx else if a =? Y_AXIS then dy else dz.

End view_axis.

(** What [window_to_voxel] returns: [x, y, z, face], each possibly [None]. *)
Definition picked : Type := option Z * option Z * option Z * option Z.

(** The calls a mouse handler makes on the widget, in order. *)
Inductive call :=
  | send_drag (dragtype : Z) (t : picked) (mouse_x mouse_y : Z)
  | send_mouse_click (t : picked) (mouse_x mouse_y : Z)
  | refresh
  | updateGL.

Section mouse.

(** The floating-point numbers of the camera, with [t + d * s] for an
    integer [d]; the readings of [time.time()], with [now - down > 0.3]. *)
Context {F T : Type} (add_scaled : F -> Z -> F -> F) (later : T -> T -> bool).

(** The attributes of the widget that its mouse handlers read or write. *)
Record widget := Widget {
  _mouse : Z * Z;
  _mouse_absolute : Z * Z;
  mouse_delta_relative : Z * Z;
  mouse_delta_absolute : Z * Z;
  mouse_position : Z * Z;
  _key_modifiers : Z;
  _mousedown_time : T;
  _dragging : bool;
  _rotate_x : Z;
  _rotate_y : Z;
  _translate_x : F;
  _translate_y : F;
  _htranslate : F;
  _vtranslate : F
}.

(** A [QMouseEvent], with what the handler finds outside the widget while
    it runs: the two readings of the clock and the result of
    [self.window_to_voxel(event.x(), event.y())]. *)
Record mouse_event := MouseEvent {
  x : Z;
  y : Z;
  buttons : Z;
  clock : T;
  clock_again : T;
  under_mouse : picked
}.

Definition with_dragging (b : bool) (w : widget) : widget :=
  Widget (_mouse w) (_mouse_absolute w) (mouse_delta_relative w) (mouse_delta_absolute w)
         (mouse_position w) (_key_modifiers w) (_mousedown_time w) b
         (_rotate_x w) (_rotate_y w) (_translate_x w) (_translate_y w)
         (_htranslate w) (_vtranslate w).

Definition with_mouse (p : Z * Z) (w : widget) : widget :=
  Widget p (_mouse_absolute w) (mouse_delta_relative w) (mouse_delta_absolute w)
         (mouse_position w) (_key_modifiers w) (_mousedown_time w) (_dragging w)
         (_rotate_x w) (_rotate_y w) (_translate_x w) (_translate_y w)
         (_htranslate w) (_vtranslate w).

(** [mouseMoveEvent], lines 349-404. *)
Definition mouseMoveEvent (w : widget) (event : mouse_event) : widget * list call :=
  let ctrl := negb (Z.land (_key_modifiers w) ControlModifier =? 0) in
  let middle := negb (Z.land (buttons event) MiddleButton =? 0) in
  let right := negb (Z.land (buttons event) RightButton =? 0) in
  let dx := x event - (_mouse w).1 in
  let dy := y event - (_mouse w).2 in
  let w := Widget (_mouse w) (_mouse_absolute w) (dx, dy)
                  (x event - (_mouse_absolute w).1, y event - (_mouse_absolute w).2)
                  (_mouse w) (_key_modifiers w) (_mousedown_time w) (_dragging w)
                  (_rotate_x w) (_rotate_y w) (_translate_x w) (_translate_y w)
                  (_htranslate w) (_vtranslate w) in
  let consumeEvent := middle || (right && ctrl) in
  let '(w, announced) :=
    if later (clock event) (_mousedown_time w) && negb (_dragging w) then
      (with_dragging true w,
       if negb consumeEvent
       then [send_drag DRAG_START (under_mouse event) (x event) (y event); refresh]
       else [])
    else if later (clock_again event) (_mousedown_time w) && _dragging w then
      (w,
       if negb consumeEvent
       then [send_drag DRAG (under_mouse event) (x event) (y event); refresh]
       else [])
    else (w, []) in
  let '(w, rotated) :=
    if (right && ctrl) || (middle && negb ctrl) then
      (Widget (_mouse w) (_mouse_absolute w) (mouse_delta_relative w) (mouse_delta_absolute w)
              (mouse_position w) (_key_modifiers w) (_mousedown_time w) (_dragging w)
              (_rotate_x w + dy) (_rotate_y w + dx) (_translate_x w) (_translate_y w)
              (_htranslate w) (_vtranslate w),
       [updateGL])
    else (w, []) in
  let '(w, translated) :=
    if middle && ctrl then
      (Widget (_mouse w) (_mouse_absolute w) (mouse_delta_relative w) (mouse_delta_absolute w)
              (mouse_position w) (_key_modifiers w) (_mousedown_time w) (_dragging w)
              (_rotate_x w) (_rotate_y w)
              (add_scaled (_translate_x w) dx (_htranslate w))
              (add_scaled (_translate_y w) (- dy) (_vtranslate w))
              (_htranslate w) (_vtranslate w),
       [refresh])
    else (w, []) in
  (with_mouse (x event, y event) w, announced ++ rotated ++ translated).

(** [mouseReleaseEvent], lines 406-415. *)
Definition mouseReleaseEvent (w : widget) (event : mouse_event) : widget * list call :=
  let w := with_mouse (x event, y event) w in
  if _dragging w then
    (with_dragging false w,
     [send_drag DRAG_END (under_mouse event) (x event) (y event); refresh])
  else
    (w, [send_mouse_click (under_mouse event) (x event) (y event); refresh]).

(** The mouse moves of a gesture, one after the other. *)
Fixpoint mouse_moves (w : widget) (events : list mouse_event) : widget * list call :=
  match events with
  | [] => (w, [])
  | event :: events =>
      let '(w, calls) := mouseMoveEvent w event in
      let '(w, calls') := mouse_moves w events in
      (w, calls ++ calls')
  end.

(** The drag types announced by a sequence of calls. *)
Definition drag_types (calls : list call) : list Z :=
  omap (fun c => match c with send_drag dragtype _ _ _ => Some dragtype | _ => None end) calls.

(** The camera: rotation and translation. *)
Definition camera (w : widget) : Z * Z * F * F :=
  (_rotate_x w, _rotate_y w, _translate_x w, _translate_y w).

End mouse.

End GLWidget.

(** * Properties *)

(** ** Bytes and 32-bit fields *)

Lemma byte_of_mask v k m :
  0 <= k -> Z.shiftr m k = 255 ->
  Z.shiftr (Z.land v m) k = Z.land (Z.shiftr v k) (Z.ones 8).
Proof.
  intros Hk Hm. rewrite Z.shiftr_land, Hm. reflexivity.
Qed.

Lemma le32_bytes v :
  le32 v = [ Z.land (Z.shiftr v 0) (Z.ones 8); Z.land (Z.shiftr v 8) (Z.ones 8);
             Z.land (Z.shiftr v 16) (Z.ones 8); Z.land (Z.shiftr v 24) (Z.ones 8) ].
Proof.
  unfold le32.
  rewrite (byte_of_mask v 8), (byte_of_mask v 16), (byte_of_mask v 24) by (lia || reflexivity).
  rewrite Z.shiftr_0_r. reflexivity.
Qed.

Lemma land_ones8_byte a : is_byte (Z.land a (Z.ones 8)) = true.
Proof.
  rewrite Z.land_ones by lia. unfold is_byte.
  pose proof (Z.mod_pos_bound a (2 ^ 8)). lia.
Qed.

Lemma le32_is_bytes v : forallb is_byte (le32 v) = true.
Proof.
  rewrite le32_bytes. cbn [forallb]. rewrite !land_ones8_byte. reflexivity.
Qed.

Lemma le32_length v : length (le32 v) = 4%nat.
Proof. reflexivity. Qed.

Lemma testbit_byte v k n :
  0 <= k -> 0 <= n ->
  Z.testbit (Z.land (Z.shiftr v k) (Z.ones 8)) n = (n <? 8) && Z.testbit v (n + k).
Proof.
  intros Hk Hn.
  rewrite Z.land_spec, Z.shiftr_spec, Z.testbit_ones_nonneg by lia.
  apply andb_comm.
Qed.

(** Reading back a field written by [uint32] gives the value modulo 2^32. *)
Lemma decode32_le32 v : decode32 (le32 v) = v mod 2 ^ 32.
Proof.
  rewrite le32_bytes. cbn [decode32].
  apply Z.bits_inj'. intros n Hn.
  rewrite Z.testbit_mod_pow2 by lia.
  rewrite !Z.lor_spec, !Z.shiftl_spec by lia.
  destruct (Z.ltb_spec n 8); [| destruct (Z.ltb_spec n 16);
    [| destruct (Z.ltb_spec n 24); [| destruct (Z.ltb_spec n 32)]]].
  all: repeat match goal with
    | |- context [Z.testbit ?a (?i - ?k)] =>
        first [ rewrite (Z.testbit_neg_r a (i - k)) by lia
              | rewrite (testbit_byte _ _ (i - k)) by lia ]
    end.
  all: rewrite ?testbit_byte by lia.
  all: repeat match goal with
    | |- context [?a <? ?b] => destruct (Z.ltb_spec a b); try lia
    end.
  all: cbn [andb orb]; rewrite ?orb_false_r, ?Z.add_0_r; try reflexivity.
  all: f_equal; lia.
Qed.

Lemma decode32_le32_small v : 0 <= v < 2 ^ 32 -> decode32 (le32 v) = v.
Proof. intros. rewrite decode32_le32. apply Z.mod_small. lia. Qed.

(** ** Running the monad *)

Lemma bind_Return {A B} (m : M A) (k : A -> M B) w a w' :
  m w = (Return a, w') -> bind m k w = k a w'.
Proof. intros H. unfold bind. rewrite H. reflexivity. Qed.

Lemma bind_Raise {A B} (m : M A) (k : A -> M B) w e w' :
  m w = (Raise e, w') -> bind m k w = (Raise e, w').
Proof. intros H. unfold bind. rewrite H. reflexivity. Qed.

Lemma bind_OutOfFuel {A B} (m : M A) (k : A -> M B) w w' :
  m w = (OutOfFuel, w') -> bind m k w = (OutOfFuel, w').
Proof. intros H. unfold bind. rewrite H. reflexivity. Qed.

Lemma bind_unit_ret (m : M unit) w : bind m (fun _ => ret tt) w = m w.
Proof. unfold bind. destruct (m w) as [[[]| |] w']; reflexivity. Qed.

Lemma bind_assoc {A B C} (m : M A) (k : A -> M B) (h : B -> M C) w :
  bind (bind m k) h w = bind m (fun a => bind (k a) h) w.
Proof. unfold bind. destruct (m w) as [[a| |] w']; reflexivity. Qed.

Lemma bind_ext {A B} (m : M A) (k1 k2 : A -> M B) w :
  (forall a w', k1 a w' = k2 a w') -> bind m k1 w = bind m k2 w.
Proof. intros H. unfold bind. destruct (m w) as [[a| |] w']; auto. Qed.

Lemma for_each_ext {A} (l : list A) (body1 body2 : A -> M unit) w :
  (forall a w, a ∈ l -> body1 a w = body2 a w) ->
  for_each l body1 w = for_each l body2 w.
Proof.
  revert w. induction l as [|a l IH]; intros w Hext; [reflexivity|].
  cbn [for_each]. unfold bind. rewrite Hext by left.
  destruct (body2 a w) as [[[]| |] w']; try reflexivity.
  apply IH. intros. apply Hext. by right.
Qed.

Lemma for_each_app {A} (l1 l2 : list A) (body : A -> M unit) w :
  for_each (l1 ++ l2) body w = bind (for_each l1 body) (fun _ => for_each l2 body) w.
Proof.
  revert w. induction l1 as [|a l1 IH]; intros w; [reflexivity|].
  cbn [for_each app]. rewrite bind_assoc.
  apply bind_ext. intros _ w'. apply IH.
Qed.

Lemma for_each_bind {A B} (l : list A) (f : A -> list B) (body : B -> M unit) w :
  for_each (l ≫= f) body w = for_each l (fun a => for_each (f a) body) w.
Proof.
  revert w. induction l as [|a l IH]; intros w; [reflexivity|].
  rewrite bind_cons, for_each_app. cbn [for_each]. unfold bind.
  destruct (for_each (f a) body w) as [[[]| |] w']; try reflexivity.
  apply IH.
Qed.

(** The three nested loops of [save] visit [traversal g] in order. *)
Lemma for_each_traversal g (body : Z -> Z -> Z -> M unit) w :
  for_each (xrange (VoxelData.depth g)) (fun z =>
    for_each (xrange (VoxelData.height g)) (fun y =>
      for_each (xrange (VoxelData.width g)) (fun x => body x y z))) w
  = for_each (traversal g) (fun p => body p.1.1 p.1.2 p.2) w.
Proof.
  unfold traversal. rewrite for_each_bind.
  apply for_each_ext. intros z w1 _. rewrite for_each_bind.
  apply for_each_ext. intros y w2 _. rewrite for_each_bind.
  apply for_each_ext. intros x w3 _. cbn [for_each].
  symmetry. apply bind_unit_ret.
Qed.

Lemma foldl_bind {A B C} (f : C -> B -> C) (g : A -> list B) (l : list A) s :
  foldl f s (l ≫= g) = foldl (fun s a => foldl f s (g a)) s l.
Proof.
  revert s. induction l as [|a l IH]; intros s; [reflexivity|].
  rewrite bind_cons, foldl_app. apply IH.
Qed.

Lemma foldl_ext_in {A B} (f1 f2 : B -> A -> B) (l : list A) s :
  (forall s a, a ∈ l -> f1 s a = f2 s a) -> foldl f1 s l = foldl f2 s l.
Proof.
  revert s. induction l as [|a l IH]; intros s Hext; [reflexivity|].
  cbn [foldl]. rewrite Hext by left. apply IH. intros. apply Hext. by right.
Qed.

Lemma count_and_palette_traversal g :
  count_and_palette g
  = foldl (fun s p => count_voxel (get_at g p) s) (Locals 0 ∅ ∅ 0) (traversal g).
Proof.
  unfold count_and_palette, traversal. rewrite foldl_bind.
  apply foldl_ext_in. intros s z _. rewrite foldl_bind.
  apply foldl_ext_in. intros s1 y _. rewrite foldl_bind.
  apply foldl_ext_in. intros s2 x _. reflexivity.
Qed.

Lemma elem_of_traversal g x y z :
  (x, y, z) ∈ traversal g <->
  0 <= x < VoxelData.width g /\ 0 <= y < VoxelData.height g /\ 0 <= z < VoxelData.depth g.
Proof.
  unfold traversal, xrange.
  setoid_rewrite list_elem_of_bind. setoid_rewrite list_elem_of_bind.
  setoid_rewrite list_elem_of_bind. setoid_rewrite elem_of_seqZ.
  setoid_rewrite list_elem_of_singleton.
  split.
  - intros (z' & (y' & (x' & Heq & Hx) & Hy) & Hz). simplify_eq. lia.
  - intros (Hx & Hy & Hz). exists z. split; [|lia]. exists y. split; [|lia].
    exists x. split; [done|lia].
Qed.

Lemma NoDup_traversal g : NoDup (traversal g).
Proof.
  unfold traversal, xrange. apply NoDup_bind; [| |apply NoDup_seqZ].
  - intros z1 z2 p _ _ Hz1 Hz2.
    apply list_elem_of_bind in Hz1 as (y1 & Hy1 & _).
    apply list_elem_of_bind in Hz2 as (y2 & Hy2 & _).
    apply list_elem_of_bind in Hy1 as (x1 & Hx1 & _).
    apply list_elem_of_bind in Hy2 as (x2 & Hx2 & _).
    apply list_elem_of_singleton in Hx1, Hx2. congruence.
  - intros z _. apply NoDup_bind; [| |apply NoDup_seqZ].
    + intros y1 y2 p _ _ Hy1 Hy2.
      apply list_elem_of_bind in Hy1 as (x1 & Hx1 & _).
      apply list_elem_of_bind in Hy2 as (x2 & Hx2 & _).
      apply list_elem_of_singleton in Hx1, Hx2. congruence.
    + intros y _. apply NoDup_bind; [| |apply NoDup_seqZ].
      * intros x1 x2 p _ _ Hx1 Hx2.
        apply list_elem_of_singleton in Hx1, Hx2. congruence.
      * intros x _. apply NoDup_singleton.
Qed.

(** ** What [save] writes *)

Lemma append_disk_nil w : append_disk [] w = w.
Proof. destruct w. unfold append_disk. cbn. by rewrite app_nil_r. Qed.

Lemma append_disk_app a b w : append_disk (a ++ b) w = append_disk b (append_disk a w).
Proof. unfold append_disk. cbn. by rewrite app_assoc. Qed.

Lemma run_bytearray {B} l (k : list Z -> M B) w :
  forallb is_byte l = true -> bind (bytearray l) k w = k l w.
Proof. intros H. unfold bind, bytearray. rewrite H. reflexivity. Qed.

Lemma run_f_write {B} data (k : unit -> M B) w :
  bind (f_write data) k w = k tt (append_disk data w).
Proof. reflexivity. Qed.

Lemma run_uint32_write {B} v (k : unit -> M B) w :
  bind (uint32_write v) k w = k tt (append_disk (le32 v) w).
Proof.
  unfold uint32_write. rewrite bind_assoc, run_bytearray by apply le32_is_bytes.
  reflexivity.
Qed.

Lemma run_string_write {B} s (k : unit -> M B) w :
  bind (string_write s) k w = k tt (append_disk (bytes_of_string s) w).
Proof. reflexivity. Qed.

Lemma palette_entry_bytes pal i : forallb is_byte (palette_entry pal i) = true.
Proof.
  unfold palette_entry. destruct (pal !! i) as [c|]; [|reflexivity].
  rewrite (byte_of_mask c 8), (byte_of_mask c 16), (byte_of_mask c 24)
    by (lia || reflexivity).
  cbn [forallb]. rewrite !land_ones8_byte. reflexivity.
Qed.

Lemma write_palette_entry_spec pal i w :
  write_palette_entry pal i w = (Return tt, append_disk (palette_entry pal i) w).
Proof.
  unfold write_palette_entry.
  pose proof (palette_entry_bytes pal i) as Hb. unfold palette_entry in *.
  destruct (pal !! i); rewrite run_bytearray by exact Hb; reflexivity.
Qed.

(** A loop whose body only writes leaves the bytes of its rounds, in order. *)
Lemma for_each_writes {A} (l : list A) (body : A -> M unit) (out : A -> list Z) :
  (forall a, a ∈ l -> forall w, body a w = (Return tt, append_disk (out a) w)) ->
  forall w, for_each l body w = (Return tt, append_disk (l ≫= out) w).
Proof.
  induction l as [|a l IH]; intros Hbody w.
  - cbn. by rewrite append_disk_nil.
  - cbn [for_each]. rewrite bind_cons, append_disk_app.
    erewrite bind_Return by (apply Hbody; left).
    apply IH. intros. apply Hbody. by right.
Qed.

Lemma write_voxel_spec g pm x y z w :
  is_byte x = true -> is_byte y = true -> is_byte z = true ->
  (forall c i, pm !! c = Some i -> is_byte i = true) ->
  write_voxel g pm x y z w = (Return tt, append_disk (voxel_record g pm (x, y, z)) w).
Proof.
  intros Hx Hy Hz Hpm. unfold write_voxel, voxel_record, get_at, swap_yz. cbn [fst snd].
  destruct (VoxelData.get g x z y =? 0); [by rewrite append_disk_nil|].
  rewrite run_bytearray; [reflexivity|].
  cbn [forallb]. rewrite Hx, Hy, Hz. cbn [andb]. rewrite andb_true_r.
  destruct (pm !! _) as [i|] eqn:Hi; [eauto|reflexivity].
Qed.

(** *** The counting loop *)

Lemma count_voxel_below vox s : palette_map_below s -> palette_map_below (count_voxel vox s).
Proof.
  intros [H0 Hs]. unfold count_voxel.
  destruct (vox =? 0); [done|].
  destruct (palette s !! _); cbn; [done|].
  split; cbn; [lia|]. intros c i.
  destruct (decide (c = Z.land vox 4294967040)) as [->|Hne].
  - rewrite lookup_insert_eq. intros [= <-]. lia.
  - rewrite lookup_insert_ne by done. intros H%Hs. lia.
Qed.

Lemma count_loop_below g l s :
  palette_map_below s ->
  palette_map_below (foldl (fun s p => count_voxel (get_at g p) s) s l).
Proof.
  revert s. induction l as [|p l IH]; intros s Hs; [done|].
  cbn [foldl]. apply IH, count_voxel_below, Hs.
Qed.

Lemma count_and_palette_below g : palette_map_below (count_and_palette g).
Proof.
  rewrite count_and_palette_traversal. apply count_loop_below.
  split; cbn; [lia|]. intros c i. by rewrite lookup_empty.
Qed.

Lemma count_voxel_count vox s :
  voxel_count (count_voxel vox s) = voxel_count s + (if vox =? 0 then 0 else 1).
Proof.
  unfold count_voxel. destruct (vox =? 0); [lia|].
  destruct (palette s !! _); reflexivity.
Qed.

Lemma count_loop_count g l s :
  voxel_count (foldl (fun s p => count_voxel (get_at g p) s) s l)
  = voxel_count s + Z.of_nat (length (filter (nonempty g) l)).
Proof.
  revert s. induction l as [|p l IH]; intros s; [cbn; lia|].
  cbn [foldl]. rewrite IH, count_voxel_count, filter_cons. unfold nonempty at 2.
  destruct (decide (get_at g p ≠ 0)) as [Hne|He].
  - apply Z.eqb_neq in Hne. rewrite Hne. cbn [length]. lia.
  - apply dec_stable in He. rewrite He. cbn. lia.
Qed.

(** [voxel_count] ends as the number of non-empty cells of the grid. *)
Lemma voxel_count_nonempty_cells g :
  voxel_count (count_and_palette g) = nonempty_cells g.
Proof. rewrite count_and_palette_traversal, count_loop_count. reflexivity. Qed.

(** *** The whole of [save] *)

Lemma append_disk_World data dk st r g :
  append_disk data (World dk st r g) = World (dk ++ data) st r g.
Proof. reflexivity. Qed.

Lemma save_spec w0 :
  let g := voxels w0 in
  idx (count_and_palette g) < 256 ->
  VoxelData.width g <= 256 -> VoxelData.height g <= 256 -> VoxelData.depth g <= 256 ->
  save w0 = (Return tt, World (saved_file g) Closed [] g).
Proof.
  intros g Hidx Hw Hh Hd. unfold save.
  rewrite (bind_Return get_voxel_data _ w0 g w0) by reflexivity.
  fold g. destruct (Z.leb_spec 256 (idx (count_and_palette g))) as [|_]; [lia|].
  rewrite (bind_Return open_wb _ w0 tt (World [] Opened [] g)) by reflexivity.
  repeat (first [rewrite run_uint32_write | rewrite run_string_write];
          cbv beta; rewrite append_disk_World).
  erewrite bind_Return
    by (apply (for_each_writes _ _ (palette_entry (palette (count_and_palette g))));
        intros; apply write_palette_entry_spec).
  rewrite append_disk_World.
  repeat (first [rewrite run_uint32_write | rewrite run_string_write];
          cbv beta; rewrite append_disk_World).
  erewrite bind_Return; cycle 1.
  { rewrite for_each_traversal. apply for_each_writes.
    intros [[x y] z] Hin w. cbn [fst snd].
    apply elem_of_traversal in Hin.
    apply write_voxel_spec; unfold is_byte; try lia.
    intros c i Hi. apply count_and_palette_below in Hi. lia. }
  rewrite append_disk_World. unfold f_close. cbn [disk f_status f_rest voxels].
  unfold saved_file, file_header, size_chunk, rgba_chunk, xyzi_chunk, voxel_records.
  rewrite app_nil_l. repeat rewrite <- app_assoc.
  replace (16 + (16 + 4 * 3) + (16 + 4 * 256) + (16 + 4 + voxel_count (count_and_palette g) * 4))
    with (1104 + 4 * voxel_count (count_and_palette g)) by lia.
  change (4 * 3) with 12. change (4 * 256) with 1024.
  match goal with |- ?a = ?b => constr_eq a b end.
  reflexivity.
Qed.

(** ** What [load] reads *)

Lemma run_f_read_app {B} n a rest (k : list Z -> M B) dk st g :
  length a = Z.to_nat n ->
  bind (f_read n) k (World dk st (a ++ rest) g) = k a (World dk st rest g).
Proof.
  intros Hn. unfold bind, f_read. cbn [f_rest disk f_status voxels].
  rewrite <- Hn, take_app_length, drop_app_length. reflexivity.
Qed.

Lemma run_f_read_eof {B} n (k : list Z -> M B) dk st g :
  bind (f_read n) k (World dk st [] g) = k [] (World dk st [] g).
Proof.
  unfold bind, f_read. cbn [f_rest disk f_status voxels].
  rewrite take_nil, drop_nil. reflexivity.
Qed.

Lemma run_uint32_read_le32 {B} v rest (k : Z -> M B) dk st g :
  bind uint32_read k (World dk st (le32 v ++ rest) g)
  = k (v mod 2 ^ 32) (World dk st rest g).
Proof.
  unfold uint32_read. rewrite bind_assoc, run_f_read_app by reflexivity.
  unfold bind, ret. rewrite decode32_le32. reflexivity.
Qed.

Lemma run_uint32_read_eof {B} (k : Z -> M B) dk st g :
  bind uint32_read k (World dk st [] g) = k 0 (World dk st [] g).
Proof. unfold uint32_read. rewrite bind_assoc, run_f_read_eof. reflexivity. Qed.

Lemma run_ret {A B} (a : A) (k : A -> M B) w : bind (ret a) k w = k a w.
Proof. reflexivity. Qed.

Lemma run_index {B} (b : list Z) i v (k : Z -> M B) w :
  b !! i = Some v -> bind (index b i) k w = k v w.
Proof. intros H. unfold bind, index. rewrite H. reflexivity. Qed.

Lemma read_palette_entry_spec pal i b0 b1 b2 b3 rest dk st g :
  read_palette_entry pal i (World dk st ([b0; b1; b2; b3] ++ rest) g)
  = (Return (<[i := pack_rgba [b0; b1; b2; b3]]> pal), World dk st rest g).
Proof.
  unfold read_palette_entry. rewrite run_f_read_app by reflexivity.
  rewrite (run_index _ 0 b0), (run_index _ 1 b1), (run_index _ 2 b2),
    (run_index _ 3 b3) by reflexivity.
  reflexivity.
Qed.

Lemma read_palette_spec (entry : Z -> list Z) l pal rest dk st g :
  (forall i, i ∈ l -> length (entry i) = 4%nat) ->
  read_palette l pal (World dk st ((l ≫= entry) ++ rest) g)
  = (Return (loaded_palette entry l pal), World dk st rest g).
Proof.
  revert pal. induction l as [|i l IH]; intros pal Hlen; [reflexivity|].
  cbn [read_palette]. rewrite bind_cons, <- app_assoc.
  assert (length (entry i) = 4%nat) as Hi by (apply Hlen; left).
  unfold loaded_palette. cbn [foldl].
  destruct (entry i) as [|b0 [|b1 [|b2 [|b3 [|]]]]] eqn:He; try discriminate Hi.
  erewrite bind_Return by apply read_palette_entry_spec.
  apply IH. intros. apply Hlen. by right.
Qed.

Lemma read_voxel_spec pal i b0 b1 b2 b3 rest dk st g :
  read_voxel pal i (World dk st (record_bytes (b0, b1, b2, b3) ++ rest) g)
  = (Return tt, World dk st rest (apply_record pal g (b0, b1, b2, b3))).
Proof.
  unfold read_voxel. rewrite run_f_read_app by reflexivity.
  unfold record_bytes. cbn [fst snd].
  rewrite (run_index _ 3 b3) by reflexivity.
  rewrite (run_index _ 0 b0), (run_index _ 2 b2), (run_index _ 1 b1) by reflexivity.
  reflexivity.
Qed.

Lemma read_records_spec pal (rs : list (Z * Z * Z * Z)) (l : list Z) rest dk st g :
  length l = length rs ->
  for_each l (read_voxel pal) (World dk st ((rs ≫= record_bytes) ++ rest) g)
  = (Return tt, World dk st rest (foldl (apply_record pal) g rs)).
Proof.
  revert l g. induction rs as [|[[[b0 b1] b2] b3] rs IH]; intros [|i l] g Hlen;
    try discriminate Hlen; [reflexivity|].
  cbn [for_each foldl]. rewrite bind_cons, <- app_assoc.
  erewrite bind_Return by apply read_voxel_spec.
  apply IH. by injection Hlen.
Qed.

Lemma voxel_records_written g pm :
  voxel_records g pm = written_records g pm ≫= record_bytes.
Proof.
  unfold voxel_records, written_records, written.
  induction (traversal g) as [|p l IH]; [reflexivity|].
  rewrite bind_cons, filter_cons, IH. unfold voxel_record at 1, nonempty at 2.
  destruct (decide (get_at g (swap_yz p) ≠ 0)) as [Hne|He].
  - apply Z.eqb_neq in Hne. rewrite Hne. reflexivity.
  - apply dec_stable in He. rewrite He. reflexivity.
Qed.

Lemma load_chunks_done fuel pal w : load_chunks fuel pal 0 w = (Return 0, w).
Proof. destruct fuel; reflexivity. Qed.

Lemma load_chunks_step fuel pal left w :
  left ≠ 0 ->
  load_chunks (S fuel) pal left w
  = bind (load_chunk pal)
         (fun r => load_chunks fuel r.1.1 (left - 16 - r.1.2 + r.2)) w.
Proof.
  intros Hl. cbn [load_chunks]. apply Z.eqb_neq in Hl. rewrite Hl.
  apply bind_ext. intros [[p c] ch] w'. reflexivity.
Qed.

Lemma load_chunk_size pal content child w h d rest dk st g :
  load_chunk pal
    (World dk st (bytes_of_string "SIZE" ++ le32 content ++ le32 child ++
                  le32 w ++ le32 h ++ le32 d ++ rest) g)
  = if (127 <? w mod 2 ^ 32) || (127 <? h mod 2 ^ 32) || (127 <? d mod 2 ^ 32)
    then (Raise ModelTooLarge, World dk st rest g)
    else (Return (pal, content mod 2 ^ 32, child mod 2 ^ 32),
          World dk st rest
            (VoxelData.resize g (w mod 2 ^ 32) (h mod 2 ^ 32) (d mod 2 ^ 32))).
Proof.
  unfold load_chunk. rewrite run_f_read_app by reflexivity.
  rewrite !run_uint32_read_le32.
  rewrite (bool_decide_eq_true_2 _ eq_refl).
  rewrite !bind_assoc, run_uint32_read_le32.
  rewrite !bind_assoc, run_uint32_read_le32.
  rewrite !bind_assoc, run_uint32_read_le32.
  destruct ((127 <? w mod 2 ^ 32) || (127 <? h mod 2 ^ 32) || (127 <? d mod 2 ^ 32));
    reflexivity.
Qed.

Lemma load_chunk_rgba pal content child (entry : Z -> list Z) rest dk st g :
  (forall i, length (entry i) = 4%nat) ->
  load_chunk pal
    (World dk st (bytes_of_string "RGBA" ++ le32 content ++ le32 child ++
                  (xrange 256 ≫= entry) ++ rest) g)
  = (Return (loaded_palette entry (xrange 256) pal, content mod 2 ^ 32, child mod 2 ^ 32),
     World dk st rest g).
Proof.
  intros Hlen. unfold load_chunk. rewrite run_f_read_app by reflexivity.
  rewrite !run_uint32_read_le32.
  rewrite (bool_decide_eq_false_2 (bytes_of_string "RGBA" = bytes_of_string "SIZE"))
    by discriminate.
  rewrite (bool_decide_eq_true_2 _ eq_refl).
  erewrite bind_Return by (apply read_palette_spec; auto).
  reflexivity.
Qed.

Lemma load_chunk_xyzi pal content child count (rs : list (Z * Z * Z * Z)) rest dk st g :
  count mod 2 ^ 32 = Z.of_nat (length rs) ->
  load_chunk pal
    (World dk st (bytes_of_string "XYZI" ++ le32 content ++ le32 child ++
                  le32 count ++ (rs ≫= record_bytes) ++ rest) g)
  = (Return (pal, content mod 2 ^ 32, child mod 2 ^ 32),
     World dk st rest (foldl (apply_record pal) g rs)).
Proof.
  intros Hcount. unfold load_chunk. rewrite run_f_read_app by reflexivity.
  rewrite !run_uint32_read_le32.
  rewrite (bool_decide_eq_false_2 (bytes_of_string "XYZI" = bytes_of_string "SIZE"))
    by discriminate.
  rewrite (bool_decide_eq_false_2 (bytes_of_string "XYZI" = bytes_of_string "RGBA"))
    by discriminate.
  rewrite (bool_decide_eq_true_2 _ eq_refl).
  rewrite !bind_assoc, run_uint32_read_le32.
  rewrite bind_assoc.
  erewrite bind_Return; [reflexivity|].
  apply read_records_spec. unfold xrange. rewrite length_seqZ, Hcount. lia.
Qed.

(** At the end of the file a header read gives an empty tag and two zero
    lengths, and the catch-all branch reads nothing. *)
Lemma load_chunk_eof pal dk st g :
  load_chunk pal (World dk st [] g) = (Return (pal, 0, 0), World dk st [] g).
Proof.
  unfold load_chunk. rewrite run_f_read_eof, !run_uint32_read_eof.
  rewrite !bool_decide_eq_false_2 by discriminate.
  rewrite bind_assoc, run_f_read_eof. reflexivity.
Qed.

(** A chunk with any other tag: its payload is read and dropped, the palette
    and the grid stay as they are. *)
Lemma load_chunk_unknown pal tag content child rest dk st g :
  length tag = 4%nat ->
  tag ≠ bytes_of_string "SIZE" -> tag ≠ bytes_of_string "RGBA" ->
  tag ≠ bytes_of_string "XYZI" ->
  load_chunk pal (World dk st (tag ++ le32 content ++ le32 child ++ rest) g)
  = (Return (pal, content mod 2 ^ 32, child mod 2 ^ 32),
     World dk st (drop (Z.to_nat (content mod 2 ^ 32 + child mod 2 ^ 32)) rest) g).
Proof.
  intros Hlen H1 H2 H3. unfold load_chunk. rewrite run_f_read_app by exact Hlen.
  rewrite !run_uint32_read_le32.
  rewrite !bool_decide_eq_false_2 by assumption.
  reflexivity.
Qed.

Lemma length_bind_const {A B} (f : A -> list B) (l : list A) k :
  (forall a, length (f a) = k) -> length (l ≫= f) = (length l * k)%nat.
Proof.
  intros Hf. induction l as [|a l IH]; [reflexivity|].
  rewrite bind_cons, length_app, IH, Hf. cbn [length]. lia.
Qed.

Lemma length_traversal g :
  length (traversal g)
  = (Z.to_nat (VoxelData.depth g) * (Z.to_nat (VoxelData.height g)
     * (Z.to_nat (VoxelData.width g) * 1)))%nat.
Proof.
  unfold traversal, xrange.
  rewrite (length_bind_const _ _
    (Z.to_nat (VoxelData.height g) * (Z.to_nat (VoxelData.width g) * 1))%nat).
  { by rewrite length_seqZ. }
  intros z. rewrite (length_bind_const _ _ (Z.to_nat (VoxelData.width g) * 1)%nat).
  { by rewrite length_seqZ. }
  intros y. rewrite (length_bind_const _ _ 1%nat).
  { by rewrite length_seqZ. }
  reflexivity.
Qed.

(** A grid within the format's limits has fewer than 2^21 cells. *)
Lemma nonempty_cells_bound g :
  VoxelData.width g <= 127 -> VoxelData.height g <= 127 -> VoxelData.depth g <= 127 ->
  0 <= nonempty_cells g <= 2048383.
Proof.
  intros Hw Hh Hd. unfold nonempty_cells.
  pose proof (length_filter (nonempty g) (traversal g)) as Hle.
  rewrite length_traversal in Hle.
  assert (Z.to_nat (VoxelData.depth g) * (Z.to_nat (VoxelData.height g)
            * (Z.to_nat (VoxelData.width g) * 1)) <= 127 * (127 * (127 * 1)))%nat.
  { repeat apply Nat.mul_le_mono; lia. }
  lia.
Qed.

Lemma palette_entry_length pal i : length (palette_entry pal i) = 4%nat.
Proof. unfold palette_entry. by destruct (pal !! i). Qed.

(** *** Loading what [save] wrote *)

(** When the voxel chunk holds as many records as its count says, [load]
    walks the three chunks, finds an empty header at the end of the file,
    and leaves the loop with nothing left. *)
Lemma load_chunks_saved g g0 dk st :
  0 <= VoxelData.width g <= 127 -> 0 <= VoxelData.height g <= 127 ->
  0 <= VoxelData.depth g <= 127 ->
  nonempty_cells g = Z.of_nat (length (written g)) ->
  load_chunks 4 ∅ (1104 + 4 * nonempty_cells g) (World dk st (saved_chunks g) g0)
  = (Return 0, World dk st [] (loaded_grid g)).
Proof.
  intros Hw Hh Hd Hcount.
  pose proof (nonempty_cells_bound g ltac:(lia) ltac:(lia) ltac:(lia)) as Hn.
  unfold saved_chunks, size_chunk, rgba_chunk, xyzi_chunk.
  rewrite voxel_count_nonempty_cells, voxel_records_written.
  rewrite <- (app_nil_r (written_records _ _ ≫= record_bytes)).
  repeat rewrite <- app_assoc.
  rewrite load_chunks_step by lia.
  erewrite bind_Return; cycle 1.
  { rewrite load_chunk_size. rewrite !Z.mod_small by lia.
    destruct (Z.ltb_spec 127 (VoxelData.width g)); [lia|].
    destruct (Z.ltb_spec 127 (VoxelData.height g)); [lia|].
    destruct (Z.ltb_spec 127 (VoxelData.depth g)); [lia|].
    reflexivity. }
  cbn [fst snd].
  rewrite load_chunks_step by lia.
  erewrite bind_Return; cycle 1.
  { apply load_chunk_rgba. apply palette_entry_length. }
  cbn [fst snd]. rewrite !Z.mod_small by lia.
  rewrite load_chunks_step by lia.
  erewrite bind_Return; cycle 1.
  { apply load_chunk_xyzi. rewrite Z.mod_small by lia.
    unfold written_records. rewrite length_fmap. exact Hcount. }
  cbn [fst snd]. rewrite !Z.mod_small by lia.
  rewrite load_chunks_step by lia.
  erewrite bind_Return by apply load_chunk_eof.
  cbn [fst snd].
  replace (_ - 16 - 0 + 0) with 0 by lia.
  rewrite load_chunks_done. reflexivity.
Qed.

Lemma saved_file_chunks g :
  saved_file g = file_header (1104 + 4 * nonempty_cells g) ++ saved_chunks g.
Proof. unfold saved_file, saved_chunks. by rewrite voxel_count_nonempty_cells. Qed.

Lemma load_header fuel children rest g0 file :
  file = file_header children ++ rest ->
  load fuel (with_file file g0)
  = bind (load_chunks fuel ∅ (0 + children mod 2 ^ 32)) (fun _ => f_close)
         (World file Opened rest g0).
Proof.
  intros Hfile. unfold load, with_file.
  rewrite (bind_Return open_rb _ _ tt (World file Opened file g0)) by reflexivity.
  replace (World file Opened file g0)
    with (World file Opened (file_header children ++ rest) g0) by congruence.
  unfold file_header. repeat rewrite <- app_assoc.
  rewrite run_f_read_app by reflexivity.
  rewrite run_uint32_read_le32.
  rewrite (bool_decide_eq_true_2 _ eq_refl). cbn [negb].
  rewrite run_f_read_app by reflexivity.
  rewrite !run_uint32_read_le32.
  reflexivity.
Qed.

Lemma load_saved_file g g0 :
  0 <= VoxelData.width g <= 127 -> 0 <= VoxelData.height g <= 127 ->
  0 <= VoxelData.depth g <= 127 ->
  nonempty_cells g = Z.of_nat (length (written g)) ->
  load 4 (with_file (saved_file g) g0)
  = (Return tt, World (saved_file g) Closed [] (loaded_grid g)).
Proof.
  intros Hw Hh Hd Hcount.
  pose proof (nonempty_cells_bound g ltac:(lia) ltac:(lia) ltac:(lia)) as Hn.
  rewrite (load_header 4 _ _ g0 _ (saved_file_chunks g)).
  rewrite Z.mod_small, Z.add_0_l by lia.
  erewrite bind_Return by (apply load_chunks_saved; assumption).
  reflexivity.
Qed.

(** ** The two traversals of [save] *)

Lemma get_nonzero_in_bounds g x y z :
  VoxelData.get g x y z ≠ 0 ->
  0 <= x < VoxelData.width g /\ 0 <= y < VoxelData.height g /\ 0 <= z < VoxelData.depth g.
Proof.
  unfold VoxelData.get, VoxelData.is_valid_bounds. intros H.
  destruct (_ && _) eqn:Hb; [|done]. lia.
Qed.

Lemma elem_of_nonempty_traversal g p :
  p ∈ filter (nonempty g) (traversal g) <-> nonempty g p.
Proof.
  rewrite list_elem_of_filter. destruct p as [[x y] z]. split; [tauto|].
  intros Hne. split; [done|]. apply elem_of_traversal.
  by apply get_nonzero_in_bounds.
Qed.

Lemma elem_of_written g x y z :
  (x, y, z) ∈ written g <->
  VoxelData.get g x z y ≠ 0 /\ y < VoxelData.height g /\ z < VoxelData.depth g.
Proof.
  unfold written. rewrite list_elem_of_filter, elem_of_traversal.
  unfold nonempty, get_at, swap_yz. cbn [fst snd]. split.
  - intros (Hne & Hx & Hy & Hz). split_and!; [done|lia..].
  - intros (Hne & Hy & Hz). pose proof (get_nonzero_in_bounds _ _ _ _ Hne).
    split; [done|lia].
Qed.

Global Instance swap_yz_inj : Inj (=) (=) swap_yz.
Proof. intros [[x y] z] [[x' y'] z']. unfold swap_yz. cbn. congruence. Qed.

Lemma NoDup_written g : NoDup (written g).
Proof. apply NoDup_filter, NoDup_traversal. Qed.

(** The record loop reads the cell [(x, z, y)] for [y < height] and
    [z < depth]: it finds every non-empty cell exactly when each of them
    has [y < depth] and [z < height]. *)
Lemma written_all g :
  (forall x y z, VoxelData.get g x y z ≠ 0 ->
                 y < VoxelData.depth g /\ z < VoxelData.height g) ->
  swap_yz <$> written g ≡ₚ filter (nonempty g) (traversal g).
Proof.
  intros Hswap. apply NoDup_Permutation.
  - apply NoDup_fmap_2; [apply _|apply NoDup_written].
  - apply NoDup_filter, NoDup_traversal.
  - intros [[x y] z]. rewrite elem_of_nonempty_traversal, list_elem_of_fmap.
    unfold nonempty, get_at. cbn [fst snd]. split.
    + intros ([[x' y'] z'] & Heq & Hin). unfold swap_yz in Heq. cbn in Heq.
      simplify_eq. by apply elem_of_written in Hin as (Hne & _).
    + intros Hne. exists (x, z, y). split; [done|].
      apply elem_of_written. split; [done|]. destruct (Hswap _ _ _ Hne). lia.
Qed.

Lemma written_count g :
  (forall x y z, VoxelData.get g x y z ≠ 0 ->
                 y < VoxelData.depth g /\ z < VoxelData.height g) ->
  nonempty_cells g = Z.of_nat (length (written g)).
Proof.
  intros Hswap. unfold nonempty_cells.
  rewrite <- (written_all g Hswap), length_fmap. reflexivity.
Qed.

Lemma main_header_fields_file_header c rest :
  main_header_fields (file_header c ++ rest) = (0, c mod 2 ^ 32).
Proof.
  unfold main_header_fields, file_header.
  repeat rewrite <- app_assoc.
  change (bytes_of_string "VOX " ++ le32 150 ++ bytes_of_string "MAIN" ++ le32 0 ++ le32 c ++ rest)
    with ((bytes_of_string "VOX " ++ le32 150 ++ bytes_of_string "MAIN") ++ le32 0 ++ le32 c ++ rest) at 1.
  rewrite drop_app_length' by reflexivity.
  rewrite take_app_length' by reflexivity.
  change (bytes_of_string "VOX " ++ le32 150 ++ bytes_of_string "MAIN" ++ le32 0 ++ le32 c ++ rest)
    with ((bytes_of_string "VOX " ++ le32 150 ++ bytes_of_string "MAIN" ++ le32 0) ++ le32 c ++ rest).
  rewrite drop_app_length' by reflexivity.
  rewrite take_app_length' by reflexivity.
  rewrite !decode32_le32. reflexivity.
Qed.

Lemma nonempty_cells_bound_256 g :
  VoxelData.width g <= 256 -> VoxelData.height g <= 256 -> VoxelData.depth g <= 256 ->
  0 <= nonempty_cells g <= 16777216.
Proof.
  intros Hw Hh Hd. unfold nonempty_cells.
  pose proof (length_filter (nonempty g) (traversal g)) as Hle.
  rewrite length_traversal in Hle.
  assert (Z.to_nat (VoxelData.depth g) * (Z.to_nat (VoxelData.height g)
            * (Z.to_nat (VoxelData.width g) * 1)) <= 256 * (256 * (256 * 1)))%nat.
  { repeat apply Nat.mul_le_mono; lia. }
  lia.
Qed.

Lemma save_capacity_error (w : world) :
  256 <= idx (count_and_palette (voxels w)) ->
  save w = (Raise (PaletteExceeded (idx (count_and_palette (voxels w)))), w).
Proof.
  intros Hidx. unfold save.
  rewrite (bind_Return get_voxel_data _ w (voxels w) w) by reflexivity.
  destruct (Z.leb_spec 256 (idx (count_and_palette (voxels w)))); [reflexivity|lia].
Qed.

Lemma save_capacity_error_at g n :
  idx (count_and_palette g) = n -> 256 <= n ->
  save (start g) = (Raise (PaletteExceeded n), start g).
Proof.
  intros Hn Hle. rewrite save_capacity_error; unfold start; cbn [voxels].
  - by rewrite Hn.
  - by rewrite Hn.
Qed.

(** ** The walk over the chunks *)

Lemma load_chunks_exit fuel pal left w l w' :
  load_chunks fuel pal left w = (Return l, w') -> l = 0.
Proof.
  revert pal left w. induction fuel as [|fuel IH]; intros pal left w; cbn [load_chunks].
  - destruct (Z.eqb_spec left 0) as [->|]; [by intros [= <- _]|discriminate].
  - destruct (Z.eqb_spec left 0) as [->|]; [by intros [= <- _]|].
    unfold bind. destruct (load_chunk pal w) as [[[[p c] ch]| |] w1]; try discriminate.
    apply IH.
Qed.

(** At the end of the file every round takes 16 off [left] and nothing
    else: a budget that is not a multiple of 16 never gets to zero. *)
Lemma load_chunks_eof_forever fuel pal left dk st g :
  left mod 16 ≠ 0 ->
  load_chunks fuel pal left (World dk st [] g) = (OutOfFuel, World dk st [] g).
Proof.
  revert left. induction fuel as [|fuel IH]; intros left Hleft.
  - cbn [load_chunks]. destruct (Z.eqb_spec left 0) as [->|]; [done|reflexivity].
  - rewrite load_chunks_step by (intros ->; done).
    erewrite bind_Return by apply load_chunk_eof. cbn [fst snd].
    apply IH. replace (left - 16 - 0 + 0) with (left + (-1) * 16) by lia.
    by rewrite Z.mod_add.
Qed.

(** ** Reading and writing cells of the grid *)

Lemma get_set g x y z c x' y' z' :
  VoxelData.get (VoxelData.set g x y z c) x' y' z'
  = if decide ((x', y', z') = (x, y, z))
    then (if VoxelData.is_valid_bounds g x y z then c else VoxelData.get g x y z)
    else VoxelData.get g x' y' z'.
Proof.
  unfold VoxelData.set.
  destruct (VoxelData.is_valid_bounds g x y z) eqn:Hb.
  - unfold VoxelData.get at 1, VoxelData.is_valid_bounds at 1. cbn [VoxelData.width VoxelData.height VoxelData.depth VoxelData.cells].
    fold (VoxelData.is_valid_bounds g x' y' z').
    destruct (decide ((x', y', z') = (x, y, z))) as [Heq|Hne].
    + simplify_eq. rewrite Hb, lookup_insert_eq. reflexivity.
    + rewrite lookup_insert_ne by congruence. reflexivity.
  - destruct (decide ((x', y', z') = (x, y, z))) as [Heq|Hne]; [by simplify_eq|done].
Qed.

Lemma get_empty_grid w h d x y z : VoxelData.get (empty_grid w h d) x y z = 0.
Proof.
  unfold VoxelData.get, empty_grid. cbn [VoxelData.cells].
  rewrite lookup_empty. by destruct (VoxelData.is_valid_bounds _ _ _ _).
Qed.

Lemma is_valid_bounds_true g x y z :
  0 <= x < VoxelData.width g -> 0 <= y < VoxelData.height g ->
  0 <= z < VoxelData.depth g -> VoxelData.is_valid_bounds g x y z = true.
Proof.
  intros Hx Hy Hz. unfold VoxelData.is_valid_bounds.
  rewrite !andb_true_iff, !Z.leb_le, !Z.ltb_lt. lia.
Qed.

(** ** A grid with a single voxel *)

Lemma count_loop_filter g l s :
  foldl (fun s p => count_voxel (get_at g p) s) s l
  = foldl (fun s p => count_voxel (get_at g p) s) s (filter (nonempty g) l).
Proof.
  revert s. induction l as [|p l IH]; intros s; [reflexivity|].
  rewrite filter_cons.
  destruct (decide (nonempty g p)) as [Hne|He]; cbn [foldl]; [apply IH|].
  unfold nonempty in He. apply dec_stable in He. rewrite He. apply IH.
Qed.

Lemma NoDup_singleton_eq {A} (l : list A) a :
  NoDup l -> (forall b, b ∈ l <-> b = a) -> l = [a].
Proof.
  intros Hnd Hin. apply Permutation_singleton_r, NoDup_Permutation;
    [done|apply NoDup_singleton|].
  intros b. rewrite Hin, list_elem_of_singleton. done.
Qed.

Section single_voxel.
Variable g : VoxelData.
Variables (x0 y0 z0 c : Z).
Hypothesis Hc : c ≠ 0.
Hypothesis Hg : forall x y z,
  VoxelData.get g x y z = if decide ((x, y, z) = (x0, y0, z0)) then c else 0.

Lemma single_voxel_bounds :
  0 <= x0 < VoxelData.width g /\ 0 <= y0 < VoxelData.height g /\
  0 <= z0 < VoxelData.depth g.
Proof.
  apply get_nonzero_in_bounds. rewrite Hg. by rewrite decide_True.
Qed.

Lemma single_voxel_nonempty : filter (nonempty g) (traversal g) = [(x0, y0, z0)].
Proof.
  apply NoDup_singleton_eq; [apply NoDup_filter, NoDup_traversal|].
  intros [[x y] z]. rewrite elem_of_nonempty_traversal.
  unfold nonempty, get_at. cbn [fst snd]. rewrite Hg.
  destruct (decide _); [done|]. split; [done|congruence].
Qed.

Lemma single_voxel_count_and_palette :
  count_and_palette g = count_voxel c (Locals 0 ∅ ∅ 0).
Proof.
  rewrite count_and_palette_traversal, count_loop_filter, single_voxel_nonempty.
  cbn [foldl]. unfold get_at. cbn [fst snd]. rewrite Hg. by rewrite decide_True.
Qed.

Lemma single_voxel_written :
  z0 < VoxelData.height g -> y0 < VoxelData.depth g ->
  written g = [(x0, z0, y0)].
Proof.
  intros Hz Hy. apply NoDup_singleton_eq; [apply NoDup_written|].
  intros [[x y] z]. rewrite elem_of_written, Hg.
  destruct (decide ((x, z, y) = (x0, y0, z0))) as [Heq|Hne].
  - simplify_eq. split; [done|]. intros _. split; [done|lia].
  - split; [by intros []|]. intros Heq. simplify_eq.
Qed.

End single_voxel.

(** ** What the steps of [load] and [save] leave alone *)

Create HintDb frame.

Section frames.
Context {A B : Type}.

Lemma disk_blind_ret (a : A) : disk_blind (ret a).
Proof. intros dk w. reflexivity. Qed.

Lemma disk_blind_raise e : disk_blind (@raise A e).
Proof. intros dk w. reflexivity. Qed.

Lemma disk_blind_timeout : disk_blind (@timeout A).
Proof. intros dk w. reflexivity. Qed.

Lemma disk_blind_bind (m : M A) (k : A -> M B) :
  disk_blind m -> (forall a, disk_blind (k a)) -> disk_blind (bind m k).
Proof.
  intros Hm Hk dk w. unfold bind. rewrite Hm.
  destruct (m w) as [[a| |] w1]; cbn [fst snd]; [apply Hk|reflexivity..].
Qed.

Lemma keeps_status_ret (a : A) : keeps_status (ret a).
Proof. intros w. reflexivity. Qed.

Lemma keeps_status_raise e : keeps_status (@raise A e).
Proof. intros w. reflexivity. Qed.

Lemma keeps_status_timeout : keeps_status (@timeout A).
Proof. intros w. reflexivity. Qed.

Lemma keeps_status_bind (m : M A) (k : A -> M B) :
  keeps_status m -> (forall a, keeps_status (k a)) -> keeps_status (bind m k).
Proof.
  intros Hm Hk w. unfold bind. specialize (Hm w).
  destruct (m w) as [[a| |] w1]; cbn [fst snd] in *; [|done..].
  rewrite <- Hm. apply Hk.
Qed.

Lemma closes_raise e : closes (@raise A e).
Proof. intros w Hw. exact Hw. Qed.

Lemma closes_bind (m : M A) (k : A -> M B) :
  keeps_status m -> (forall a, closes (k a)) -> closes (bind m k).
Proof.
  intros Hm Hk w Hw. unfold bind. specialize (Hm w).
  destruct (m w) as [[a| |] w1]; cbn [fst snd] in *; [|congruence..].
  apply Hk. congruence.
Qed.

End frames.

#[local] Hint Resolve disk_blind_ret disk_blind_raise disk_blind_timeout
  keeps_status_ret keeps_status_raise keeps_status_timeout closes_raise : frame.

Lemma disk_blind_f_read n : disk_blind (f_read n).
Proof. intros dk w. reflexivity. Qed.

Lemma disk_blind_get_voxel_data : disk_blind get_voxel_data.
Proof. intros dk w. reflexivity. Qed.

Lemma disk_blind_set_voxel_data g : disk_blind (set_voxel_data g).
Proof. intros dk w. reflexivity. Qed.

Lemma disk_blind_f_close : disk_blind f_close.
Proof. intros dk w. reflexivity. Qed.

Lemma disk_blind_index b i : disk_blind (index b i).
Proof. intros dk w. unfold index. by destruct (b !! i). Qed.

Lemma keeps_status_f_read n : keeps_status (f_read n).
Proof. intros w. reflexivity. Qed.

Lemma keeps_status_f_write data : keeps_status (f_write data).
Proof. intros w. reflexivity. Qed.

Lemma keeps_status_get_voxel_data : keeps_status get_voxel_data.
Proof. intros w. reflexivity. Qed.

Lemma keeps_status_set_voxel_data g : keeps_status (set_voxel_data g).
Proof. intros w. reflexivity. Qed.

Lemma keeps_status_index b i : keeps_status (index b i).
Proof. intros w. unfold index. by destruct (b !! i). Qed.

Lemma keeps_status_bytearray l : keeps_status (bytearray l).
Proof. intros w. unfold bytearray. by destruct (forallb is_byte l). Qed.

Lemma closes_f_close : closes f_close.
Proof. intros w Hw. reflexivity. Qed.

#[local] Hint Resolve disk_blind_f_read disk_blind_get_voxel_data
  disk_blind_set_voxel_data disk_blind_f_close disk_blind_index
  keeps_status_f_read keeps_status_f_write keeps_status_get_voxel_data
  keeps_status_set_voxel_data keeps_status_index keeps_status_bytearray
  closes_f_close : frame.

(** Take a computation apart along its binds and branches. *)
Ltac frame :=
  repeat first
    [ apply disk_blind_bind; [|intros ?]
    | apply keeps_status_bind; [|intros ?]
    | apply closes_bind; [|intros ?]
    | match goal with
      | |- _ (if ?b then _ else _) => destruct b
      | |- _ (match ?o with Some _ => _ | None => _ end) => destruct o
      end
    | solve [auto with frame] ].

Lemma disk_blind_uint32_read : disk_blind uint32_read.
Proof. unfold uint32_read. frame. Qed.

Lemma keeps_status_uint32_read : keeps_status uint32_read.
Proof. unfold uint32_read. frame. Qed.

Lemma keeps_status_uint32_write v : keeps_status (uint32_write v).
Proof. unfold uint32_write. frame. Qed.

Lemma keeps_status_string_write s : keeps_status (string_write s).
Proof. unfold string_write. frame. Qed.

#[local] Hint Resolve disk_blind_uint32_read keeps_status_uint32_read
  keeps_status_uint32_write keeps_status_string_write : frame.

Lemma disk_blind_for_each {A} (l : list A) (body : A -> M unit) :
  (forall a, disk_blind (body a)) -> disk_blind (for_each l body).
Proof. intros Hbody. induction l; cbn [for_each]; frame. Qed.

Lemma keeps_status_for_each {A} (l : list A) (body : A -> M unit) :
  (forall a, keeps_status (body a)) -> keeps_status (for_each l body).
Proof. intros Hbody. induction l; cbn [for_each]; frame. Qed.

Lemma disk_blind_read_palette l pal : disk_blind (read_palette l pal).
Proof.
  revert pal. induction l; intros pal; cbn [read_palette]; [frame|].
  apply disk_blind_bind; [unfold read_palette_entry; frame|auto].
Qed.

Lemma keeps_status_read_palette l pal : keeps_status (read_palette l pal).
Proof.
  revert pal. induction l; intros pal; cbn [read_palette]; [frame|].
  apply keeps_status_bind; [unfold read_palette_entry; frame|auto].
Qed.

Lemma disk_blind_read_voxel pal i : disk_blind (read_voxel pal i).
Proof. unfold read_voxel. frame. Qed.

Lemma keeps_status_read_voxel pal i : keeps_status (read_voxel pal i).
Proof. unfold read_voxel. frame. Qed.

#[local] Hint Resolve disk_blind_read_palette keeps_status_read_palette
  disk_blind_read_voxel keeps_status_read_voxel : frame.

Lemma disk_blind_load_chunk pal : disk_blind (load_chunk pal).
Proof.
  unfold load_chunk. frame.
  all: apply disk_blind_for_each; auto with frame.
Qed.

Lemma keeps_status_load_chunk pal : keeps_status (load_chunk pal).
Proof.
  unfold load_chunk. frame.
  all: apply keeps_status_for_each; auto with frame.
Qed.

Lemma disk_blind_load_chunks fuel pal left : disk_blind (load_chunks fuel pal left).
Proof.
  revert pal left. induction fuel as [|fuel IH]; intros pal left; cbn [load_chunks].
  - frame.
  - destruct (left =? 0); [frame|].
    apply disk_blind_bind; [apply disk_blind_load_chunk|].
    intros [[p c] ch]. apply IH.
Qed.

Lemma keeps_status_load_chunks fuel pal left : keeps_status (load_chunks fuel pal left).
Proof.
  revert pal left. induction fuel as [|fuel IH]; intros pal left; cbn [load_chunks].
  - frame.
  - destruct (left =? 0); [frame|].
    apply keeps_status_bind; [apply keeps_status_load_chunk|].
    intros [[p c] ch]. apply IH.
Qed.

Lemma keeps_status_write_palette_entry pal i : keeps_status (write_palette_entry pal i).
Proof. unfold write_palette_entry. frame. Qed.

Lemma keeps_status_write_voxel g pm x y z : keeps_status (write_voxel g pm x y z).
Proof. unfold write_voxel. frame. Qed.

#[local] Hint Resolve keeps_status_write_palette_entry keeps_status_write_voxel
  keeps_status_load_chunks disk_blind_load_chunks : frame.

Lemma closes_body_of_load fuel :
  closes (magic <- f_read 4 ;;
          version <- uint32_read ;;
          if negb (bool_decide (magic = bytes_of_string "VOX ")) then raise NotMagicaVoxel
          else
            cid <- f_read 4 ;;
            content_size <- uint32_read ;;
            child_size <- uint32_read ;;
            _ <- load_chunks fuel ∅ (content_size + child_size) ;;
            f_close).
Proof. frame. Qed.

Lemma load_status fuel w :
  f_status (load fuel w).2
  = match (load fuel w).1 with Return _ => Closed | _ => Opened end.
Proof.
  unfold load. unfold bind at 1. cbn [open_rb].
  apply closes_body_of_load. reflexivity.
Qed.

Lemma save_status w :
  idx (count_and_palette (voxels w)) < 256 ->
  f_status (save w).2
  = match (save w).1 with Return _ => Closed | _ => Opened end.
Proof.
  intros Hidx. unfold save.
  rewrite (bind_Return get_voxel_data _ w (voxels w) w) by reflexivity.
  destruct (Z.leb_spec 256 (idx (count_and_palette (voxels w)))); [lia|].
  unfold bind at 1. cbn [open_wb].
  match goal with
  | |- f_status (?m ?w).2 = _ => cut (closes m); [intros Hm; by apply Hm|]
  end.
  frame; repeat (apply keeps_status_for_each; intros ?); auto with frame.
Qed.

(** Past the SIZE chunk, a walk that first meets an unrecognised chunk with
    no children goes on as the walk without that chunk does. *)
Lemma load_chunks_skip fuel pal left tag payload rest dk st g :
  length tag = 4%nat ->
  tag ≠ bytes_of_string "SIZE" -> tag ≠ bytes_of_string "RGBA" ->
  tag ≠ bytes_of_string "XYZI" ->
  Z.of_nat (length payload) < 2 ^ 32 ->
  left + 16 + Z.of_nat (length payload) ≠ 0 ->
  load_chunks (S fuel) pal (left + 16 + Z.of_nat (length payload))
    (World dk st (chunk tag (Z.of_nat (length payload)) 0 payload ++ rest) g)
  = load_chunks fuel pal left (World dk st rest g).
Proof.
  intros Hlen H1 H2 H3 Hpay Hleft. rewrite load_chunks_step by done.
  unfold chunk. repeat rewrite <- app_assoc.
  erewrite bind_Return by (by apply load_chunk_unknown).
  cbn [fst snd]. rewrite !Z.mod_small by lia.
  replace (Z.to_nat (Z.of_nat (length payload) + 0)) with (length payload) by lia.
  rewrite drop_app_length. f_equal. lia.
Qed.

(** ** The round trip, where it holds *)

Lemma testbit_mask_ffffff00 n :
  0 <= n -> Z.testbit 0xffffff00 n = (8 <=? n) && (n <? 32).
Proof.
  intros Hn. change 0xffffff00 with (Z.shiftl (Z.ones 24) 8).
  rewrite Z.shiftl_spec by lia.
  destruct (Z.leb_spec 8 n).
  - rewrite Z.testbit_ones_nonneg by lia. cbn [andb].
    destruct (Z.ltb_spec (n - 8) 24), (Z.ltb_spec n 32); reflexivity || lia.
  - by rewrite Z.testbit_neg_r by lia.
Qed.

(** The entry [save] writes for a colour reads back as that colour with
    the reserved byte replaced by 0xff. *)
Lemma pack_rgba_palette_entry pal i c :
  pal !! i = Some c ->
  pack_rgba (palette_entry pal i) = Z.lor (Z.land c 0xffffff00) 0xff.
Proof.
  intros Hi. unfold palette_entry. rewrite Hi.
  rewrite (byte_of_mask c 8), (byte_of_mask c 16), (byte_of_mask c 24)
    by (lia || reflexivity).
  unfold pack_rgba. cbn [lookup_total list_lookup_total].
  apply Z.bits_inj'. intros n Hn.
  rewrite !Z.lor_spec, !Z.shiftl_spec, (Z.land_spec c 0xffffff00),
    testbit_mask_ffffff00 by lia.
  change 0xff with (Z.ones 8). rewrite Z.testbit_ones_nonneg by lia.
  destruct (Z.ltb_spec n 8); [| destruct (Z.ltb_spec n 16);
    [| destruct (Z.ltb_spec n 24); [| destruct (Z.ltb_spec n 32)]]].
  all: repeat match goal with
    | |- context [Z.testbit ?a (?i - ?k)] =>
        first [ rewrite (Z.testbit_neg_r a (i - k)) by lia
              | rewrite (testbit_byte _ _ (i - k)) by lia ]
    end.
  all: repeat match goal with
    | |- context [?a <? ?b] => destruct (Z.ltb_spec a b); try lia
    | |- context [?a <=? ?b] => destruct (Z.leb_spec a b); try lia
    end.
  all: cbn [andb orb]; rewrite ?orb_false_r, ?andb_true_r, ?andb_false_r; try reflexivity.
  all: f_equal; lia.
Qed.

Lemma loaded_palette_lookup entry l pal i :
  loaded_palette entry l pal !! i
  = if decide (i ∈ l) then Some (pack_rgba (entry i)) else pal !! i.
Proof.
  unfold loaded_palette. revert pal. induction l as [|a l IH]; intros pal.
  - cbn [foldl]. rewrite decide_False; [done|]. apply not_elem_of_nil.
  - cbn [foldl]. rewrite IH. destruct (decide (i ∈ l)) as [Hin|Hnin].
    + rewrite decide_True; [done|]. by right.
    + destruct (decide (i = a)) as [->|Hne].
      * rewrite lookup_insert_eq, decide_True; [done|]. by left.
      * rewrite lookup_insert_ne by done. rewrite decide_False; [done|].
        rewrite elem_of_cons. tauto.
Qed.

Lemma masked_color_range vox :
  Z.land vox 0xffffff00 ≠ 0 -> 256 <= Z.land vox 0xffffff00.
Proof.
  intros Hne.
  assert (0 <= Z.land vox 0xffffff00) by (apply Z.land_nonneg; lia).
  assert (Z.land vox 0xffffff00 mod 2 ^ 8 = 0) as Hmod.
  { rewrite <- Z.land_ones, <- Z.land_assoc by lia.
    change (Z.land 0xffffff00 (Z.ones 8)) with 0. apply Z.land_0_r. }
  pose proof (Z.div_mod (Z.land vox 0xffffff00) (2 ^ 8) ltac:(lia)). lia.
Qed.

Lemma count_voxel_fresh vox s :
  palette_consistent s -> idx s < 256 -> vox ≠ 0 -> Z.land vox 0xffffff00 ≠ 0 ->
  count_voxel vox s
  = Locals (voxel_count s + 1)
           (<[Z.land vox 0xffffff00 := idx s]> (paletteMap s))
           (<[idx s := Z.land vox 0xffffff00]> (palette s))
           (idx s + 1).
Proof.
  intros (_ & _ & Hkeys & _) Hidx Hvox Hcolor. unfold count_voxel.
  apply Z.eqb_neq in Hvox. rewrite Hvox.
  destruct (palette s !! Z.land vox 0xffffff00) as [c|] eqn:Hc; [|reflexivity].
  apply Hkeys in Hc. apply masked_color_range in Hcolor. lia.
Qed.

Lemma count_voxel_consistent vox s :
  palette_consistent s -> idx s < 256 -> vox ≠ 0 -> Z.land vox 0xffffff00 ≠ 0 ->
  palette_consistent (count_voxel vox s).
Proof.
  intros Hs Hidx Hvox Hcolor. rewrite count_voxel_fresh by done.
  destruct Hs as (Hcount & H0 & Hkeys & Hmap). split_and!; cbn.
  - lia.
  - lia.
  - intros k c. destruct (decide (k = idx s)) as [->|Hne].
    + intros _. lia.
    + rewrite lookup_insert_ne by done. intros H%Hkeys. lia.
  - intros c i. destruct (decide (c = Z.land vox 0xffffff00)) as [->|Hne].
    + rewrite lookup_insert_eq. intros [= <-]. by rewrite lookup_insert_eq.
    + rewrite lookup_insert_ne by done. intros Hi.
      pose proof (Hmap _ _ Hi) as Hp. pose proof (Hkeys _ _ Hp).
      rewrite lookup_insert_ne by lia. done.
Qed.

Lemma count_loop_consistent g l s :
  palette_consistent s ->
  voxel_count s + Z.of_nat (length (filter (nonempty g) l)) < 256 ->
  (forall p, p ∈ l -> nonempty g p -> Z.land (get_at g p) 0xffffff00 ≠ 0) ->
  let s' := foldl (fun s p => count_voxel (get_at g p) s) s l in
  palette_consistent s' /\
  (forall c, is_Some (paletteMap s !! c) -> is_Some (paletteMap s' !! c)) /\
  (forall p, p ∈ l -> nonempty g p ->
             is_Some (paletteMap s' !! Z.land (get_at g p) 0xffffff00)).
Proof.
  revert s. induction l as [|p l IH]; intros s Hs Hcount Hcolor; cbn [foldl].
  - split_and!; [done..|]. intros p Hp. by apply elem_of_nil in Hp.
  - rewrite filter_cons in Hcount.
    destruct (decide (nonempty g p)) as [Hne|He].
    + cbn [length] in Hcount.
      assert (idx s < 256) by (destruct Hs as (-> & _); lia).
      assert (Z.land (get_at g p) 0xffffff00 ≠ 0) as Hc by (apply Hcolor; [left|done]).
      pose proof (count_voxel_consistent _ s Hs ltac:(done) Hne Hc) as Hs1.
      pose proof (count_voxel_fresh _ s Hs ltac:(done) Hne Hc) as Heq.
      destruct (IH (count_voxel (get_at g p) s)) as (Hs' & Hkeep & Hcover).
      * done.
      * rewrite Heq. cbn [voxel_count]. lia.
      * intros q Hq. apply Hcolor. by right.
      * split_and!; [done| |].
        -- intros c Hsome. apply Hkeep. rewrite Heq. cbn [paletteMap].
           destruct (decide (c = Z.land (get_at g p) 0xffffff00)) as [->|Hnc].
           ++ rewrite lookup_insert_eq. eauto.
           ++ by rewrite lookup_insert_ne.
        -- intros q [->|Hq]%elem_of_cons Hnq; [|by apply Hcover].
           apply Hkeep. rewrite Heq. cbn [paletteMap]. rewrite lookup_insert_eq. eauto.
    + unfold nonempty in He. apply dec_stable in He. rewrite He.
      change (count_voxel 0 s) with s.
      destruct (IH s) as (Hs' & Hkeep & Hcover); [done..| |].
      * intros q Hq. apply Hcolor. by right.
      * split_and!; [done..|].
        intros q [->|Hq]%elem_of_cons Hnq; [|by apply Hcover].
        unfold nonempty in Hnq. congruence.
Qed.

Lemma is_valid_bounds_set g x y z c x' y' z' :
  VoxelData.is_valid_bounds (VoxelData.set g x y z c) x' y' z'
  = VoxelData.is_valid_bounds g x' y' z'.
Proof. unfold VoxelData.set. by destruct (VoxelData.is_valid_bounds g x y z). Qed.

Lemma set_dimensions g x y z c :
  VoxelData.width (VoxelData.set g x y z c) = VoxelData.width g /\
  VoxelData.height (VoxelData.set g x y z c) = VoxelData.height g /\
  VoxelData.depth (VoxelData.set g x y z c) = VoxelData.depth g.
Proof. unfold VoxelData.set. by destruct (VoxelData.is_valid_bounds g x y z). Qed.

(** Setting the cells [swap_yz p] for the positions [p] of a list. *)
Lemma get_foldl_set (col : Z * Z * Z -> Z) ps G x y z :
  (forall p, p ∈ ps -> VoxelData.is_valid_bounds G p.1.1 p.2 p.1.2 = true) ->
  VoxelData.get (foldl (fun G p => VoxelData.set G p.1.1 p.2 p.1.2 (col p)) G ps) x y z
  = if decide ((x, z, y) ∈ ps) then col (x, z, y) else VoxelData.get G x y z.
Proof.
  revert G. induction ps as [|a ps IH]; intros G Hvalid; cbn [foldl].
  - rewrite decide_False; [done|]. apply not_elem_of_nil.
  - rewrite IH.
    2:{ intros p Hp. rewrite is_valid_bounds_set. apply Hvalid. by right. }
    rewrite get_set, Hvalid by left.
    destruct (decide ((x, z, y) ∈ ps)) as [Hin|Hnin].
    + rewrite decide_True; [done|]. by right.
    + destruct a as [[ax ay] az]. cbn [fst snd].
      destruct (decide ((x, y, z) = (ax, az, ay))) as [Heq|Hne].
      * simplify_eq. rewrite decide_True; [done|]. by left.
      * rewrite decide_False; [done|]. rewrite elem_of_cons. intros [Heq|?]; [|done].
        simplify_eq.
Qed.

Lemma foldl_set_dimensions (col : Z * Z * Z -> Z) ps G :
  let G' := foldl (fun G p => VoxelData.set G p.1.1 p.2 p.1.2 (col p)) G ps in
  VoxelData.width G' = VoxelData.width G /\ VoxelData.height G' = VoxelData.height G /\
  VoxelData.depth G' = VoxelData.depth G.
Proof.
  revert G. induction ps as [|a ps IH]; intros G; cbn [foldl]; [done|].
  destruct (IH (VoxelData.set G a.1.1 a.2 a.1.2 (col a))) as (-> & -> & ->).
  apply set_dimensions.
Qed.

Lemma loaded_grid_fold g :
  loaded_grid g
  = foldl (fun G p =>
             VoxelData.set G p.1.1 p.2 p.1.2
               (resolve (loaded_palette (palette_entry (palette (count_and_palette g)))
                                        (xrange 256) ∅)
                        (palette_index (paletteMap (count_and_palette g))
                                       (get_at g (swap_yz p)))))
          (empty_grid (VoxelData.width g) (VoxelData.height g) (VoxelData.depth g))
          (written g).
Proof. unfold loaded_grid, written_records. rewrite foldl_fmap. reflexivity. Qed.

Lemma loaded_grid_dimensions g :
  VoxelData.width (loaded_grid g) = VoxelData.width g /\
  VoxelData.height (loaded_grid g) = VoxelData.height g /\
  VoxelData.depth (loaded_grid g) = VoxelData.depth g.
Proof.
  rewrite loaded_grid_fold.
  apply (foldl_set_dimensions _ (written g)
           (empty_grid (VoxelData.width g) (VoxelData.height g) (VoxelData.depth g))).
Qed.

(** The cells of the grid [load] builds from the file of [g], when the
    record loop reaches every non-empty cell and every cell has a palette
    slot of its own. *)
Lemma loaded_grid_cells g :
  (forall x y z, VoxelData.get g x y z ≠ 0 ->
                 y < VoxelData.depth g /\ z < VoxelData.height g) ->
  nonempty_cells g < 256 ->
  (forall x y z, VoxelData.get g x y z ≠ 0 ->
                 Z.land (VoxelData.get g x y z) 0xffffff00 ≠ 0) ->
  forall x y z,
    VoxelData.get (loaded_grid g) x y z
    = if VoxelData.get g x y z =? 0 then 0
      else Z.lor (Z.land (VoxelData.get g x y z) 0xffffff00) 0xff.
Proof.
  intros Hswap Hcells Hcolor.
  destruct (count_loop_consistent g (traversal g) (Locals 0 ∅ ∅ 0))
    as (Hs & _ & Hcover).
  { split_and!; cbn; [done|lia|intros k c|intros c i]; by rewrite lookup_empty. }
  { cbn [voxel_count]. fold (nonempty_cells g). lia. }
  { intros [[x y] z] _ Hne. by apply Hcolor. }
  rewrite <- count_and_palette_traversal in Hs, Hcover.
  destruct Hs as (Hidx & _ & Hkeys & Hmap).
  rewrite voxel_count_nonempty_cells in Hidx.
  intros x y z. rewrite loaded_grid_fold, get_foldl_set, get_empty_grid.
  2:{ intros [[px py] pz] Hp. apply elem_of_written in Hp as (Hne & _).
      apply get_nonzero_in_bounds in Hne. cbn [fst snd].
      apply is_valid_bounds_true; cbn; lia. }
  destruct (Z.eqb_spec (VoxelData.get g x y z) 0) as [He|Hne].
  + rewrite decide_False; [done|]. rewrite elem_of_written. tauto.
  + rewrite decide_True.
    2:{ apply elem_of_written. destruct (Hswap _ _ _ Hne). done. }
    unfold swap_yz, get_at. cbn [fst snd].
    destruct (Hcover (x, y, z)) as [i Hi].
    { apply elem_of_traversal. by apply get_nonzero_in_bounds. }
    { done. }
    unfold get_at in Hi. cbn [fst snd] in Hi.
    unfold palette_index. rewrite Hi.
    pose proof (Hmap _ _ Hi) as Hp. pose proof (Hkeys _ _ Hp) as Hrange.
    unfold resolve. rewrite loaded_palette_lookup.
    rewrite decide_True by (apply elem_of_seqZ; lia).
    rewrite (pack_rgba_palette_entry _ _ _ Hp).
    by rewrite <- Z.land_assoc, Z.land_diag.
Qed.

(** X17 (the round trip, where it holds).  For a grid inside the limits of
    the format in which the record loop
    reaches every non-empty cell, with fewer than 256 non-empty cells, none
    of them of a colour that is zero above its reserved byte, [load] after
    [save] gives a grid of the same dimensions with the same non-empty
    cells, each with its colour's reserved byte replaced by 0xff. *)
Theorem round_trip (g g0 : VoxelData) :
  0 <= VoxelData.width g <= 127 -> 0 <= VoxelData.height g <= 127 ->
  0 <= VoxelData.depth g <= 127 ->
  (forall x y z, VoxelData.get g x y z ≠ 0 ->
                 y < VoxelData.depth g /\ z < VoxelData.height g) ->
  nonempty_cells g < 256 ->
  (forall x y z, VoxelData.get g x y z ≠ 0 ->
                 Z.land (VoxelData.get g x y z) 0xffffff00 ≠ 0) ->
  exists loaded,
    save (start g) = (Return tt, World (saved_file g) Closed [] g) /\
    load 4 (with_file (saved_file g) g0)
    = (Return tt, World (saved_file g) Closed [] loaded) /\
    VoxelData.width loaded = VoxelData.width g /\
    VoxelData.height loaded = VoxelData.height g /\
    VoxelData.depth loaded = VoxelData.depth g /\
    forall x y z,
      VoxelData.get loaded x y z
      = if VoxelData.get g x y z =? 0 then 0
        else Z.lor (Z.land (VoxelData.get g x y z) 0xffffff00) 0xff.
Proof.
  intros Hw Hh Hd Hswap Hcells Hcolor.
  destruct (count_loop_consistent g (traversal g) (Locals 0 ∅ ∅ 0))
    as (Hs & _ & Hcover).
  { split_and!; cbn; [done|lia|intros k c|intros c i]; by rewrite lookup_empty. }
  { cbn [voxel_count]. fold (nonempty_cells g). lia. }
  { intros [[x y] z] _ Hne. by apply Hcolor. }
  rewrite <- count_and_palette_traversal in Hs, Hcover.
  destruct Hs as (Hidx & _ & Hkeys & Hmap).
  rewrite voxel_count_nonempty_cells in Hidx.
  exists (loaded_grid g). split_and!.
  - apply (save_spec (start g)); cbn [voxels start]; lia.
  - apply load_saved_file; [done..|]. by apply written_count.
  - apply loaded_grid_dimensions.
  - apply loaded_grid_dimensions.
  - apply loaded_grid_dimensions.
  - by apply loaded_grid_cells.
Qed.

(** The round trip of the 10x10x10 grid with one voxel at (3, 5, 9). *)
Lemma round_trip_example :
  exists loaded,
    save (start grid_3_5_9) = (Return tt, World (saved_file grid_3_5_9) Closed [] grid_3_5_9) /\
    load 4 (with_file (saved_file grid_3_5_9) (empty_grid 0 0 0))
    = (Return tt, World (saved_file grid_3_5_9) Closed [] loaded) /\
    VoxelData.width loaded = VoxelData.width grid_3_5_9 /\
    VoxelData.height loaded = VoxelData.height grid_3_5_9 /\
    VoxelData.depth loaded = VoxelData.depth grid_3_5_9 /\
    forall x y z,
      VoxelData.get loaded x y z
      = if VoxelData.get grid_3_5_9 x y z =? 0 then 0
        else Z.lor (Z.land (VoxelData.get grid_3_5_9 x y z) 0xffffff00) 0xff.
Proof.
  apply (round_trip grid_3_5_9 (empty_grid 0 0 0)).
  - split; vm_compute; discriminate.
  - split; vm_compute; discriminate.
  - split; vm_compute; discriminate.
  - intros x y z H. apply get_nonzero_in_bounds in H.
    change (VoxelData.depth grid_3_5_9) with 10 in *.
    change (VoxelData.height grid_3_5_9) with 10 in *. lia.
  - vm_compute. reflexivity.
  - intros x y z. unfold grid_3_5_9. rewrite get_set, !get_empty_grid.
    destruct (decide _); done.
Defined.

(** ** The claims *)

(** C1 (the round trip).  The claim: for every grid with at most 254
    distinct colours and every dimension at most 127, loading the file
    written by [save] gives back the non-empty cells.  It fails on the code
    in two ways.  In the grid one wide, two high and one deep with a single
    voxel at (0, 1, 0), the counting loop counts the voxel but the record
    loop, which reads the cell [(x, z, y)] within the bounds of [(x, y, z)],
    never reads it: the file declares one record and holds none, and [load]
    ends in an [IndexError].  In a 7x7x7 grid with all 343 cells of one
    colour, every cell is given a palette index of its own and [save] ends
    in the capacity error. *)
Theorem C1_round_trip_fails :
  (VoxelData.width grid_1x2x1 <= 127 /\ VoxelData.height grid_1x2x1 <= 127 /\
   VoxelData.depth grid_1x2x1 <= 127 /\ size (distinct_colors grid_1x2x1) = 1%nat /\
   exists file,
     save (start grid_1x2x1) = (Return tt, World file Closed [] grid_1x2x1) /\
     drop 1080 file = xyzi_chunk 1 [] /\
     forall fuel g0, (3 <= fuel)%nat ->
       load fuel (with_file file g0)
       = (Raise IndexError, World file Opened [] (empty_grid 1 2 1))) /\
  (size (distinct_colors cube7_one_color) = 1%nat /\
   save (start cube7_one_color) = (Raise (PaletteExceeded 343), start cube7_one_color)).
Proof.
  split.
  - split_and!; [done..| |].
    + vm_compute. reflexivity.
    + eexists. split_and!.
      * vm_compute. reflexivity.
      * vm_compute. reflexivity.
      * intros [|[|[|fuel]]] g0 Hfuel; try lia. vm_compute. reflexivity.
  - split; [vm_compute; reflexivity|].
    apply save_capacity_error_at; [vm_compute; reflexivity|lia].
Qed.

(** C2.  There is a grid within the limits of the format for which the
    voxel chunk does not hold as many 4-byte records as its count field
    says: the counting loop finds the voxel at (0, 1, 0), every cell
    [get(x, z, y)] the record loop reads is empty. *)
Theorem C2_record_count_differs_from_header :
  exists (g : VoxelData) (count : Z) (records : list Z),
    (0 <= VoxelData.width g <= 127 /\ 0 <= VoxelData.height g <= 127 /\
     0 <= VoxelData.depth g <= 127 /\ idx (count_and_palette g) <= 254) /\
    save (start g)
    = (Return tt,
       World (file_header (1104 + 4 * count) ++
              size_chunk (VoxelData.width g) (VoxelData.height g) (VoxelData.depth g) ++
              rgba_chunk (palette (count_and_palette g)) ++
              xyzi_chunk count records) Closed [] g) /\
    count = voxel_count (count_and_palette g) /\
    Z.of_nat (length records) ≠ 4 * count /\
    VoxelData.get g 0 1 0 ≠ 0 /\
    (forall x y z, 0 <= z < VoxelData.depth g -> 0 <= y < VoxelData.height g ->
                   0 <= x < VoxelData.width g -> VoxelData.get g x z y = 0).
Proof.
  exists grid_1x2x1, 1, []. split_and!; try (vm_compute; done).
  intros x y z Hz Hy Hx. change (VoxelData.depth grid_1x2x1) with 1 in Hz.
  change (VoxelData.height grid_1x2x1) with 2 in Hy.
  change (VoxelData.width grid_1x2x1) with 1 in Hx.
  assert (x = 0) as -> by lia. assert (z = 0) as -> by lia.
  assert (y = 0 \/ y = 1) as [-> | ->] by lia; reflexivity.
Qed.

(** C3, as stated, fails: on a file whose root chunk declares one byte, the
    loop never ends.  Every round finds the end of the file, takes 16 off
    [left], and [left] is never zero. *)
Lemma C3_walk_never_ends :
  main_header_fields file_root_length_1 = (0, 1) /\
  (forall fuel g0,
     load fuel (with_file file_root_length_1 g0)
     = (OutOfFuel, World file_root_length_1 Opened [] g0)).
Proof.
  split; [reflexivity|]. intros fuel g0.
  rewrite (load_header fuel 1 [] g0 file_root_length_1)
    by (unfold file_root_length_1; by rewrite app_nil_r).
  erewrite bind_OutOfFuel; [reflexivity|].
  by apply load_chunks_eof_forever.
Qed.

(** C3, amended.  For the file [save] writes for a grid with every
    dimension at most 127 whose non-empty cells [(x, y, z)] all have
    [y < depth] and [z < height], the loop of [load] ends: started with the
    content length plus the children length of the root chunk, 1104 + 4n, it
    reads the three chunks and an empty header at the end of the file, and
    is left with [left = 0] after four rounds.  The loop is never left with
    anything but zero. *)
Theorem C3_walk_of_a_saved_file_ends (g g0 : VoxelData) :
  idx (count_and_palette g) < 256 ->
  0 <= VoxelData.width g <= 127 -> 0 <= VoxelData.height g <= 127 ->
  0 <= VoxelData.depth g <= 127 ->
  (forall x y z, VoxelData.get g x y z ≠ 0 ->
                 y < VoxelData.depth g /\ z < VoxelData.height g) ->
  save (start g) = (Return tt, World (saved_file g) Closed [] g) /\
  main_header_fields (saved_file g) = (0, 1104 + 4 * nonempty_cells g) /\
  load_chunks 4 ∅ (0 + (1104 + 4 * nonempty_cells g))
              (World (saved_file g) Opened (saved_chunks g) g0)
  = (Return 0, World (saved_file g) Opened [] (loaded_grid g)) /\
  load 4 (with_file (saved_file g) g0)
  = (Return tt, World (saved_file g) Closed [] (loaded_grid g)) /\
  (forall fuel pal left w l w',
     load_chunks fuel pal left w = (Return l, w') -> l = 0).
Proof.
  intros Hidx Hw Hh Hd Hswap.
  pose proof (nonempty_cells_bound g ltac:(lia) ltac:(lia) ltac:(lia)) as Hn.
  pose proof (written_count g Hswap) as Hcount.
  split_and!.
  - apply (save_spec (start g)); cbn [voxels start]; lia.
  - rewrite saved_file_chunks, main_header_fields_file_header.
    by rewrite Z.mod_small by lia.
  - rewrite Z.add_0_l. by apply load_chunks_saved.
  - by apply load_saved_file.
  - apply load_chunks_exit.
Qed.

(** C3 at the 10x10x10 grid with one voxel at (3, 5, 9). *)
Lemma C3_walk_of_a_saved_file_ends_witness :
  save (start grid_3_5_9) = (Return tt, World (saved_file grid_3_5_9) Closed [] grid_3_5_9) /\
  main_header_fields (saved_file grid_3_5_9) = (0, 1104 + 4 * nonempty_cells grid_3_5_9) /\
  load_chunks 4 ∅ (0 + (1104 + 4 * nonempty_cells grid_3_5_9))
              (World (saved_file grid_3_5_9) Opened (saved_chunks grid_3_5_9) (empty_grid 0 0 0))
  = (Return 0, World (saved_file grid_3_5_9) Opened [] (loaded_grid grid_3_5_9)) /\
  load 4 (with_file (saved_file grid_3_5_9) (empty_grid 0 0 0))
  = (Return tt, World (saved_file grid_3_5_9) Closed [] (loaded_grid grid_3_5_9)) /\
  (forall fuel pal left w l w',
     load_chunks fuel pal left w = (Return l, w') -> l = 0).
Proof.
  apply (C3_walk_of_a_saved_file_ends grid_3_5_9 (empty_grid 0 0 0)).
  - vm_compute. reflexivity.
  - split; vm_compute; discriminate.
  - split; vm_compute; discriminate.
  - split; vm_compute; discriminate.
  - intros x y z H. apply get_nonzero_in_bounds in H.
    change (VoxelData.depth grid_3_5_9) with 10 in *.
    change (VoxelData.height grid_3_5_9) with 10 in *. lia.
Defined.

(** C4 (palette capacity boundary).  The claim: 255 distinct colours are
    saved, 256 are refused.  On the code a grid of 256 cells in 255 colours
    is refused with "256 uniq colors", and a grid of 256 colours whose black
    cell comes last is saved: the test [color in palette.keys()] compares
    the colour with the indices handed out, so every non-empty cell but a
    masked-black one gets a new index. *)
Theorem C4_capacity_counts_cells_not_colors :
  (size (distinct_colors cube7_255_colors_256_cells) = 255%nat /\
   save (start cube7_255_colors_256_cells)
   = (Raise (PaletteExceeded 256), start cube7_255_colors_256_cells)) /\
  (size (distinct_colors cube7_256_colors_black_last) = 256%nat /\
   (save (start cube7_256_colors_black_last)).1 = Return tt).
Proof.
  split_and!.
  - vm_compute. reflexivity.
  - apply save_capacity_error_at; [vm_compute; reflexivity|lia].
  - vm_compute. reflexivity.
  - vm_compute. reflexivity.
Qed.

(** C5, as stated, fails: a grid with exactly 255 distinct colours, one
    cell each, is saved. *)
Lemma C5_255_colors_are_saved :
  size (distinct_colors cube7_255_colors) = 255%nat /\
  idx (count_and_palette cube7_255_colors) = 255 /\
  save (start cube7_255_colors)
  = (Return tt, World (saved_file cube7_255_colors) Closed [] cube7_255_colors).
Proof.
  split_and!.
  - vm_compute. reflexivity.
  - vm_compute. reflexivity.
  - apply (save_spec (start cube7_255_colors)); vm_compute; first [reflexivity | discriminate].
Qed.

(** C5, amended.  [save] raises the capacity error whenever the counter
    [idx] of the counting loop ends at 256 or more, and it does so before
    the file is opened or anything is written: the world is unchanged. *)
Theorem C5_capacity_error_before_open (w : world) :
  256 <= idx (count_and_palette (voxels w)) ->
  save w = (Raise (PaletteExceeded (idx (count_and_palette (voxels w)))), w).
Proof. apply save_capacity_error. Qed.

(** C5 at the 7x7x7 grid with 343 cells of one colour. *)
Lemma C5_capacity_error_before_open_witness :
  save (start cube7_one_color)
  = (Raise (PaletteExceeded (idx (count_and_palette (voxels (start cube7_one_color))))),
     start cube7_one_color).
Proof.
  apply (C5_capacity_error_before_open (start cube7_one_color)).
  vm_compute. discriminate.
Defined.

(** C6, as stated, fails: for the empty 1x1x1 grid the children length of
    the root chunk is 1104, not 1088. *)
Lemma C6_children_length_of_empty_grid :
  nonempty_cells (empty_grid 1 1 1) = 0 /\
  main_header_fields (disk (save (start (empty_grid 1 1 1))).2) = (0, 1104) /\
  1104 ≠ 1088 + 4 * nonempty_cells (empty_grid 1 1 1).
Proof. split_and!; vm_compute; done. Qed.

(** C6, amended.  For a grid with [n] non-empty cells that [save] accepts,
    the root chunk header has content length 0 and children length
    16 + (16+12) + (16+1024) + (16+4+4n) = 1104 + 4n: [chunk_main] counts
    16 bytes for the root chunk itself on top of the three child chunks. *)
Theorem C6_main_chunk_lengths (g : VoxelData) :
  idx (count_and_palette g) < 256 ->
  VoxelData.width g <= 256 -> VoxelData.height g <= 256 -> VoxelData.depth g <= 256 ->
  exists chunks,
    save (start g)
    = (Return tt, World (file_header (1104 + 4 * nonempty_cells g) ++ chunks) Closed [] g) /\
    main_header_fields (file_header (1104 + 4 * nonempty_cells g) ++ chunks)
    = (0, 16 + ((16 + 12) + (16 + 1024) + (16 + 4 + 4 * nonempty_cells g))).
Proof.
  intros Hidx Hw Hh Hd. exists (saved_chunks g). split.
  - rewrite <- saved_file_chunks. by apply (save_spec (start g)).
  - rewrite main_header_fields_file_header.
    pose proof (nonempty_cells_bound_256 g Hw Hh Hd).
    rewrite Z.mod_small by lia. f_equal. lia.
Qed.

(** C6 at the 1x2x1 grid with one voxel. *)
Lemma C6_main_chunk_lengths_witness :
  exists chunks,
    save (start grid_1x2x1)
    = (Return tt, World (file_header (1104 + 4 * nonempty_cells grid_1x2x1) ++ chunks)
                        Closed [] grid_1x2x1) /\
    main_header_fields (file_header (1104 + 4 * nonempty_cells grid_1x2x1) ++ chunks)
    = (0, 16 + ((16 + 12) + (16 + 1024) + (16 + 4 + 4 * nonempty_cells grid_1x2x1))).
Proof.
  apply (C6_main_chunk_lengths grid_1x2x1); vm_compute; done.
Defined.

(** C7 (axis swap).  For a grid whose only non-empty cell is (3, 5, 9) with
    colour 0x10203000, high enough for the record loop to reach [y = 9] and
    within the limits of [load], [save] writes a file whose voxel chunk
    holds the single record (3, 9, 5) with palette index 0, and [load] of
    that file ends with a grid of the same dimensions whose only cell is
    (3, 5, 9), with the palette colour 0x102030ff. *)
Theorem C7_axis_swap (g g0 : VoxelData) :
  (forall x y z,
     VoxelData.get g x y z = if decide ((x, y, z) = (3, 5, 9)) then 0x10203000 else 0) ->
  VoxelData.width g <= 127 -> 9 < VoxelData.height g <= 127 ->
  VoxelData.depth g <= 127 ->
  let file :=
    file_header 1108 ++
    size_chunk (VoxelData.width g) (VoxelData.height g) (VoxelData.depth g) ++
    rgba_chunk {[0 := 0x10203000]} ++
    xyzi_chunk 1 [3; 9; 5; 0] in
  save (start g) = (Return tt, World file Closed [] g) /\
  load 4 (with_file file g0)
  = (Return tt,
     World file Closed []
       (VoxelData.Make (VoxelData.width g) (VoxelData.height g) (VoxelData.depth g)
                       {[(3, 5, 9) := 0x102030ff]})).
Proof.
  intros Hg Hw Hh Hd file.
  assert (0x10203000 ≠ 0) as Hc by done.
  destruct (single_voxel_bounds g 3 5 9 _ Hc Hg) as (Hx & Hy & Hz).
  assert (count_and_palette g = Locals 1 {[0x10203000 := 0]} {[0 := 0x10203000]} 1) as Hcp.
  { rewrite (single_voxel_count_and_palette g 3 5 9 _ Hc Hg). reflexivity. }
  assert (written g = [(3, 9, 5)]) as Hwr.
  { apply (single_voxel_written g 3 5 9 _ Hc Hg); lia. }
  assert (voxel_records g {[0x10203000 := 0]} = [3; 9; 5; 0]) as Hrec.
  { rewrite voxel_records_written. unfold written_records. rewrite Hwr.
    cbn [fmap list_fmap]. unfold record_of, get_at, swap_yz. cbn [fst snd].
    rewrite Hg, decide_True by done. reflexivity. }
  assert (saved_file g = file) as Hfile.
  { unfold saved_file. rewrite Hcp. cbn [voxel_count palette paletteMap].
    rewrite Hrec. reflexivity. }
  assert (loaded_grid g
          = VoxelData.Make (VoxelData.width g) (VoxelData.height g) (VoxelData.depth g)
                           {[(3, 5, 9) := 0x102030ff]}) as Hloaded.
  { unfold loaded_grid. rewrite Hcp. cbn [palette paletteMap].
    unfold written_records. rewrite Hwr. cbn [fmap list_fmap foldl].
    unfold record_of, get_at, swap_yz. cbn [fst snd].
    rewrite Hg, decide_True by done.
    unfold apply_record. cbn [fst snd].
    replace (resolve _ _) with 0x102030ff by (vm_compute; reflexivity).
    unfold VoxelData.set. rewrite is_valid_bounds_true by (cbn; lia).
    reflexivity. }
  rewrite <- Hfile, <- Hloaded. split.
  - apply (save_spec (start g)); cbn [voxels start]; try lia.
    rewrite Hcp. cbn [idx]. lia.
  - apply load_saved_file; try lia.
    unfold nonempty_cells.
    rewrite (single_voxel_nonempty g 3 5 9 _ Hc Hg), Hwr. reflexivity.
Qed.

(** C7 at the 10x10x10 grid with one voxel at (3, 5, 9). *)
Lemma C7_axis_swap_witness :
  let file :=
    file_header 1108 ++
    size_chunk (VoxelData.width grid_3_5_9) (VoxelData.height grid_3_5_9)
               (VoxelData.depth grid_3_5_9) ++
    rgba_chunk {[0 := 0x10203000]} ++
    xyzi_chunk 1 [3; 9; 5; 0] in
  save (start grid_3_5_9) = (Return tt, World file Closed [] grid_3_5_9) /\
  load 4 (with_file file (empty_grid 0 0 0))
  = (Return tt,
     World file Closed []
       (VoxelData.Make (VoxelData.width grid_3_5_9) (VoxelData.height grid_3_5_9)
                       (VoxelData.depth grid_3_5_9) {[(3, 5, 9) := 0x102030ff]})).
Proof.
  apply (C7_axis_swap grid_3_5_9 (empty_grid 0 0 0)).
  - intros x y z. unfold grid_3_5_9. rewrite get_set, !get_empty_grid.
    destruct (decide _); reflexivity.
  - vm_compute. discriminate.
  - split; [reflexivity | vm_compute; discriminate].
  - vm_compute. discriminate.
Defined.

(** C8 (unknown chunks).  On a chunk whose tag is none of SIZE, RGBA and
    XYZI, [load] reads the header, then reads content length + children
    length bytes and drops them; palette and grid stay as they are.  And a
    file with such a chunk, of children length 0, put in right after the
    SIZE chunk, with the children length of the root chunk (at least the 28
    the walk counts for the SIZE chunk) raised by the 16 + content length
    the walk counts for the new chunk, loads as the file without it: one
    more round, same outcome, same grid, same handle. *)
Theorem C8_unknown_chunk_is_skipped
    (tag payload rest : list Z) (content child children w h d : Z)
    (pal : gmap Z Z) (dk : list Z) (st : fstatus) (g g0 : VoxelData) (fuel : nat) :
  length tag = 4%nat ->
  tag ≠ bytes_of_string "SIZE" -> tag ≠ bytes_of_string "RGBA" ->
  tag ≠ bytes_of_string "XYZI" ->
  0 <= content < 2 ^ 32 -> 0 <= child < 2 ^ 32 ->
  28 <= children -> children + 16 + Z.of_nat (length payload) < 2 ^ 32 ->
  load_chunk pal (World dk st (chunk tag content child rest) g)
  = (Return (pal, content, child),
     World dk st (drop (Z.to_nat (content + child)) rest) g) /\
  let file := file_header children ++ size_chunk w h d ++ rest in
  let file' :=
    file_header (children + 16 + Z.of_nat (length payload)) ++ size_chunk w h d ++
    chunk tag (Z.of_nat (length payload)) 0 payload ++ rest in
  let r := load (S fuel) (with_file file g0) in
  let r' := load (S (S fuel)) (with_file file' g0) in
  r'.1 = r.1 /\ voxels r'.2 = voxels r.2 /\ f_status r'.2 = f_status r.2.
Proof.
  intros Hlen H1 H2 H3 Hcontent Hchild Hchildren Hroot. split.
  { unfold chunk. rewrite load_chunk_unknown by done.
    by rewrite !Z.mod_small by lia. }
  intros file file' r r'. subst r r'.
  set (R := fun r' r : outcome unit * world =>
              r'.1 = r.1 /\ voxels r'.2 = voxels r.2 /\ f_status r'.2 = f_status r.2).
  change (R (load (S (S fuel)) (with_file file' g0)) (load (S fuel) (with_file file g0))).
  rewrite (load_header (S fuel) children (size_chunk w h d ++ rest) g0 file eq_refl).
  rewrite (load_header (S (S fuel)) (children + 16 + Z.of_nat (length payload))
             (size_chunk w h d ++ chunk tag (Z.of_nat (length payload)) 0 payload ++ rest)
             g0 file' eq_refl).
  rewrite !Z.mod_small, !Z.add_0_l by lia.
  assert (forall fuel' left dk' tail,
    left ≠ 0 ->
    load_chunks (S fuel') ∅ left (World dk' Opened (size_chunk w h d ++ tail) g0)
    = if (127 <? w mod 2 ^ 32) || (127 <? h mod 2 ^ 32) || (127 <? d mod 2 ^ 32)
      then (Raise ModelTooLarge, World dk' Opened tail g0)
      else load_chunks fuel' ∅ (left - 28)
             (World dk' Opened tail
                (VoxelData.resize g0 (w mod 2 ^ 32) (h mod 2 ^ 32) (d mod 2 ^ 32))))
    as Hsize.
  { intros fuel' left dk' tail Hleft. rewrite load_chunks_step by done.
    unfold size_chunk. repeat rewrite <- app_assoc.
    unfold bind. rewrite load_chunk_size.
    destruct (_ || _); [reflexivity|]. cbn [fst snd].
    change (12 mod 2 ^ 32) with 12. change (0 mod 2 ^ 32) with 0.
    replace (left - 16 - 12 + 0) with (left - 28) by lia. reflexivity. }
  unfold bind at 1 2. rewrite !Hsize by lia.
  destruct (_ || _); [by unfold R; cbn [fst snd voxels f_status]|].
  replace (children + 16 + Z.of_nat (length payload) - 28)
    with (children - 28 + 16 + Z.of_nat (length payload)) by lia.
  rewrite load_chunks_skip by (done || lia).
  pose proof (disk_blind_load_chunks fuel ∅ (children - 28) file'
                (World file Opened rest
                   (VoxelData.resize g0 (w mod 2 ^ 32) (h mod 2 ^ 32) (d mod 2 ^ 32)))) as Hb.
  unfold set_disk in Hb at 1. cbn [f_status f_rest voxels] in Hb. rewrite Hb.
  clear Hb. clearbody file file'.
  destruct (load_chunks fuel ∅ (children - 28) _) as [[l| |] w1];
    unfold R; cbn; done.
Qed.

(** C8 at a NOTE chunk of three bytes put into the file of the 10x10x10
    grid with one voxel at (3, 5, 9). *)
Lemma C8_unknown_chunk_is_skipped_witness :
  load_chunk ∅ (World [] Opened (chunk note_tag 3 0 (drop 44 (saved_file grid_3_5_9)))
                      (empty_grid 0 0 0))
  = (Return (∅, 3, 0),
     World [] Opened (drop (Z.to_nat (3 + 0)) (drop 44 (saved_file grid_3_5_9)))
           (empty_grid 0 0 0)) /\
  let file := file_header 1108 ++ size_chunk 10 10 10 ++ drop 44 (saved_file grid_3_5_9) in
  let file' :=
    file_header (1108 + 16 + Z.of_nat (length [1; 2; 3])) ++ size_chunk 10 10 10 ++
    chunk note_tag (Z.of_nat (length [1; 2; 3])) 0 [1; 2; 3] ++
    drop 44 (saved_file grid_3_5_9) in
  let r := load 4 (with_file file (empty_grid 0 0 0)) in
  let r' := load 5 (with_file file' (empty_grid 0 0 0)) in
  r'.1 = r.1 /\ voxels r'.2 = voxels r.2 /\ f_status r'.2 = f_status r.2.
Proof.
  apply (C8_unknown_chunk_is_skipped note_tag [1; 2; 3] (drop 44 (saved_file grid_3_5_9))
           3 0 1108 10 10 10 ∅ [] Opened (empty_grid 0 0 0) (empty_grid 0 0 0) 3);
    first [reflexivity | discriminate | lia | (split; vm_compute; first [reflexivity | discriminate])].
Defined.

(** C9, as stated, fails: on a file whose SIZE chunk declares a width of
    128, [load] raises "Model to large" and the handle it opened is still
    open. *)
Lemma C9_handle_left_open_by_load :
  load 4 (with_file file_width_128 (empty_grid 0 0 0))
  = (Raise ModelTooLarge, World file_width_128 Opened [] (empty_grid 0 0 0)).
Proof. vm_compute. reflexivity. Qed.

(** C9, amended.  A call of [save] or [load] that returns has closed the
    handle it opened.  A call that does not return leaves it open, since
    neither method has a [try]/[finally]; the one exception is the capacity
    error of [save], which is raised before the file is opened and leaves
    the world as it was. *)
Theorem C9_handle_closed_on_return_only :
  (forall w,
     256 <= idx (count_and_palette (voxels w)) /\
     save w = (Raise (PaletteExceeded (idx (count_and_palette (voxels w)))), w)
     \/
     idx (count_and_palette (voxels w)) < 256 /\
     f_status (save w).2
     = match (save w).1 with Return _ => Closed | _ => Opened end) /\
  (forall fuel w,
     f_status (load fuel w).2
     = match (load fuel w).1 with Return _ => Closed | _ => Opened end).
Proof.
  split.
  - intros w. destruct (Z.le_gt_cases 256 (idx (count_and_palette (voxels w)))).
    + left. split; [done|]. by apply save_capacity_error.
    + right. split; [lia|]. apply save_status. lia.
  - apply load_status.
Qed.

(** C10, as stated, fails: a grid 128 wide, two high and one deep whose
    256 cells hold 256 distinct colours has more colours than the palette
    has room for, and is refused by [save] itself with the capacity error
    of line 80, nothing being written. *)
Lemma C10_wide_grid_is_refused :
  VoxelData.width grid_128x2x1_256_colors = 128 /\
  VoxelData.height grid_128x2x1_256_colors = 2 /\
  VoxelData.depth grid_128x2x1_256_colors = 1 /\
  size (distinct_colors grid_128x2x1_256_colors) = 256%nat /\
  save (start grid_128x2x1_256_colors)
  = (Raise (PaletteExceeded 256), start grid_128x2x1_256_colors).
Proof.
  split_and!; [reflexivity..| |].
  - vm_compute. reflexivity.
  - apply save_capacity_error_at; [vm_compute; reflexivity|lia].
Qed.

(** C10, amended.  [save] never looks at the limit of 127: for every grid
    with every dimension at most 255, one of them above 127, and a counting
    loop that ends with [idx] below 256, [save] returns, and [load] of the
    file it wrote raises "Model to large" in its first round, on the SIZE
    chunk, with the grid untouched. *)
Theorem C10_save_ignores_the_dimension_limit (g g0 : VoxelData) (fuel : nat) :
  VoxelData.width g <= 255 -> VoxelData.height g <= 255 -> VoxelData.depth g <= 255 ->
  127 < VoxelData.width g \/ 127 < VoxelData.height g \/ 127 < VoxelData.depth g ->
  idx (count_and_palette g) < 256 ->
  exists rest,
    save (start g) = (Return tt, World (saved_file g) Closed [] g) /\
    load_chunk ∅ (World (saved_file g) Opened (saved_chunks g) g0)
    = (Raise ModelTooLarge, World (saved_file g) Opened rest g0) /\
    load (S fuel) (with_file (saved_file g) g0)
    = (Raise ModelTooLarge, World (saved_file g) Opened rest g0).
Proof.
  intros Hw Hh Hd Hbig Hidx.
  pose proof (nonempty_cells_bound_256 g ltac:(lia) ltac:(lia) ltac:(lia)) as Hn.
  assert ((127 <? VoxelData.width g mod 2 ^ 32) || (127 <? VoxelData.height g mod 2 ^ 32)
          || (127 <? VoxelData.depth g mod 2 ^ 32) = true) as Hlarge.
  { rewrite !orb_true_iff, !Z.ltb_lt.
    destruct Hbig as [H|[H|H]]; [left; left|left; right|right];
      rewrite Z.mod_small; lia. }
  assert (forall dk,
    load_chunk ∅ (World dk Opened (saved_chunks g) g0)
    = (Raise ModelTooLarge,
       World dk Opened
         (rgba_chunk (palette (count_and_palette g)) ++
          xyzi_chunk (voxel_count (count_and_palette g))
                     (voxel_records g (paletteMap (count_and_palette g)))) g0)) as Hchunk.
  { intros dk. unfold saved_chunks, size_chunk. repeat rewrite <- app_assoc.
    rewrite load_chunk_size, Hlarge. reflexivity. }
  eexists. split_and!.
  - apply (save_spec (start g)); cbn [voxels start]; lia.
  - apply Hchunk.
  - rewrite (load_header (S fuel) _ _ g0 _ (saved_file_chunks g)).
    rewrite Z.mod_small, Z.add_0_l by lia.
    erewrite bind_Raise; [reflexivity|].
    rewrite load_chunks_step by lia.
    erewrite bind_Raise by apply Hchunk. reflexivity.
Qed.

(** C10 at a grid 128 wide with one voxel. *)
Lemma C10_save_ignores_the_dimension_limit_witness :
  exists rest,
    save (start grid_128x1x1) = (Return tt, World (saved_file grid_128x1x1) Closed [] grid_128x1x1) /\
    load_chunk ∅ (World (saved_file grid_128x1x1) Opened (saved_chunks grid_128x1x1) (empty_grid 0 0 0))
    = (Raise ModelTooLarge, World (saved_file grid_128x1x1) Opened rest (empty_grid 0 0 0)) /\
    load 1 (with_file (saved_file grid_128x1x1) (empty_grid 0 0 0))
    = (Raise ModelTooLarge, World (saved_file grid_128x1x1) Opened rest (empty_grid 0 0 0)).
Proof.
  apply (C10_save_ignores_the_dimension_limit grid_128x1x1 (empty_grid 0 0 0) 0).
  - vm_compute. discriminate.
  - vm_compute. discriminate.
  - vm_compute. discriminate.
  - left. vm_compute. reflexivity.
  - vm_compute. reflexivity.
Defined.

(** * Further properties *)

(** ** The 32-bit fields *)

Lemma testbit_is_byte b n : is_byte b = true -> 8 <= n -> Z.testbit b n = false.
Proof.
  unfold is_byte. intros Hb Hn.
  destruct (decide (b = 0)) as [->|Hne]; [apply Z.bits_0|].
  apply Z.bits_above_log2; [lia|].
  assert (Z.log2 b < 8); [|lia]. apply Z.log2_lt_pow2; lia.
Qed.

Lemma decode32_testbit b0 b1 b2 b3 n :
  0 <= n ->
  Z.testbit (decode32 [b0; b1; b2; b3]) n
  = Z.testbit b0 n || Z.testbit b1 (n - 8) || Z.testbit b2 (n - 16) || Z.testbit b3 (n - 24).
Proof.
  intros Hn. unfold decode32.
  rewrite !Z.lor_spec, !Z.shiftl_spec by lia. reflexivity.
Qed.

Lemma decode32_range b0 b1 b2 b3 :
  is_byte b0 = true -> is_byte b1 = true -> is_byte b2 = true -> is_byte b3 = true ->
  0 <= decode32 [b0; b1; b2; b3] < 2 ^ 32.
Proof.
  intros H0 H1 H2 H3.
  assert (0 <= decode32 [b0; b1; b2; b3]) as Hnn.
  { unfold decode32, is_byte in *. rewrite !Z.lor_nonneg, !Z.shiftl_nonneg. lia. }
  split; [done|].
  destruct (decide (decode32 [b0; b1; b2; b3] = 0)) as [->|Hne]; [done|].
  apply Z.log2_lt_pow2; [lia|].
  destruct (Z.lt_ge_cases (Z.log2 (decode32 [b0; b1; b2; b3])) 32) as [|Hge]; [done|].
  pose proof (Z.bit_log2 (decode32 [b0; b1; b2; b3]) ltac:(lia)) as Hbit.
  rewrite decode32_testbit in Hbit by lia.
  rewrite (testbit_is_byte b0), (testbit_is_byte b1), (testbit_is_byte b2),
    (testbit_is_byte b3) in Hbit by (done || lia). done.
Qed.

Lemma le32_decode32 b0 b1 b2 b3 :
  is_byte b0 = true -> is_byte b1 = true -> is_byte b2 = true -> is_byte b3 = true ->
  le32 (decode32 [b0; b1; b2; b3]) = [b0; b1; b2; b3].
Proof.
  intros H0 H1 H2 H3. rewrite le32_bytes.
  assert (forall k b, 0 <= k -> is_byte b = true ->
            (forall n, 0 <= n < 8 -> Z.testbit (decode32 [b0; b1; b2; b3]) (n + k) = Z.testbit b n) ->
            Z.land (Z.shiftr (decode32 [b0; b1; b2; b3]) k) (Z.ones 8) = b) as Hbyte.
  { intros k b Hk Hb Hbits. apply Z.bits_inj'. intros n Hn.
    rewrite testbit_byte by lia.
    destruct (Z.ltb_spec n 8) as [Hlt|Hge]; cbn [andb].
    - apply Hbits. lia.
    - symmetry. apply testbit_is_byte; [done|lia]. }
  f_equal; [|f_equal; [|f_equal; [|f_equal]]].
  - apply Hbyte; [lia|done|]. intros n Hn. rewrite decode32_testbit by lia.
    rewrite Z.add_0_r.
    rewrite (Z.testbit_neg_r b1), (Z.testbit_neg_r b2), (Z.testbit_neg_r b3) by lia.
    by rewrite !orb_false_r.
  - apply Hbyte; [lia|done|]. intros n Hn. rewrite decode32_testbit by lia.
    rewrite (testbit_is_byte b0) by (done || lia).
    rewrite (Z.testbit_neg_r b2), (Z.testbit_neg_r b3) by lia.
    replace (n + 8 - 8) with n by lia. by rewrite !orb_false_r.
  - apply Hbyte; [lia|done|]. intros n Hn. rewrite decode32_testbit by lia.
    rewrite (testbit_is_byte b0), (testbit_is_byte b1) by (done || lia).
    rewrite (Z.testbit_neg_r b3) by lia.
    replace (n + 16 - 16) with n by lia. by rewrite !orb_false_r.
  - apply Hbyte; [lia|done|]. intros n Hn. rewrite decode32_testbit by lia.
    rewrite (testbit_is_byte b0), (testbit_is_byte b1), (testbit_is_byte b2)
      by (done || lia).
    replace (n + 24 - 24) with n by lia. reflexivity.
Qed.

(** X1 ([uint32], write then read).  Writing any integer with
    [self.uint32(f, value)] never raises: it appends exactly four bytes, and
    reading these four bytes back with [self.uint32(f)] gives the value
    modulo 2^32.  A value in [0, 2^32) comes back unchanged; a larger or a
    negative one is stored truncated, without an error. *)
Theorem X1_uint32_write_then_read v w :
  exists data,
    uint32_write v w = (Return tt, append_disk data w) /\
    length data = 4%nat /\
    forall dk st rest g,
      uint32_read (World dk st (data ++ rest) g)
      = (Return (v mod 2 ^ 32), World dk st rest g).
Proof.
  exists (le32 v). split_and!.
  - rewrite <- (bind_unit_ret (uint32_write v)), run_uint32_write. reflexivity.
  - apply le32_length.
  - intros dk st rest g.
    unfold uint32_read. rewrite run_f_read_app by apply le32_length.
    by rewrite decode32_le32.
Qed.

(** X2 ([uint32], read then write).  Reading four bytes gives a number in
    [0, 2^32), and writing that number puts the same four bytes down
    again: the little-endian field loses nothing in either direction. *)
Theorem X2_uint32_read_then_write b0 b1 b2 b3 rest dk st g :
  is_byte b0 = true -> is_byte b1 = true -> is_byte b2 = true -> is_byte b3 = true ->
  exists v,
    uint32_read (World dk st ([b0; b1; b2; b3] ++ rest) g) = (Return v, World dk st rest g) /\
    0 <= v < 2 ^ 32 /\
    forall w, uint32_write v w = (Return tt, append_disk [b0; b1; b2; b3] w).
Proof.
  intros H0 H1 H2 H3. exists (decode32 [b0; b1; b2; b3]). split_and!.
  - reflexivity.
  - by apply decode32_range.
  - by apply decode32_range.
  - intros w. rewrite <- (bind_unit_ret (uint32_write _)), run_uint32_write.
    by rewrite le32_decode32.
Qed.

(** X2 at the bytes 50 04 00 00. *)
Lemma X2_uint32_read_then_write_witness :
  exists v,
    uint32_read (World [] Opened ([0x50; 0x04; 0; 0] ++ [7]) (empty_grid 1 1 1))
    = (Return v, World [] Opened [7] (empty_grid 1 1 1)) /\
    0 <= v < 2 ^ 32 /\
    forall w, uint32_write v w = (Return tt, append_disk [0x50; 0x04; 0; 0] w).
Proof.
  apply (X2_uint32_read_then_write 0x50 0x04 0 0 [7] [] Opened (empty_grid 1 1 1));
    reflexivity.
Defined.

(** X3 ([uint32] at the end of the file).  When fewer than four bytes are
    left, the read returns 0 instead of failing, and the bytes that were
    left are consumed. *)
Theorem X3_uint32_read_short tail dk st g :
  (length tail < 4)%nat ->
  uint32_read (World dk st tail g) = (Return 0, World dk st [] g).
Proof.
  intros Hlen. unfold uint32_read, bind, f_read, ret. cbn [f_rest disk f_status voxels].
  rewrite take_ge, drop_ge by (cbn; lia).
  do 4 (destruct tail as [|? tail]; [reflexivity|]). cbn in Hlen. lia.
Qed.

(** X3 at a tail of three bytes. *)
Lemma X3_uint32_read_short_witness :
  uint32_read (World [] Opened [1; 2; 3] (empty_grid 1 1 1))
  = (Return 0, World [] Opened [] (empty_grid 1 1 1)).
Proof. apply X3_uint32_read_short. cbn. lia. Defined.

(** ** What [load] does with the header and at the end of the file *)

(** X4 (the magic number).  A file that does not start with the four bytes
    "VOX " is refused with "Not an MagicaVoxel file", whatever its length
    (an empty file included).  The check comes after the version field has
    been read, so eight bytes are consumed; the grid is untouched, nothing
    is written, and the handle stays open. *)
Theorem X4_not_a_magicavoxel_file fuel file g :
  take 4 file ≠ bytes_of_string "VOX " ->
  load fuel (with_file file g)
  = (Raise NotMagicaVoxel, World file Opened (drop 8 file) g).
Proof.
  intros Hmagic. unfold load, with_file.
  rewrite (bind_Return open_rb _ _ tt (World file Opened file g)) by reflexivity.
  rewrite (bind_Return (f_read 4) _ _ (take 4 file) (World file Opened (drop 4 file) g))
    by reflexivity.
  rewrite (bind_Return uint32_read _ _ (decode32 (take 4 (drop 4 file)))
             (World file Opened (drop 8 file) g)).
  - by rewrite bool_decide_eq_false_2.
  - unfold uint32_read, bind, f_read, ret. cbn [f_rest disk f_status voxels].
    by rewrite drop_drop.
Qed.

(** X4 at a file that holds the four bytes "RIFF". *)
Lemma X4_not_a_magicavoxel_file_witness :
  load 0 (with_file (bytes_of_string "RIFF") (empty_grid 1 1 1))
  = (Raise NotMagicaVoxel,
     World (bytes_of_string "RIFF") Opened (drop 8 (bytes_of_string "RIFF")) (empty_grid 1 1 1)).
Proof. apply X4_not_a_magicavoxel_file. discriminate. Defined.

Lemma load_any_header fuel version tag content child rest g0 file :
  length version = 4%nat -> length tag = 4%nat ->
  file = bytes_of_string "VOX " ++ version ++ tag ++ le32 content ++ le32 child ++ rest ->
  load fuel (with_file file g0)
  = bind (load_chunks fuel ∅ (content mod 2 ^ 32 + child mod 2 ^ 32)) (fun _ => f_close)
         (World file Opened rest g0).
Proof.
  intros Hv Ht Hfile. unfold load, with_file.
  rewrite (bind_Return open_rb _ _ tt (World file Opened file g0)) by reflexivity.
  replace (World file Opened file g0)
    with (World file Opened
            (bytes_of_string "VOX " ++ version ++ tag ++ le32 content ++ le32 child ++ rest) g0)
    by congruence.
  rewrite run_f_read_app by reflexivity.
  unfold uint32_read at 1. rewrite bind_assoc, run_f_read_app by exact Hv.
  rewrite run_ret.
  rewrite (bool_decide_eq_true_2 _ eq_refl). cbn [negb].
  rewrite run_f_read_app by exact Ht.
  rewrite !run_uint32_read_le32.
  reflexivity.
Qed.

Lemma disk_blind_walk fuel left : disk_blind (_ <- load_chunks fuel ∅ left ;; f_close).
Proof.
  apply disk_blind_bind; [apply disk_blind_load_chunks|intros ?; apply disk_blind_f_close].
Qed.

(** X5 (fields [load] reads and never looks at).  The version number and
    the tag of the root chunk are read and dropped: a file with any four
    bytes in either place is loaded exactly as the file with version 150
    and the tag "MAIN". *)
Theorem X5_load_checks_neither_version_nor_root_tag
    fuel version tag content child rest g :
  length version = 4%nat -> length tag = 4%nat ->
  let file := bytes_of_string "VOX " ++ version ++ tag ++
              le32 content ++ le32 child ++ rest in
  let reference := bytes_of_string "VOX " ++ le32 150 ++ bytes_of_string "MAIN" ++
                   le32 content ++ le32 child ++ rest in
  (load fuel (with_file file g)).1 = (load fuel (with_file reference g)).1 /\
  voxels (load fuel (with_file file g)).2 = voxels (load fuel (with_file reference g)).2 /\
  f_status (load fuel (with_file file g)).2 = f_status (load fuel (with_file reference g)).2 /\
  f_rest (load fuel (with_file file g)).2 = f_rest (load fuel (with_file reference g)).2.
Proof.
  intros Hv Ht file reference.
  rewrite (load_any_header fuel version tag content child rest g file) by done.
  rewrite (load_any_header fuel (le32 150) (bytes_of_string "MAIN") content child rest g
             reference) by done.
  pose proof (disk_blind_walk fuel (content mod 2 ^ 32 + child mod 2 ^ 32) file
                (World reference Opened rest g)) as H.
  unfold set_disk in H at 1. cbn [f_status f_rest voxels] in H. rewrite H.
  destruct (bind _ _ (World reference Opened rest g)) as [o w']. done.
Qed.

(** X5 at a file with version 0 and the root tag "JUNK". *)
Lemma X5_load_checks_neither_version_nor_root_tag_witness :
  let file := bytes_of_string "VOX " ++ [0; 0; 0; 0] ++ bytes_of_string "JUNK" ++
              le32 0 ++ le32 16 ++ [] in
  let reference := bytes_of_string "VOX " ++ le32 150 ++ bytes_of_string "MAIN" ++
                   le32 0 ++ le32 16 ++ [] in
  (load 1 (with_file file (empty_grid 1 1 1))).1
  = (load 1 (with_file reference (empty_grid 1 1 1))).1 /\
  voxels (load 1 (with_file file (empty_grid 1 1 1))).2
  = voxels (load 1 (with_file reference (empty_grid 1 1 1))).2 /\
  f_status (load 1 (with_file file (empty_grid 1 1 1))).2
  = f_status (load 1 (with_file reference (empty_grid 1 1 1))).2 /\
  f_rest (load 1 (with_file file (empty_grid 1 1 1))).2
  = f_rest (load 1 (with_file reference (empty_grid 1 1 1))).2.
Proof.
  apply (X5_load_checks_neither_version_nor_root_tag 1 [0; 0; 0; 0]
           (bytes_of_string "JUNK") 0 16 [] (empty_grid 1 1 1)); reflexivity.
Defined.

Lemma load_chunks_eof_negative fuel pal left dk st g :
  left < 0 ->
  load_chunks fuel pal left (World dk st [] g) = (OutOfFuel, World dk st [] g).
Proof.
  revert left. induction fuel as [|fuel IH]; intros left Hleft.
  - cbn [load_chunks]. destruct (Z.eqb_spec left 0) as [->|]; [lia|reflexivity].
  - rewrite load_chunks_step by lia.
    erewrite bind_Return by apply load_chunk_eof. cbn [fst snd].
    apply IH. lia.
Qed.

Lemma load_chunks_eof_rounds (k fuel : nat) pal dk st g :
  load_chunks fuel pal (16 * Z.of_nat k) (World dk st [] g)
  = if decide (k <= fuel)%nat then (Return 0, World dk st [] g)
    else (OutOfFuel, World dk st [] g).
Proof.
  revert fuel. induction k as [|k IH]; intros fuel.
  - rewrite decide_True by lia. apply load_chunks_done.
  - destruct fuel as [|fuel].
    + rewrite decide_False by lia. cbn [load_chunks].
      destruct (Z.eqb_spec (16 * Z.of_nat (S k)) 0); [lia|reflexivity].
    + rewrite load_chunks_step by lia.
      erewrite bind_Return by apply load_chunk_eof. cbn [fst snd].
      replace (16 * Z.of_nat (S k) - 16 - 0 + 0) with (16 * Z.of_nat k) by lia.
      rewrite IH. destruct (decide (k <= fuel)%nat), (decide (S k <= S fuel)%nat);
        (reflexivity || lia).
Qed.

Lemma load_chunks_at_eof fuel pal left dk st g :
  load_chunks fuel pal left (World dk st [] g)
  = if decide (0 <= left /\ left mod 16 = 0 /\ left / 16 <= Z.of_nat fuel)
    then (Return 0, World dk st [] g)
    else (OutOfFuel, World dk st [] g).
Proof.
  destruct (decide (left < 0)) as [Hneg|Hpos].
  - rewrite decide_False by lia. by apply load_chunks_eof_negative.
  - destruct (decide (left mod 16 = 0)) as [Hmod|Hmod].
    + replace left with (16 * Z.of_nat (Z.to_nat (left / 16))) at 1.
      2:{ rewrite Z2Nat.id by (apply Z.div_pos; lia).
          pose proof (Z.div_mod left 16). lia. }
      rewrite load_chunks_eof_rounds.
      assert (0 <= left / 16) by (apply Z.div_pos; lia).
      destruct (decide (_ <= _)%nat), (decide (_ /\ _)); (reflexivity || lia).
    + rewrite decide_False by lia. by apply load_chunks_eof_forever.
Qed.

(** X6 (the walk at the end of the file).  Once the file is read to its
    end, each round of [while left:] finds an empty header and takes 16
    off the budget.  The loop then ends if and only if the budget is a
    non-negative multiple of 16, after exactly [left / 16] rounds; with
    any other budget it runs forever. *)
Theorem X6_walk_at_end_of_file pal left dk st g :
  (0 <= left /\ left mod 16 = 0 ->
     forall fuel,
       load_chunks fuel pal left (World dk st [] g)
       = if decide (left / 16 <= Z.of_nat fuel) then (Return 0, World dk st [] g)
         else (OutOfFuel, World dk st [] g)) /\
  (~ (0 <= left /\ left mod 16 = 0) ->
     forall fuel,
       load_chunks fuel pal left (World dk st [] g) = (OutOfFuel, World dk st [] g)).
Proof.
  split; intros H fuel; rewrite load_chunks_at_eof.
  - destruct (decide (_ /\ _)), (decide (_ <= _)); (reflexivity || lia).
  - rewrite decide_False; [reflexivity|]. intros (? & ? & _). auto.
Qed.

(** X7 (line 215, [left = left - content_size + child_size]).  The
    children length of a chunk is added to the budget, not taken off it.
    Take a file whose root chunk holds one unrecognised chunk with [child]
    bytes of children, the root children length being the 16 + content
    length + children length that [load] counts for a chunk.  After the
    chunk the budget is [2 * child] at the end of the file: [load] returns
    when [child] is a multiple of 8 (after [1 + child / 8] rounds) and never
    returns otherwise. *)
Theorem X7_children_length_is_added_to_the_budget fuel tag content child payload g0 :
  length tag = 4%nat ->
  tag ≠ bytes_of_string "SIZE" -> tag ≠ bytes_of_string "RGBA" ->
  tag ≠ bytes_of_string "XYZI" ->
  0 <= content -> 0 < child -> 16 + content + child < 2 ^ 32 ->
  Z.of_nat (length payload) = content + child ->
  let file := file_header (16 + content + child) ++ chunk tag content child payload in
  load fuel (with_file file g0)
  = if decide (child mod 8 = 0 /\ 1 + child / 8 <= Z.of_nat fuel)
    then (Return tt, World file Closed [] g0)
    else (OutOfFuel, World file Opened
            (if decide (fuel = 0%nat) then chunk tag content child payload else []) g0).
Proof.
  intros Hlen H1 H2 H3 Hc Hch Hsz Hpay file.
  rewrite (load_header fuel (16 + content + child) (chunk tag content child payload) g0 file)
    by reflexivity.
  rewrite Z.mod_small by lia. cbn [Z.add].
  destruct fuel as [|fuel].
  - rewrite decide_False.
    2:{ intros [Hm Hf]. assert (0 <= child / 8) by (apply Z.div_pos; lia). lia. }
    rewrite (decide_True (P := 0%nat = 0%nat)) by done. unfold bind. cbn [load_chunks].
    destruct (Z.eqb_spec (0 + (16 + content + child)) 0); [lia|reflexivity].
  - rewrite (decide_False (P := S fuel = 0%nat)) by done.
    unfold bind at 1. rewrite load_chunks_step by lia.
    unfold chunk. rewrite <- (app_nil_r payload).
    erewrite bind_Return by (by apply load_chunk_unknown).
    cbn [fst snd]. rewrite !Z.mod_small by lia.
    replace (Z.to_nat (content + child)) with (length payload) by lia.
    rewrite drop_app_length.
    replace (0 + (16 + content + child) - 16 - content + child) with (2 * child) by lia.
    rewrite load_chunks_at_eof.
    assert ((2 * child) mod 16 = 2 * (child mod 8)) as Hm.
    { change 16 with (2 * 8). rewrite Z.mul_mod_distr_l by lia. reflexivity. }
    assert ((2 * child) / 16 = child / 8) as Hd.
    { change 16 with (2 * 8). rewrite Z.div_mul_cancel_l by lia. reflexivity. }
    rewrite Hm, Hd.
    destruct (decide (0 <= 2 * child /\ _)) as [Ha|Ha],
             (decide (child mod 8 = 0 /\ _)) as [Hb|Hb]; try reflexivity; exfalso; lia.
Qed.

(** X7 at a NOTE chunk with eight bytes of children. *)
Lemma X7_children_length_is_added_to_the_budget_witness :
  let file := file_header (16 + 0 + 8) ++ chunk note_tag 0 8 [1; 2; 3; 4; 5; 6; 7; 8] in
  load 2 (with_file file (empty_grid 1 1 1))
  = if decide (8 mod 8 = 0 /\ 1 + 8 / 8 <= Z.of_nat 2)
    then (Return tt, World file Closed [] (empty_grid 1 1 1))
    else (OutOfFuel, World file Opened
            (if decide (2%nat = 0%nat) then chunk note_tag 0 8 [1; 2; 3; 4; 5; 6; 7; 8] else [])
            (empty_grid 1 1 1)).
Proof.
  apply (X7_children_length_is_added_to_the_budget 2 note_tag 0 8 [1; 2; 3; 4; 5; 6; 7; 8]
           (empty_grid 1 1 1)); (reflexivity || discriminate || lia).
Defined.

(** ** The chunks [load] knows *)

(** A read of four bytes that finds fewer leaves nothing to index. *)
Lemma read_palette_entry_short pal i tail dk st g :
  (length tail < 4)%nat ->
  read_palette_entry pal i (World dk st tail g) = (Raise IndexError, World dk st [] g).
Proof.
  intros Hlen. unfold read_palette_entry, bind, f_read, index.
  cbn [f_rest disk f_status voxels]. rewrite take_ge, drop_ge by lia.
  do 4 (destruct tail as [|? tail]; [reflexivity|]). cbn in Hlen. lia.
Qed.

Lemma read_voxel_short pal i tail dk st g :
  (length tail < 4)%nat ->
  read_voxel pal i (World dk st tail g) = (Raise IndexError, World dk st [] g).
Proof.
  intros Hlen. unfold read_voxel, bind, f_read, index.
  cbn [f_rest disk f_status voxels]. rewrite take_ge, drop_ge by lia.
  do 4 (destruct tail as [|? tail]; [reflexivity|]). cbn in Hlen. lia.
Qed.

Lemma read_palette_truncated l pal bs dk st g :
  (length bs < 4 * length l)%nat ->
  read_palette l pal (World dk st bs g) = (Raise IndexError, World dk st [] g).
Proof.
  revert pal bs. induction l as [|i l IH]; intros pal bs Hlen; [cbn in Hlen; lia|].
  cbn [read_palette].
  destruct (decide (length bs < 4)%nat) as [Hshort|Hlong].
  - erewrite bind_Raise by (by apply read_palette_entry_short). reflexivity.
  - destruct bs as [|b0 [|b1 [|b2 [|b3 bs]]]]; try (cbn in Hlong; lia).
    erewrite bind_Return by apply (read_palette_entry_spec pal i b0 b1 b2 b3 bs).
    apply IH. cbn [length] in Hlen. lia.
Qed.

Lemma read_records_truncated pal (rs : list (Z * Z * Z * Z)) (l : list Z) tail dk st g :
  (length rs < length l)%nat -> (length tail < 4)%nat ->
  for_each l (read_voxel pal) (World dk st ((rs ≫= record_bytes) ++ tail) g)
  = (Raise IndexError, World dk st [] (foldl (apply_record pal) g rs)).
Proof.
  revert l g. induction rs as [|[[[b0 b1] b2] b3] rs IH]; intros [|i l] g Hlen Htail;
    try (cbn in Hlen; lia).
  - cbn [for_each foldl]. change (([] ≫= record_bytes) ++ tail) with tail.
    erewrite bind_Raise by (by apply read_voxel_short). reflexivity.
  - cbn [for_each foldl]. rewrite bind_cons, <- app_assoc.
    erewrite bind_Return by apply read_voxel_spec.
    apply IH; [cbn in Hlen; lia|done].
Qed.

(** X8 (the palette chunk).  An RGBA chunk followed by 1024 bytes sets all
    256 entries of the palette, whatever the palette held before and
    whatever content length the chunk declares: afterwards every palette
    index a record can hold resolves to the colour of the chunk, the
    fallback colour is out of reach, and the grid is as before. *)
Theorem X8_palette_chunk_sets_every_slot pal content child (entry : Z -> list Z) rest dk st g :
  (forall i, length (entry i) = 4%nat) ->
  exists pal',
    load_chunk pal
      (World dk st (bytes_of_string "RGBA" ++ le32 content ++ le32 child ++
                    (xrange 256 ≫= entry) ++ rest) g)
    = (Return (pal', content mod 2 ^ 32, child mod 2 ^ 32), World dk st rest g) /\
    (forall i, 0 <= i < 256 -> resolve pal' i = pack_rgba (entry i)) /\
    (forall i, ~ 0 <= i < 256 -> pal' !! i = pal !! i).
Proof.
  intros Hlen. eexists. split; [by apply load_chunk_rgba|].
  split; intros i Hi; [unfold resolve|]; rewrite loaded_palette_lookup.
  - rewrite decide_True; [done|]. unfold xrange. apply elem_of_seqZ. lia.
  - rewrite decide_False; [done|]. unfold xrange. rewrite elem_of_seqZ. lia.
Qed.

(** X8 at a palette chunk whose entry [i] is the four bytes [i 0 0 255]. *)
Lemma X8_palette_chunk_sets_every_slot_witness :
  exists pal',
    load_chunk {[ 7 := 1; 300 := 2 ]}
      (World [] Opened (bytes_of_string "RGBA" ++ le32 1024 ++ le32 0 ++
                    (xrange 256 ≫= (fun i => [i; 0; 0; 255])) ++ [9]) (empty_grid 1 1 1))
    = (Return (pal', 1024 mod 2 ^ 32, 0 mod 2 ^ 32), World [] Opened [9] (empty_grid 1 1 1)) /\
    (forall i, 0 <= i < 256 -> resolve pal' i = pack_rgba ((fun i => [i; 0; 0; 255]) i)) /\
    (forall i, ~ 0 <= i < 256 -> pal' !! i = ({[ 7 := 1; 300 := 2 ]} : gmap Z Z) !! i).
Proof.
  apply (X8_palette_chunk_sets_every_slot {[ 7 := 1; 300 := 2 ]} 1024 0
           (fun i => [i; 0; 0; 255]) [9] [] Opened (empty_grid 1 1 1)).
  reflexivity.
Defined.

(** X11 (a palette chunk cut short).  When fewer than 1024 bytes follow
    the header of an RGBA chunk up to the end of the file, [load_chunk]
    ends in an [IndexError], with the grid untouched. *)
Theorem X11_truncated_palette_chunk pal content child payload dk st g :
  (length payload < 1024)%nat ->
  load_chunk pal
    (World dk st (bytes_of_string "RGBA" ++ le32 content ++ le32 child ++ payload) g)
  = (Raise IndexError, World dk st [] g).
Proof.
  intros Hlen. unfold load_chunk. rewrite run_f_read_app by reflexivity.
  rewrite !run_uint32_read_le32.
  rewrite (bool_decide_eq_false_2 (bytes_of_string "RGBA" = bytes_of_string "SIZE"))
    by discriminate.
  rewrite (bool_decide_eq_true_2 _ eq_refl).
  erewrite bind_Raise; [reflexivity|].
  apply read_palette_truncated. unfold xrange. rewrite length_seqZ. lia.
Qed.

(** X11 at a palette chunk of five bytes. *)
Lemma X11_truncated_palette_chunk_witness :
  load_chunk ∅
    (World [] Opened (bytes_of_string "RGBA" ++ le32 1024 ++ le32 0 ++ [1; 2; 3; 4; 5])
       (empty_grid 1 1 1))
  = (Raise IndexError, World [] Opened [] (empty_grid 1 1 1)).
Proof. apply X11_truncated_palette_chunk. cbn. lia. Defined.

Lemma get_out_of_bounds g x y z :
  VoxelData.is_valid_bounds g x y z = false -> VoxelData.get g x y z = 0.
Proof. unfold VoxelData.get. by intros ->. Qed.

Lemma get_foldl_apply_record_empty (rs : list (Z * Z * Z * Z)) G x y z :
  VoxelData.get (foldl (apply_record ∅) G rs) x y z
  = if decide ((x, z, y) ∈ rs.*1)
    then (if VoxelData.is_valid_bounds G x y z then 0xffffffff else 0)
    else VoxelData.get G x y z.
Proof.
  revert G. induction rs as [|[[[b0 b1] b2] b3] rs IH]; intros G; cbn [foldl].
  - rewrite decide_False; [done|]. cbn. apply not_elem_of_nil.
  - rewrite IH. unfold apply_record. cbn [fst snd]. unfold resolve.
    rewrite lookup_empty, is_valid_bounds_set, get_set.
    rewrite fmap_cons. cbn [fst].
    destruct (decide ((x, z, y) ∈ rs.*1)) as [Hin|Hnin].
    + rewrite decide_True; [done|]. by right.
    + destruct (decide ((x, y, z) = (b0, b2, b1))) as [Heq|Hne].
      * simplify_eq. rewrite decide_True by left.
        destruct (VoxelData.is_valid_bounds G b0 b2 b1) eqn:Hv; [done|].
        by apply get_out_of_bounds.
      * rewrite decide_False; [done|]. rewrite elem_of_cons. intros [Heq|?]; [|done].
        simplify_eq.
Qed.

Lemma foldl_apply_record_dimensions pal (rs : list (Z * Z * Z * Z)) G :
  let G' := foldl (apply_record pal) G rs in
  VoxelData.width G' = VoxelData.width G /\ VoxelData.height G' = VoxelData.height G /\
  VoxelData.depth G' = VoxelData.depth G.
Proof.
  revert G. induction rs as [|r rs IH]; intros G; cbn [foldl]; [done|].
  destruct (IH (apply_record pal G r)) as (-> & -> & ->).
  apply set_dimensions.
Qed.

(** X9 (a voxel chunk on its own).  [load] only resizes the grid when it
    meets a SIZE chunk and only knows colours after an RGBA chunk.  For a
    file whose root chunk holds nothing but an XYZI chunk, the records are
    drawn into the grid that was there before the call: its dimensions and
    its other cells stay, and every cell named by a record (inside the
    grid) becomes 0xffffffff, the colour given to an index the palette
    does not hold. *)
Theorem X9_voxel_chunk_alone (rs : list (Z * Z * Z * Z)) g0 :
  20 + 4 * Z.of_nat (length rs) < 2 ^ 32 ->
  let n := Z.of_nat (length rs) in
  let file := file_header (20 + 4 * n) ++ xyzi_chunk n (rs ≫= record_bytes) in
  exists loaded,
    load 1 (with_file file g0) = (Return tt, World file Closed [] loaded) /\
    VoxelData.width loaded = VoxelData.width g0 /\
    VoxelData.height loaded = VoxelData.height g0 /\
    VoxelData.depth loaded = VoxelData.depth g0 /\
    forall x y z,
      VoxelData.get loaded x y z
      = if decide ((x, z, y) ∈ rs.*1)
        then (if VoxelData.is_valid_bounds g0 x y z then 0xffffffff else 0)
        else VoxelData.get g0 x y z.
Proof.
  intros Hn n file. exists (foldl (apply_record ∅) g0 rs).
  assert (0 <= n /\ 20 + 4 * n < 2 ^ 32) as Hn' by (unfold n; lia).
  split; [|split_and!; [apply foldl_apply_record_dimensions..|]].
  - rewrite (load_header 1 (20 + 4 * n) (xyzi_chunk n (rs ≫= record_bytes)) g0 file)
      by reflexivity.
    rewrite Z.mod_small by lia. unfold bind at 1.
    rewrite load_chunks_step by lia.
    unfold xyzi_chunk. rewrite <- (app_nil_r (rs ≫= record_bytes)).
    erewrite bind_Return by (apply load_chunk_xyzi; rewrite Z.mod_small; lia).
    cbn [fst snd]. rewrite !Z.mod_small by lia.
    replace (0 + (20 + 4 * n) - 16 - (4 + n * 4) + 0) with 0 by lia.
    rewrite load_chunks_done. reflexivity.
  - intros x y z. apply get_foldl_apply_record_empty.
Qed.

(** X9 at one record, loaded over the 1x2x1 grid with one voxel. *)
Lemma X9_voxel_chunk_alone_witness :
  let n := Z.of_nat (length [(0, 0, 0, 5)]) in
  let file := file_header (20 + 4 * n) ++ xyzi_chunk n ([(0, 0, 0, 5)] ≫= record_bytes) in
  exists loaded,
    load 1 (with_file file grid_1x2x1) = (Return tt, World file Closed [] loaded) /\
    VoxelData.width loaded = VoxelData.width grid_1x2x1 /\
    VoxelData.height loaded = VoxelData.height grid_1x2x1 /\
    VoxelData.depth loaded = VoxelData.depth grid_1x2x1 /\
    forall x y z,
      VoxelData.get loaded x y z
      = if decide ((x, z, y) ∈ [(0, 0, 0, 5)].*1)
        then (if VoxelData.is_valid_bounds grid_1x2x1 x y z then 0xffffffff else 0)
        else VoxelData.get grid_1x2x1 x y z.
Proof. apply (X9_voxel_chunk_alone [(0, 0, 0, 5)] grid_1x2x1). cbn. lia. Defined.

(** Any bytes split into complete records and a tail of fewer than four. *)
Lemma records_of_bytes (bs : list Z) :
  exists (rs : list (Z * Z * Z * Z)) tail,
    bs = (rs ≫= record_bytes) ++ tail /\ (length tail < 4)%nat.
Proof.
  assert (forall n bs, (length bs <= n)%nat ->
            exists (rs : list (Z * Z * Z * Z)) tail,
              bs = (rs ≫= record_bytes) ++ tail /\ (length tail < 4)%nat) as H.
  { clear bs. induction n as [|n IH]; intros bs Hlen.
    - exists [], bs. split; [done|]. lia.
    - destruct bs as [|b0 [|b1 [|b2 [|b3 bs]]]];
        try (eexists [], _; split; [reflexivity|cbn; lia]).
      destruct (IH bs) as (rs & tail & -> & Htail); [cbn in Hlen; lia|].
      exists ((b0, b1, b2, b3) :: rs), tail. split; [reflexivity|done]. }
  by apply (H (length bs)).
Qed.

Lemma load_chunk_xyzi_truncated pal content child count
    (rs : list (Z * Z * Z * Z)) tail dk st g :
  Z.of_nat (length rs) < count mod 2 ^ 32 -> (length tail < 4)%nat ->
  load_chunk pal
    (World dk st (bytes_of_string "XYZI" ++ le32 content ++ le32 child ++
                  le32 count ++ (rs ≫= record_bytes) ++ tail) g)
  = (Raise IndexError, World dk st [] (foldl (apply_record pal) g rs)).
Proof.
  intros Hcount Htail. unfold load_chunk. rewrite run_f_read_app by reflexivity.
  rewrite !run_uint32_read_le32.
  rewrite (bool_decide_eq_false_2 (bytes_of_string "XYZI" = bytes_of_string "SIZE"))
    by discriminate.
  rewrite (bool_decide_eq_false_2 (bytes_of_string "XYZI" = bytes_of_string "RGBA"))
    by discriminate.
  rewrite (bool_decide_eq_true_2 _ eq_refl).
  rewrite !bind_assoc, run_uint32_read_le32.
  rewrite bind_assoc.
  erewrite bind_Raise; [reflexivity|].
  apply read_records_truncated; [|done]. unfold xrange. rewrite length_seqZ. lia.
Qed.

(** X10 (a voxel chunk cut short).  When an XYZI chunk holds fewer bytes
    than the [4 * count] it declares and the file ends there, [load_chunk]
    ends in an [IndexError]; the records that are complete have been
    applied to the grid by then, so the grid is left partly loaded. *)
Theorem X10_truncated_voxel_chunk pal content child count payload dk st g :
  Z.of_nat (length payload) < 4 * (count mod 2 ^ 32) ->
  exists (rs : list (Z * Z * Z * Z)) tail,
    payload = (rs ≫= record_bytes) ++ tail /\ (length tail < 4)%nat /\
    load_chunk pal
      (World dk st (bytes_of_string "XYZI" ++ le32 content ++ le32 child ++
                    le32 count ++ payload) g)
    = (Raise IndexError, World dk st [] (foldl (apply_record pal) g rs)).
Proof.
  intros Hlen. destruct (records_of_bytes payload) as (rs & tail & -> & Htail).
  exists rs, tail. split_and!; [done..|].
  apply load_chunk_xyzi_truncated; [|done].
  rewrite length_app, (length_bind_const _ _ 4) in Hlen by done. lia.
Qed.

(** X10 at a chunk that declares two records and holds seven bytes. *)
Lemma X10_truncated_voxel_chunk_witness :
  exists (rs : list (Z * Z * Z * Z)) tail,
    [0; 0; 0; 1; 0; 0; 0] = (rs ≫= record_bytes) ++ tail /\ (length tail < 4)%nat /\
    load_chunk ∅
      (World [] Opened (bytes_of_string "XYZI" ++ le32 12 ++ le32 0 ++
                    le32 2 ++ [0; 0; 0; 1; 0; 0; 0]) (empty_grid 1 1 1))
    = (Raise IndexError, World [] Opened [] (foldl (apply_record ∅) (empty_grid 1 1 1) rs)).
Proof.
  apply (X10_truncated_voxel_chunk ∅ 12 0 2 [0; 0; 0; 1; 0; 0; 0] [] Opened (empty_grid 1 1 1)).
  vm_compute. reflexivity.
Defined.

(** X18 (cells the record loop misses).  When the record loop writes fewer
    records than the counting loop counted (some non-empty cell has
    [y >= depth] or [z >= height]), the file [save] wrote cannot be loaded:
    for dimensions within the limit of 127, [load] runs into the end of the
    file inside the voxel chunk and ends in an [IndexError], with the grid
    resized and the records that are there applied, and the handle open. *)
Theorem X18_missed_cells_break_load fuel g g0 :
  0 <= VoxelData.width g <= 127 -> 0 <= VoxelData.height g <= 127 ->
  0 <= VoxelData.depth g <= 127 ->
  Z.of_nat (length (written g)) < nonempty_cells g ->
  load (S (S (S fuel))) (with_file (saved_file g) g0)
  = (Raise IndexError, World (saved_file g) Opened [] (loaded_grid g)).
Proof.
  intros Hw Hh Hd Hcount.
  pose proof (nonempty_cells_bound g ltac:(lia) ltac:(lia) ltac:(lia)) as Hn.
  rewrite (load_header _ (1104 + 4 * nonempty_cells g) (saved_chunks g) g0)
    by apply saved_file_chunks.
  rewrite Z.mod_small by lia. cbn [Z.add].
  erewrite bind_Raise; [reflexivity|].
  unfold saved_chunks, size_chunk, rgba_chunk, xyzi_chunk.
  rewrite voxel_count_nonempty_cells, voxel_records_written.
  rewrite <- (app_nil_r (written_records _ _ ≫= record_bytes)).
  repeat rewrite <- app_assoc.
  rewrite load_chunks_step by lia.
  erewrite bind_Return; cycle 1.
  { rewrite load_chunk_size. rewrite !Z.mod_small by lia.
    destruct (Z.ltb_spec 127 (VoxelData.width g)); [lia|].
    destruct (Z.ltb_spec 127 (VoxelData.height g)); [lia|].
    destruct (Z.ltb_spec 127 (VoxelData.depth g)); [lia|].
    reflexivity. }
  cbn [fst snd].
  rewrite load_chunks_step by lia.
  erewrite bind_Return; cycle 1.
  { apply load_chunk_rgba. apply palette_entry_length. }
  cbn [fst snd]. rewrite !Z.mod_small by lia.
  rewrite load_chunks_step by lia.
  erewrite bind_Raise; [reflexivity|].
  apply load_chunk_xyzi_truncated; [|cbn; lia].
  rewrite Z.mod_small by lia. unfold written_records. rewrite length_fmap. exact Hcount.
Qed.

(** X18 at the 1x2x1 grid with one voxel at (0, 1, 0). *)
Lemma X18_missed_cells_break_load_witness :
  load 3 (with_file (saved_file grid_1x2x1) (empty_grid 0 0 0))
  = (Raise IndexError, World (saved_file grid_1x2x1) Opened [] (loaded_grid grid_1x2x1)).
Proof.
  apply (X18_missed_cells_break_load 0 grid_1x2x1 (empty_grid 0 0 0));
    vm_compute; (reflexivity || (split; discriminate)).
Defined.

(** ** What [save] and [load] never touch *)

Section keeps_voxels.
Context {A B : Type}.

Lemma keeps_voxels_ret (a : A) : keeps_voxels (ret a).
Proof. intros w. reflexivity. Qed.

Lemma keeps_voxels_raise e : keeps_voxels (@raise A e).
Proof. intros w. reflexivity. Qed.

Lemma keeps_voxels_bind (m : M A) (k : A -> M B) :
  keeps_voxels m -> (forall a, keeps_voxels (k a)) -> keeps_voxels (bind m k).
Proof.
  intros Hm Hk w. unfold bind. specialize (Hm w).
  destruct (m w) as [[a| |] w1]; cbn [fst snd] in *; [|done..].
  rewrite <- Hm. apply Hk.
Qed.

End keeps_voxels.

Lemma keeps_voxels_f_write data : keeps_voxels (f_write data).
Proof. intros w. reflexivity. Qed.

Lemma keeps_voxels_f_close : keeps_voxels f_close.
Proof. intros w. reflexivity. Qed.

Lemma keeps_voxels_string_write s : keeps_voxels (string_write s).
Proof. intros w. reflexivity. Qed.

Lemma keeps_voxels_bytearray l : keeps_voxels (bytearray l).
Proof. intros w. unfold bytearray. by destruct (forallb is_byte l). Qed.

Lemma keeps_voxels_uint32_write v : keeps_voxels (uint32_write v).
Proof.
  apply keeps_voxels_bind; [apply keeps_voxels_bytearray|intros; apply keeps_voxels_f_write].
Qed.

Lemma keeps_voxels_for_each {A} (l : list A) (body : A -> M unit) :
  (forall a, keeps_voxels (body a)) -> keeps_voxels (for_each l body).
Proof.
  intros Hbody. induction l as [|a l IH]; cbn [for_each].
  - apply keeps_voxels_ret.
  - apply keeps_voxels_bind; [apply Hbody|intros; apply IH].
Qed.

Lemma keeps_voxels_write_palette_entry pal i : keeps_voxels (write_palette_entry pal i).
Proof.
  apply keeps_voxels_bind; [|intros; apply keeps_voxels_f_write].
  destruct (pal !! i); apply keeps_voxels_bytearray.
Qed.

Lemma keeps_voxels_write_voxel g pm x y z : keeps_voxels (write_voxel g pm x y z).
Proof.
  unfold write_voxel. destruct (_ =? 0); [apply keeps_voxels_ret|].
  apply keeps_voxels_bind; [apply keeps_voxels_bytearray|intros; apply keeps_voxels_f_write].
Qed.

(** X16.  [save] never changes the grid, however it ends: with a file
    written, with the capacity error, or with a [ValueError] halfway. *)
Theorem X16_save_never_changes_the_grid w : voxels (save w).2 = voxels w.
Proof.
  unfold save. rewrite (bind_Return get_voxel_data _ w (voxels w) w) by reflexivity.
  destruct (256 <=? idx (count_and_palette (voxels w))); [reflexivity|].
  unfold bind at 1. cbn [open_wb].
  match goal with
  | |- voxels (?m ?w').2 = _ => change (voxels (m w').2 = voxels w'); cut (keeps_voxels m);
                                [intros Hm; apply Hm|]
  end.
  repeat first
    [ apply keeps_voxels_uint32_write
    | apply keeps_voxels_string_write
    | apply keeps_voxels_write_palette_entry
    | apply keeps_voxels_write_voxel
    | apply keeps_voxels_f_close
    | apply keeps_voxels_for_each; intros ?
    | apply keeps_voxels_bind; [|intros ?] ].
Qed.

Lemma disk_blind_disk {A} (m : M A) w : disk_blind m -> disk (m w).2 = disk w.
Proof.
  intros Hm. specialize (Hm (disk w) w).
  replace (set_disk (disk w) w) with w in Hm by (by destruct w).
  rewrite Hm at 1. reflexivity.
Qed.

(** X15.  [load] never writes: whatever the file holds and however the
    call ends, the bytes on the disk are those from before the call. *)
Theorem X15_load_never_writes fuel w : disk (load fuel w).2 = disk w.
Proof.
  unfold load. unfold bind at 1. cbn [open_rb].
  match goal with
  | |- disk (?m ?w').2 = _ => change (disk (m w').2 = disk w'); apply disk_blind_disk
  end.
  repeat first
    [ apply disk_blind_f_read
    | apply disk_blind_uint32_read
    | apply disk_blind_load_chunks
    | apply disk_blind_f_close
    | apply disk_blind_raise
    | match goal with |- disk_blind (if ?b then _ else _) => destruct b end
    | apply disk_blind_bind; [|intros ?] ].
Qed.

(** ** The counting loop and the record loop *)

Lemma palette_table_init : palette_table (Locals 0 ∅ ∅ 0).
Proof.
  unfold palette_table. cbn [voxel_count paletteMap palette idx].
  split_and!; [lia..| |].
  - intros k. rewrite lookup_empty. split; [by intros [? ?]|lia].
  - intros c i. by rewrite lookup_empty.
Qed.

Lemma count_voxel_table vox s : palette_table s -> palette_table (count_voxel vox s).
Proof.
  intros (Hidx & Hkeys & Hmap). unfold count_voxel.
  destruct (vox =? 0); [done|].
  destruct (palette s !! Z.land vox 4294967040) eqn:Hc;
    unfold palette_table; cbn [voxel_count paletteMap palette idx].
  - split_and!; [lia..|done|done].
  - split_and!; [lia..| |].
    + intros k. destruct (decide (k = idx s)) as [->|Hne].
      * rewrite lookup_insert_eq. split; [lia|eauto].
      * rewrite lookup_insert_ne by done. rewrite Hkeys. lia.
    + intros c i. destruct (decide (c = Z.land vox 4294967040)) as [->|Hne].
      * rewrite lookup_insert_eq. intros [= <-]. by rewrite lookup_insert_eq.
      * rewrite lookup_insert_ne by done. intros Hi.
        assert (i ≠ idx s).
        { intros ->. apply Hmap in Hi. assert (is_Some (palette s !! idx s)) as Hs by eauto.
          apply Hkeys in Hs. lia. }
        rewrite lookup_insert_ne by done. by apply Hmap.
Qed.

Lemma count_loop_table g l s :
  palette_table s -> palette_table (foldl (fun s p => count_voxel (get_at g p) s) s l).
Proof.
  revert s. induction l as [|p l IH]; intros s Hs; [done|].
  cbn [foldl]. apply IH, count_voxel_table, Hs.
Qed.

Lemma count_loop_colors g (P : Z * Z * Z -> Prop) l s :
  (forall p, p ∈ l -> P p) ->
  (forall i c, palette s !! i = Some c ->
     exists p, P p /\ get_at g p ≠ 0 /\ c = Z.land (get_at g p) 0xffffff00) ->
  forall i c, palette (foldl (fun s p => count_voxel (get_at g p) s) s l) !! i = Some c ->
    exists p, P p /\ get_at g p ≠ 0 /\ c = Z.land (get_at g p) 0xffffff00.
Proof.
  revert s. induction l as [|p l IH]; intros s Hl Hs; [done|].
  cbn [foldl]. apply IH; [intros; apply Hl; by right|].
  intros i c. unfold count_voxel.
  destruct (Z.eqb_spec (get_at g p) 0) as [|Hne]; [apply Hs|].
  destruct (palette s !! Z.land (get_at g p) 4294967040); cbn [palette]; [apply Hs|].
  destruct (decide (i = idx s)) as [->|Hi].
  - rewrite lookup_insert_eq. intros [= <-]. exists p. split_and!; [apply Hl; left|done..].
  - rewrite lookup_insert_ne by done. apply Hs.
Qed.

(** X12 (the counting loop, lines 63-77).  For every grid: [voxel_count]
    ends as the number of non-empty cells; the indices handed out are
    exactly [0 .. idx - 1], each a key of [palette], and [idx] never exceeds
    [voxel_count]; every entry of [paletteMap] points to the palette slot
    that holds its colour; and every colour in [palette] is the colour of
    some non-empty cell with its low byte masked off. *)
Theorem X12_counting_loop g :
  let s := count_and_palette g in
  voxel_count s = nonempty_cells g /\
  0 <= idx s <= voxel_count s /\
  (forall k, is_Some (palette s !! k) <-> 0 <= k < idx s) /\
  (forall c i, paletteMap s !! c = Some i -> palette s !! i = Some c) /\
  (forall i c, palette s !! i = Some c ->
     exists x y z, VoxelData.get g x y z ≠ 0 /\ c = Z.land (VoxelData.get g x y z) 0xffffff00).
Proof.
  intros s. split; [apply voxel_count_nonempty_cells|].
  assert (palette_table s) as (H1 & H2 & H3).
  { unfold s. rewrite count_and_palette_traversal. apply count_loop_table, palette_table_init. }
  split_and!; [lia..|done|done|].
  intros i c Hc. unfold s in Hc. rewrite count_and_palette_traversal in Hc.
  apply (count_loop_colors g (fun _ => True)) in Hc as ([[x y] z] & _ & Hne & ->).
  - by exists x, y, z.
  - done.
  - intros ? ?. cbn [palette]. by rewrite lookup_empty.
Qed.

Lemma written_submseteq g : swap_yz <$> written g ⊆+ filter (nonempty g) (traversal g).
Proof.
  apply NoDup_submseteq.
  - apply (NoDup_fmap_2 _), NoDup_written.
  - intros p (q & -> & Hq)%list_elem_of_fmap.
    unfold written in Hq. apply list_elem_of_filter in Hq as [Hne Hq].
    apply elem_of_nonempty_traversal. exact Hne.
Qed.

Lemma written_le_count g : Z.of_nat (length (written g)) <= nonempty_cells g.
Proof.
  pose proof (submseteq_length _ _ (written_submseteq g)) as H.
  rewrite length_fmap in H. unfold nonempty_cells. lia.
Qed.

Lemma written_count_iff g :
  Z.of_nat (length (written g)) = nonempty_cells g <->
  (forall x y z, VoxelData.get g x y z ≠ 0 ->
                 y < VoxelData.depth g /\ z < VoxelData.height g).
Proof.
  split; [|intros H; symmetry; by apply written_count].
  intros Heq x y z Hne.
  assert (swap_yz <$> written g ≡ₚ filter (nonempty g) (traversal g)) as Hperm.
  { apply submseteq_length_Permutation; [apply written_submseteq|].
    rewrite length_fmap. unfold nonempty_cells in Heq. lia. }
  assert ((x, y, z) ∈ swap_yz <$> written g) as Hin.
  { rewrite Hperm. by apply elem_of_nonempty_traversal. }
  apply list_elem_of_fmap in Hin as ([[qx qy] qz] & Hq & Hin).
  unfold swap_yz in Hq. cbn in Hq. simplify_eq.
  apply elem_of_written in Hin. lia.
Qed.

Lemma length_saved_file g :
  length (saved_file g) = (1096 + 4 * length (written g))%nat.
Proof.
  unfold saved_file, file_header, size_chunk, rgba_chunk, xyzi_chunk.
  rewrite voxel_records_written.
  rewrite !length_app, !le32_length.
  rewrite (length_bind_const _ _ 4) by apply palette_entry_length.
  rewrite (length_bind_const _ _ 4) by done.
  unfold written_records. rewrite length_fmap. unfold xrange. rewrite length_seqZ.
  cbn. lia.
Qed.

Lemma save_until_records w0 :
  let g := voxels w0 in
  let s := count_and_palette g in
  idx s < 256 ->
  save w0
  = bind (for_each (traversal g) (fun p => write_voxel g (paletteMap s) p.1.1 p.1.2 p.2))
         (fun _ => f_close)
         (World (saved_up_to_records g) Opened [] g).
Proof.
  intros g s Hidx. unfold save.
  rewrite (bind_Return get_voxel_data _ w0 g w0) by reflexivity.
  fold g. fold s. destruct (Z.leb_spec 256 (idx s)) as [|_]; [lia|].
  rewrite (bind_Return open_wb _ w0 tt (World [] Opened [] g)) by reflexivity.
  repeat (first [rewrite run_uint32_write | rewrite run_string_write];
          cbv beta; rewrite append_disk_World).
  erewrite bind_Return
    by (apply (for_each_writes _ _ (palette_entry (palette s)));
        intros; apply write_palette_entry_spec).
  rewrite append_disk_World.
  repeat (first [rewrite run_uint32_write | rewrite run_string_write];
          cbv beta; rewrite append_disk_World).
  unfold bind. rewrite for_each_traversal.
  unfold saved_up_to_records, file_header, size_chunk, rgba_chunk, xyzi_chunk.
  fold g. fold s.
  rewrite app_nil_l, app_nil_r. repeat rewrite <- app_assoc.
  replace (16 + (16 + 4 * 3) + (16 + 4 * 256) + (16 + 4 + voxel_count s * 4))
    with (1104 + 4 * voxel_count s) by lia.
  change (4 * 3) with 12. change (4 * 256) with 1024.
  match goal with |- ?a = ?b => constr_eq a b end.
  reflexivity.
Qed.

Lemma write_voxel_empty g pm x y z w :
  VoxelData.get g x z y = 0 -> write_voxel g pm x y z w = (Return tt, w).
Proof. intros H. unfold write_voxel. rewrite H. reflexivity. Qed.

Lemma write_voxel_not_bytes g pm x y z w :
  VoxelData.get g x z y ≠ 0 -> byte_position (x, y, z) = false ->
  write_voxel g pm x y z w = (Raise ValueError, w).
Proof.
  intros Hne Hb. unfold write_voxel. apply Z.eqb_neq in Hne. rewrite Hne.
  unfold bind, bytearray. cbn [forallb]. unfold byte_position in Hb. cbn [fst snd] in Hb.
  rewrite !andb_assoc, Hb. reflexivity.
Qed.

(** The record loop, as long as the records it writes hold bytes. *)
Lemma record_loop_writes g pm l dk st r g' :
  (forall c i, pm !! c = Some i -> is_byte i = true) ->
  (forall p, p ∈ l -> nonempty g (swap_yz p) -> byte_position p = true) ->
  for_each l (fun p => write_voxel g pm p.1.1 p.1.2 p.2) (World dk st r g')
  = (Return tt, World (dk ++ (l ≫= voxel_record g pm)) st r g').
Proof.
  intros Hpm Hl. rewrite <- append_disk_World. apply for_each_writes.
  intros [[x y] z] Hin w. cbn [fst snd].
  destruct (decide (VoxelData.get g x z y = 0)) as [He|Hne].
  - rewrite write_voxel_empty by done. unfold voxel_record, get_at, swap_yz. cbn [fst snd].
    rewrite He. cbn. by rewrite append_disk_nil.
  - specialize (Hl _ Hin Hne). unfold byte_position in Hl. cbn [fst snd] in Hl.
    apply andb_prop in Hl as [[Hx Hy]%andb_prop Hz]. by apply write_voxel_spec.
Qed.

(** The record loop stops at the first record with a coordinate that is no byte. *)
Lemma record_loop_raises g pm l dk st r g' :
  (forall c i, pm !! c = Some i -> is_byte i = true) ->
  (exists p, p ∈ l /\ nonempty g (swap_yz p) /\ byte_position p = false) ->
  exists l1,
    for_each l (fun p => write_voxel g pm p.1.1 p.1.2 p.2) (World dk st r g')
    = (Raise ValueError, World (dk ++ (l1 ≫= voxel_record g pm)) st r g').
Proof.
  intros Hpm. revert dk. induction l as [|a l IH]; intros dk (p & Hin & Hne & Hb).
  - by apply elem_of_nil in Hin.
  - destruct a as [[x y] z]. cbn [for_each fst snd].
    destruct (decide (VoxelData.get g x z y = 0)) as [He|Hne'].
    + erewrite bind_Return by (by apply write_voxel_empty).
      destruct (IH dk) as [l1 Hl1].
      { exists p. split_and!; [|done..]. apply elem_of_cons in Hin as [->|]; [|done].
        unfold nonempty, get_at, swap_yz in Hne. cbn [fst snd] in Hne. done. }
      exists l1. exact Hl1.
    + destruct (byte_position (x, y, z)) eqn:Hbyte.
      * unfold byte_position in Hbyte. cbn [fst snd] in Hbyte.
        apply andb_prop in Hbyte as [[Hx Hy]%andb_prop Hz].
        erewrite bind_Return by (by apply write_voxel_spec).
        rewrite append_disk_World.
        destruct (IH (dk ++ voxel_record g pm (x, y, z))) as [l1 Hl1].
        { exists p. split_and!; [|done..]. apply elem_of_cons in Hin as [->|]; [|done].
          unfold byte_position in Hb. cbn [fst snd] in Hb. rewrite Hx, Hy, Hz in Hb. done. }
        exists ((x, y, z) :: l1). rewrite Hl1, bind_cons, app_assoc. reflexivity.
      * exists []. erewrite bind_Raise by (by apply write_voxel_not_bytes).
        cbn. by rewrite app_nil_r.
Qed.

Lemma palette_indices_are_bytes g c i :
  idx (count_and_palette g) < 256 ->
  paletteMap (count_and_palette g) !! c = Some i -> is_byte i = true.
Proof.
  intros Hidx Hi. apply count_and_palette_below in Hi. unfold is_byte. lia.
Qed.

(** X14 (coordinates that are no bytes).  [save] never checks dimensions,
    but a record holds its three coordinates as bytes.  Once the palette
    check is passed, [save] writes the whole file when every record has
    coordinates below 256, whatever the dimensions; when some record has a
    coordinate of 256 or more, [bytearray.extend] raises a [ValueError] at
    the first such record, leaving the handle open and a file that stops
    in the middle of the voxel chunk.  The grid is unchanged either way. *)
Theorem X14_save_and_coordinates_above_255 g :
  idx (count_and_palette g) < 256 ->
  ((forall x y z, VoxelData.get g x z y ≠ 0 -> y < VoxelData.height g ->
                  z < VoxelData.depth g -> x < 256 /\ y < 256 /\ z < 256) ->
   save (start g) = (Return tt, World (saved_file g) Closed [] g)) /\
  ((exists x y z, VoxelData.get g x z y ≠ 0 /\ y < VoxelData.height g /\
                  z < VoxelData.depth g /\ ~ (x < 256 /\ y < 256 /\ z < 256)) ->
   exists records,
     save (start g)
     = (Raise ValueError, World (saved_up_to_records g ++ records) Opened [] g)).
Proof.
  intros Hidx. pose proof (save_until_records (start g) Hidx) as Hsave.
  cbn [start voxels] in Hsave. rewrite Hsave. clear Hsave. split.
  - intros Hbytes. erewrite bind_Return.
    2:{ apply record_loop_writes; [intros c i; by apply palette_indices_are_bytes|].
        intros [[x y] z] Hin Hne. pose proof Hin as Hin'%elem_of_traversal.
        assert ((x, y, z) ∈ written g) as Hw.
        { unfold written. apply list_elem_of_filter. done. }
        apply elem_of_written in Hw as (Hg & Hy & Hz).
        specialize (Hbytes x y z Hg Hy Hz).
        unfold byte_position, is_byte. cbn [fst snd]. lia. }
    unfold f_close. cbn [disk f_status f_rest voxels]. do 2 f_equal.
    unfold saved_up_to_records, saved_file, xyzi_chunk, voxel_records.
    rewrite app_nil_r. repeat rewrite <- app_assoc. reflexivity.
  - intros (x & y & z & Hg & Hy & Hz & Hnb).
    destruct (record_loop_raises g (paletteMap (count_and_palette g)) (traversal g)
                (saved_up_to_records g) Opened [] g) as [l1 Hl1].
    { intros c i. by apply palette_indices_are_bytes. }
    { exists (x, y, z).
      assert ((x, y, z) ∈ written g) as Hw by (apply elem_of_written; done).
      unfold written in Hw. apply list_elem_of_filter in Hw as [Hne Hin].
      split_and!; [done..|]. apply elem_of_traversal in Hin.
      unfold byte_position, is_byte. cbn [fst snd]. lia. }
    eexists. erewrite bind_Raise by exact Hl1. reflexivity.
Qed.

(** X13 (the length of the file).  The file [save] writes has
    [1096 + 4 * r] bytes for [r] records.  Its root chunk announces
    [1104 + 4 * n] bytes of children for the [n] non-empty cells, so after
    the 20 bytes of file header and root chunk header the file is at least
    28 bytes shorter than announced; it is exactly 28 bytes shorter if and
    only if every non-empty cell [(x, y, z)] has [y < depth] and
    [z < height], that is, when the record loop reaches all of them. *)
Theorem X13_saved_file_is_shorter_than_declared g :
  idx (count_and_palette g) < 256 ->
  VoxelData.width g <= 256 -> VoxelData.height g <= 256 -> VoxelData.depth g <= 256 ->
  exists file,
    save (start g) = (Return tt, World file Closed [] g) /\
    Z.of_nat (length file) = 1096 + 4 * Z.of_nat (length (written g)) /\
    Z.of_nat (length file) + 28 <= 20 + (main_header_fields file).2 /\
    (Z.of_nat (length file) + 28 = 20 + (main_header_fields file).2 <->
     forall x y z, VoxelData.get g x y z ≠ 0 ->
                   y < VoxelData.depth g /\ z < VoxelData.height g).
Proof.
  intros Hidx Hw Hh Hd. exists (saved_file g).
  pose proof (nonempty_cells_bound_256 g Hw Hh Hd) as Hn.
  pose proof (written_le_count g) as Hle.
  assert ((main_header_fields (saved_file g)).2 = 1104 + 4 * nonempty_cells g) as Hfield.
  { rewrite saved_file_chunks, main_header_fields_file_header. cbn [snd].
    apply Z.mod_small. lia. }
  rewrite Hfield, length_saved_file.
  split_and!.
  - by apply (save_spec (start g)).
  - lia.
  - lia.
  - rewrite <- written_count_iff. lia.
Qed.

(** X13 at the 1x2x1 grid with one voxel. *)
Lemma X13_saved_file_is_shorter_than_declared_witness :
  exists file,
    save (start grid_1x2x1) = (Return tt, World file Closed [] grid_1x2x1) /\
    Z.of_nat (length file) = 1096 + 4 * Z.of_nat (length (written grid_1x2x1)) /\
    Z.of_nat (length file) + 28 <= 20 + (main_header_fields file).2 /\
    (Z.of_nat (length file) + 28 = 20 + (main_header_fields file).2 <->
     forall x y z, VoxelData.get grid_1x2x1 x y z ≠ 0 ->
                   y < VoxelData.depth grid_1x2x1 /\ z < VoxelData.height grid_1x2x1).
Proof.
  apply (X13_saved_file_is_shorter_than_declared grid_1x2x1); vm_compute; (reflexivity || discriminate).
Defined.

(** X14 at a grid 300 wide with one voxel at (256, 0, 0). *)
Lemma X14_save_and_coordinates_above_255_witness :
  ((forall x y z, VoxelData.get grid_300x1x1 x z y ≠ 0 -> y < VoxelData.height grid_300x1x1 ->
                  z < VoxelData.depth grid_300x1x1 -> x < 256 /\ y < 256 /\ z < 256) ->
   save (start grid_300x1x1) = (Return tt, World (saved_file grid_300x1x1) Closed [] grid_300x1x1)) /\
  ((exists x y z, VoxelData.get grid_300x1x1 x z y ≠ 0 /\ y < VoxelData.height grid_300x1x1 /\
                  z < VoxelData.depth grid_300x1x1 /\ ~ (x < 256 /\ y < 256 /\ z < 256)) ->
   exists records,
     save (start grid_300x1x1)
     = (Raise ValueError,
        World (saved_up_to_records grid_300x1x1 ++ records) Opened [] grid_300x1x1)).
Proof.
  apply (X14_save_and_coordinates_above_255 grid_300x1x1). vm_compute. reflexivity.
Defined.

(** ** What the palette check counts *)

(** A cell with a colour above the reserved byte takes a palette index of
    its own as long as fewer than 256 indices are handed out. *)
Lemma count_voxel_idx vox s :
  palette_table s ->
  idx s <= idx (count_voxel vox s) /\
  (Z.land vox 0xffffff00 ≠ 0 -> Z.min 256 (idx s + 1) <= idx (count_voxel vox s)).
Proof.
  intros (Hidx & Hkeys & _). unfold count_voxel.
  destruct (Z.eqb_spec vox 0) as [->|Hne].
  - split; [lia|]. intros H. by rewrite Z.land_0_l in H.
  - destruct (palette s !! Z.land vox 4294967040) eqn:Hc; cbn [idx].
    + split; [lia|]. intros Hcol. apply masked_color_range in Hcol.
      assert (is_Some (palette s !! Z.land vox 4294967040)) as Hs by eauto.
      apply Hkeys in Hs. lia.
    + lia.
Qed.

Lemma count_loop_idx g l s :
  palette_table s ->
  Z.min 256 (idx s + Z.of_nat (length (filter (fun p => Z.land (get_at g p) 0xffffff00 ≠ 0) l)))
  <= idx (foldl (fun s p => count_voxel (get_at g p) s) s l).
Proof.
  revert s. induction l as [|p l IH]; intros s Hs.
  - cbn. lia.
  - cbn [foldl]. pose proof (count_voxel_idx (get_at g p) s Hs) as [Hmono Hcol].
    specialize (IH _ (count_voxel_table (get_at g p) s Hs)).
    rewrite filter_cons. destruct (decide (Z.land (get_at g p) 4294967040 ≠ 0)) as [Hc|Hc].
    + specialize (Hcol Hc). cbn [length]. lia.
    + lia.
Qed.

Lemma record_loop_outcome G pm l w :
  (for_each l (fun p => write_voxel G pm p.1.1 p.1.2 p.2) w).1 = Return tt \/
  (for_each l (fun p => write_voxel G pm p.1.1 p.1.2 p.2) w).1 = Raise ValueError.
Proof.
  revert w. induction l as [|[[x y] z] l IH]; intros w; [by left|].
  cbn [for_each fst snd]. unfold write_voxel at 1 3.
  destruct (VoxelData.get G x z y =? 0).
  - rewrite run_ret. apply IH.
  - unfold bytearray. destruct (forallb is_byte _).
    + rewrite bind_assoc, run_ret, run_f_write. apply IH.
    + by right.
Qed.

(** X26 (what the palette check counts).  The check of line 80 is a check
    on cells, whatever the number of distinct colours.  A grid with fewer
    than 256 non-empty cells always passes it ([save] then returns or
    ends in a [ValueError]); a grid in which 256 or more cells hold a
    colour that is not zero above the reserved byte never does: [save]
    raises the capacity error, with nothing written. *)
Theorem X26_palette_capacity_counts_cells g :
  (nonempty_cells g < 256 ->
   (save (start g)).1 = Return tt \/ (save (start g)).1 = Raise ValueError) /\
  (256 <= Z.of_nat (length (filter (fun p => Z.land (get_at g p) 0xffffff00 ≠ 0)
                                   (traversal g))) ->
   exists n, 256 <= n /\ save (start g) = (Raise (PaletteExceeded n), start g)).
Proof.
  assert (palette_table (count_and_palette g)) as Htable.
  { rewrite count_and_palette_traversal. apply count_loop_table, palette_table_init. }
  split.
  - intros Hcells. destruct Htable as (Hidx & _).
    rewrite voxel_count_nonempty_cells in Hidx.
    pose proof (save_until_records (start g)) as Hsave. cbn [start voxels] in Hsave.
    rewrite Hsave by lia. unfold bind.
    destruct (record_loop_outcome g (paletteMap (count_and_palette g)) (traversal g)
                (World (saved_up_to_records g) Opened [] g)) as [H|H];
      destruct (for_each _ _ _) as [o w']; cbn [fst] in H; subst o; auto.
  - intros Hmany. exists (idx (count_and_palette g)).
    pose proof (count_loop_idx g (traversal g) (Locals 0 ∅ ∅ 0) palette_table_init) as Hlow.
    rewrite <- count_and_palette_traversal in Hlow. cbn [idx] in Hlow.
    assert (256 <= idx (count_and_palette g)) by lia.
    split; [done|]. by apply (save_capacity_error (start g)).
Qed.

(** ** Saving what was loaded *)

Lemma same_for_save_traversal g g' : same_for_save g g' -> traversal g' = traversal g.
Proof. intros (Hw & Hh & Hd & _). unfold traversal. by rewrite Hw, Hh, Hd. Qed.

Lemma same_for_save_eqb g g' x y z :
  same_for_save g g' -> (VoxelData.get g' x y z =? 0) = (VoxelData.get g x y z =? 0).
Proof.
  intros (_ & _ & _ & H). destruct (H x y z) as [[H1 H2] _].
  destruct (Z.eqb_spec (VoxelData.get g' x y z) 0), (Z.eqb_spec (VoxelData.get g x y z) 0);
    tauto.
Qed.

Lemma count_voxel_same g g' x y z s :
  same_for_save g g' ->
  count_voxel (VoxelData.get g' x y z) s = count_voxel (VoxelData.get g x y z) s.
Proof.
  intros H. unfold count_voxel. rewrite (same_for_save_eqb g g') by done.
  destruct H as (_ & _ & _ & H). destruct (H x y z) as [_ ->]. reflexivity.
Qed.

Lemma count_and_palette_same g g' :
  same_for_save g g' -> count_and_palette g' = count_and_palette g.
Proof.
  intros H. rewrite !count_and_palette_traversal, (same_for_save_traversal g g') by done.
  apply foldl_ext_in. intros s [[x y] z] _. by apply count_voxel_same.
Qed.

Lemma write_voxel_same g g' pm x y z w :
  same_for_save g g' -> write_voxel g' pm x y z w = write_voxel g pm x y z w.
Proof.
  intros H. unfold write_voxel. rewrite (same_for_save_eqb g g') by done.
  destruct H as (_ & _ & _ & H). destruct (H x z y) as [_ ->]. reflexivity.
Qed.

Lemma voxel_records_same g g' pm :
  same_for_save g g' -> voxel_records g' pm = voxel_records g pm.
Proof.
  intros H. unfold voxel_records. rewrite (same_for_save_traversal g g') by done.
  induction (traversal g) as [|[[x y] z] l IH]; [reflexivity|].
  rewrite !bind_cons, IH. f_equal.
  unfold voxel_record, get_at, swap_yz. cbn [fst snd].
  rewrite (same_for_save_eqb g g') by done.
  destruct H as (_ & _ & _ & H). destruct (H x z y) as [_ ->]. reflexivity.
Qed.

Lemma saved_file_same g g' : same_for_save g g' -> saved_file g' = saved_file g.
Proof.
  intros H. unfold saved_file.
  rewrite (count_and_palette_same g g'), (voxel_records_same g g') by done.
  destruct H as (-> & -> & -> & _). reflexivity.
Qed.

(** The record loop writes what it writes whatever grid the editor holds. *)
Lemma record_loop_any_grid G pm l dk st r :
  exists o dk', forall g,
    for_each l (fun p => write_voxel G pm p.1.1 p.1.2 p.2) (World dk st r g)
    = (o, World dk' st r g).
Proof.
  revert dk. induction l as [|[[x y] z] l IH]; intros dk.
  - by exists (Return tt), dk.
  - cbn [for_each fst snd]. unfold write_voxel at 1.
    destruct (VoxelData.get G x z y =? 0).
    + destruct (IH dk) as (o & dk' & H). exists o, dk'. intros g.
      rewrite run_ret. apply H.
    + unfold bytearray.
      destruct (forallb is_byte _).
      * destruct (IH (dk ++ [x; y; z; match pm !! Z.land (VoxelData.get G x z y) 4294967040 with
                                    | Some i => i | None => 0 end])) as (o & dk' & H).
        exists o, dk'. intros g.
        rewrite bind_assoc, run_ret, run_f_write, append_disk_World. apply H.
      * exists (Raise ValueError), dk. intros g. reflexivity.
Qed.

(** X24 (the reserved byte).  [save] looks at a cell only to see whether
    it is empty and what its colour is above the low byte.  Two grids of
    the same dimensions with the same empty cells and the same colours
    above the low byte are saved alike: the same outcome, the same bytes in
    the file, the same state of the handle. *)
Theorem X24_save_ignores_the_reserved_byte g g' :
  same_for_save g g' ->
  (save (start g')).1 = (save (start g)).1 /\
  disk (save (start g')).2 = disk (save (start g)).2 /\
  f_status (save (start g')).2 = f_status (save (start g)).2.
Proof.
  intros H.
  destruct (Z.le_gt_cases 256 (idx (count_and_palette g))) as [Hbig|Hsmall].
  - rewrite !save_capacity_error
      by (cbn [start voxels]; rewrite ?(count_and_palette_same g g'); done).
    cbn [start voxels fst snd disk f_status].
    by rewrite (count_and_palette_same g g').
  - pose proof (save_until_records (start g)) as Hg.
    pose proof (save_until_records (start g')) as Hg'.
    cbn [start voxels] in Hg, Hg'.
    rewrite Hg by lia. rewrite Hg' by (rewrite (count_and_palette_same g g'); [lia|done]).
    clear Hg Hg'.
    assert (saved_up_to_records g' = saved_up_to_records g) as ->.
    { unfold saved_up_to_records. rewrite (count_and_palette_same g g') by done.
      destruct H as (-> & -> & -> & _). reflexivity. }
    rewrite (same_for_save_traversal g g'), (count_and_palette_same g g') by done.
    destruct (record_loop_any_grid g (paletteMap (count_and_palette g)) (traversal g)
                (saved_up_to_records g) Opened []) as (o & dk' & Hloop).
    unfold bind.
    rewrite (for_each_ext _ _ (fun p => write_voxel g (paletteMap (count_and_palette g))
                                          p.1.1 p.1.2 p.2))
      by (intros; by apply write_voxel_same).
    rewrite !Hloop. by destruct o.
Qed.

Lemma loaded_grid_same_for_save g :
  (forall x y z, VoxelData.get g x y z ≠ 0 ->
                 y < VoxelData.depth g /\ z < VoxelData.height g) ->
  nonempty_cells g < 256 ->
  (forall x y z, VoxelData.get g x y z ≠ 0 ->
                 Z.land (VoxelData.get g x y z) 0xffffff00 ≠ 0) ->
  same_for_save g (loaded_grid g).
Proof.
  intros Hswap Hcells Hcolor.
  destruct (loaded_grid_dimensions g) as (Hw & Hh & Hd).
  split_and!; [done..|]. intros x y z.
  rewrite (loaded_grid_cells g Hswap Hcells Hcolor).
  destruct (Z.eqb_spec (VoxelData.get g x y z) 0) as [->|Hne]; [done|].
  split.
  - split; [|done]. intros [_ H]%Z.lor_eq_0_iff. done.
  - rewrite Z.land_lor_distr_l, <- Z.land_assoc, Z.land_diag.
    change (Z.land 255 4294967040) with 0. apply Z.lor_0_r.
Qed.

(** X25 (saving what was loaded).  Where the round trip holds, the grid
    that [load] builds from the file of [g] is saved as that very file
    again, byte for byte: the change [load] makes to the low byte of every
    colour is one that [save] does not see. *)
Theorem X25_saving_what_was_loaded_gives_the_same_file (g g0 : VoxelData) :
  0 <= VoxelData.width g <= 127 -> 0 <= VoxelData.height g <= 127 ->
  0 <= VoxelData.depth g <= 127 ->
  (forall x y z, VoxelData.get g x y z ≠ 0 ->
                 y < VoxelData.depth g /\ z < VoxelData.height g) ->
  nonempty_cells g < 256 ->
  (forall x y z, VoxelData.get g x y z ≠ 0 ->
                 Z.land (VoxelData.get g x y z) 0xffffff00 ≠ 0) ->
  exists file loaded,
    save (start g) = (Return tt, World file Closed [] g) /\
    load 4 (with_file file g0) = (Return tt, World file Closed [] loaded) /\
    save (start loaded) = (Return tt, World file Closed [] loaded).
Proof.
  intros Hw Hh Hd Hswap Hcells Hcolor.
  pose proof (loaded_grid_same_for_save g Hswap Hcells Hcolor) as Hsame.
  assert (idx (count_and_palette g) < 256) as Hidx.
  { assert (palette_table (count_and_palette g)) as (Hle & _).
    { rewrite count_and_palette_traversal. apply count_loop_table, palette_table_init. }
    rewrite voxel_count_nonempty_cells in Hle. lia. }
  exists (saved_file g), (loaded_grid g). split_and!.
  - apply (save_spec (start g)); cbn [start voxels]; lia.
  - apply load_saved_file; [done..|]. by apply written_count.
  - rewrite <- (saved_file_same g (loaded_grid g)) by done.
    destruct Hsame as (Hw' & Hh' & Hd' & _).
    apply (save_spec (start (loaded_grid g))); cbn [start voxels];
      rewrite ?(count_and_palette_same g (loaded_grid g)) by (by apply loaded_grid_same_for_save);
      lia.
Qed.

(** X25 at the 10x10x10 grid with one voxel at (3, 5, 9). *)
Lemma X25_saving_what_was_loaded_gives_the_same_file_witness :
  exists file loaded,
    save (start grid_3_5_9) = (Return tt, World file Closed [] grid_3_5_9) /\
    load 4 (with_file file (empty_grid 0 0 0)) = (Return tt, World file Closed [] loaded) /\
    save (start loaded) = (Return tt, World file Closed [] loaded).
Proof.
  apply (X25_saving_what_was_loaded_gives_the_same_file grid_3_5_9 (empty_grid 0 0 0)).
  - split; vm_compute; discriminate.
  - split; vm_compute; discriminate.
  - split; vm_compute; discriminate.
  - intros x y z H. apply get_nonzero_in_bounds in H.
    change (VoxelData.depth grid_3_5_9) with 10 in *.
    change (VoxelData.height grid_3_5_9) with 10 in *. lia.
  - vm_compute. reflexivity.
  - intros x y z. unfold grid_3_5_9. rewrite get_set, !get_empty_grid.
    destruct (decide _); done.
Defined.

(** X24 at the voxel at (3, 5, 9), with a low byte of 0x00 and of 0xff. *)
Lemma X24_save_ignores_the_reserved_byte_witness :
  (save (start grid_3_5_9_loaded)).1 = (save (start grid_3_5_9)).1 /\
  disk (save (start grid_3_5_9_loaded)).2 = disk (save (start grid_3_5_9)).2 /\
  f_status (save (start grid_3_5_9_loaded)).2 = f_status (save (start grid_3_5_9)).2.
Proof.
  apply (X24_save_ignores_the_reserved_byte grid_3_5_9 grid_3_5_9_loaded).
  split_and!; [reflexivity..|]. intros x y z.
  unfold grid_3_5_9_loaded, grid_3_5_9. rewrite !get_set, !get_empty_grid.
  destruct (decide _); done.
Defined.

(** ** The widget: picking a voxel and choosing the axes *)

Lemma testbit_field v k w n :
  0 <= k -> 0 <= w -> 0 <= n ->
  Z.testbit (Z.land (Z.shiftr v k) (Z.ones w)) n = (n <? w) && Z.testbit v (n + k).
Proof.
  intros Hk Hw Hn. rewrite Z.land_spec, Z.shiftr_spec by lia.
  destruct (Z.ltb_spec n w).
  - rewrite Z.ones_spec_low by lia. by rewrite andb_true_r.
  - rewrite Z.ones_spec_high by lia. by rewrite andb_false_r.
Qed.

Lemma field_range v k w : 0 <= w -> 0 <= Z.land (Z.shiftr v k) (Z.ones w) < 2 ^ w.
Proof. intros Hw. rewrite Z.land_ones by lia. apply Z.mod_pos_bound. lia. Qed.

Lemma voxelid_testbit c0 c1 c2 n :
  is_byte c0 = true -> is_byte c1 = true -> is_byte c2 = true -> 0 <= n ->
  Z.testbit (GLWidget.voxelid (c0, c1, c2)) n
  = if n <? 8 then Z.testbit c2 n
    else if n <? 16 then Z.testbit c1 (n - 8)
    else Z.testbit c0 (n - 16).
Proof.
  intros H0 H1 H2 Hn. unfold GLWidget.voxelid. cbn [fst snd].
  rewrite !Z.lor_spec, !Z.shiftl_spec by lia.
  destruct (Z.ltb_spec n 8); [|destruct (Z.ltb_spec n 16)].
  - rewrite (Z.testbit_neg_r c0), (Z.testbit_neg_r c1) by lia. reflexivity.
  - rewrite (Z.testbit_neg_r c0) by lia. rewrite (testbit_is_byte c2) by (done || lia).
    by rewrite orb_false_r.
  - rewrite (testbit_is_byte c2), (testbit_is_byte c1) by (done || lia).
    by rewrite !orb_false_r.
Qed.

Lemma voxelid_fields c0 c1 c2 :
  is_byte c0 = true -> is_byte c1 = true -> is_byte c2 = true ->
  let id := GLWidget.voxelid (c0, c1, c2) in
  id = Z.lor (Z.lor (Z.lor (Z.shiftl (Z.land (Z.shiftr id 17) (Z.ones 7)) 17)
                           (Z.shiftl (Z.land (Z.shiftr id 10) (Z.ones 7)) 10))
                    (Z.shiftl (Z.land (Z.shiftr id 3) (Z.ones 7)) 3))
             (Z.land (Z.shiftr id 0) (Z.ones 3)).
Proof.
  intros H0 H1 H2 id. apply Z.bits_inj'. intros n Hn.
  rewrite !Z.lor_spec, !Z.shiftl_spec by lia.
  rewrite (testbit_field id 0) by lia.
  destruct (Z.ltb_spec n 3).
  { rewrite !(Z.testbit_neg_r _ (n - _)) by lia. rewrite Z.add_0_r. reflexivity. }
  cbn [andb]. rewrite orb_false_r.
  rewrite (testbit_field id 3) by lia. replace (n - 3 + 3) with n by lia.
  destruct (Z.ltb_spec (n - 3) 7).
  { rewrite !(Z.testbit_neg_r _ (n - _)) by lia. reflexivity. }
  cbn [andb]. rewrite orb_false_r.
  rewrite (testbit_field id 10) by lia. replace (n - 10 + 10) with n by lia.
  destruct (Z.ltb_spec (n - 10) 7).
  { rewrite !(Z.testbit_neg_r _ (n - _)) by lia. reflexivity. }
  cbn [andb]. rewrite orb_false_r.
  rewrite (testbit_field id 17) by lia. replace (n - 17 + 17) with n by lia.
  destruct (Z.ltb_spec (n - 17) 7); [reflexivity|].
  cbn [andb]. unfold id. rewrite voxelid_testbit by (done || lia).
  destruct (Z.ltb_spec n 8); [lia|]. destruct (Z.ltb_spec n 16); [lia|].
  apply testbit_is_byte; [done|lia].
Qed.

(** X19 ([window_to_voxel], the colour id).  For a pixel other than the
    white background, the three colour bytes are decoded into a cell
    [(x, y, z)] with coordinates in [0, 128) and a face in [0, 8); the
    decoding loses nothing, since the 24-bit id is
    [x << 17 | y << 10 | z << 3 | face] again.  The id of face 7 of the cell
    (127, 127, 127) is the background's, so that face is never reported. *)
Theorem X19_colour_id_decoding c0 c1 c2 plane :
  is_byte c0 = true -> is_byte c1 = true -> is_byte c2 = true ->
  (c0, c1, c2) ≠ (255, 255, 255) ->
  exists x y z face,
    GLWidget.window_to_voxel (c0, c1, c2) plane = (Some x, Some y, Some z, Some face) /\
    0 <= x < 128 /\ 0 <= y < 128 /\ 0 <= z < 128 /\ 0 <= face < 8 /\
    (x, y, z, face) ≠ (127, 127, 127, 7) /\
    GLWidget.voxelid (c0, c1, c2)
    = Z.lor (Z.lor (Z.lor (Z.shiftl x 17) (Z.shiftl y 10)) (Z.shiftl z 3)) face.
Proof.
  intros H0 H1 H2 Hc.
  assert (GLWidget.voxelid (c0, c1, c2) ≠ 0xffffff) as Hid.
  { intros Hid. apply Hc.
    assert (forall c k, is_byte c = true ->
              (forall n, 0 <= n < 8 ->
                 Z.testbit c n = Z.testbit (GLWidget.voxelid (c0, c1, c2)) (n + k)) ->
              (forall n, 0 <= n < 8 -> Z.testbit 0xffffff (n + k) = true) ->
              c = 255) as Hbyte.
    { intros c k Hcb Hbits Hones. apply Z.bits_inj'. intros n Hn.
      destruct (Z.ltb_spec n 8).
      - rewrite Hbits, Hid, Hones by lia. symmetry.
        change 255 with (Z.ones 8). apply Z.ones_spec_low. lia.
      - rewrite testbit_is_byte by (done || lia). symmetry.
        change 255 with (Z.ones 8). apply Z.ones_spec_high. lia. }
    assert (forall m, 0 <= m < 24 -> Z.testbit 0xffffff m = true) as Hones.
    { intros m Hm. change 0xffffff with (Z.ones 24). apply Z.ones_spec_low. lia. }
    f_equal; [f_equal|].
    - apply (Hbyte c0 16 H0); [|intros; apply Hones; lia].
      intros n Hn. rewrite voxelid_testbit by (done || lia).
      destruct (Z.ltb_spec (n + 16) 8); [lia|]. destruct (Z.ltb_spec (n + 16) 16); [lia|].
      f_equal. lia.
    - apply (Hbyte c1 8 H1); [|intros; apply Hones; lia].
      intros n Hn. rewrite voxelid_testbit by (done || lia).
      destruct (Z.ltb_spec (n + 8) 8); [lia|]. destruct (Z.ltb_spec (n + 8) 16); [|lia].
      f_equal. lia.
    - apply (Hbyte c2 0 H2); [|intros; apply Hones; lia].
      intros n Hn. rewrite voxelid_testbit by (done || lia).
      destruct (Z.ltb_spec (n + 0) 8); [|lia]. f_equal. lia. }
  unfold GLWidget.window_to_voxel.
  apply Z.eqb_neq in Hid as Hid'. rewrite Hid'.
  change 0x07 with (Z.ones 3).
  rewrite !Z.shiftr_land.
  change (Z.shiftr 0xfe0000 17) with (Z.ones 7).
  change (Z.shiftr 0x1fc00 10) with (Z.ones 7).
  change (Z.shiftr 0x3f8 3) with (Z.ones 7).
  pose proof (voxelid_fields c0 c1 c2 H0 H1 H2) as Hfields. cbv zeta in Hfields.
  rewrite Z.shiftr_0_r in Hfields.
  do 4 eexists. split; [reflexivity|].
  pose proof (field_range (GLWidget.voxelid (c0, c1, c2)) 17 7 ltac:(lia)).
  pose proof (field_range (GLWidget.voxelid (c0, c1, c2)) 10 7 ltac:(lia)).
  pose proof (field_range (GLWidget.voxelid (c0, c1, c2)) 3 7 ltac:(lia)).
  pose proof (field_range (GLWidget.voxelid (c0, c1, c2)) 0 3 ltac:(lia)) as Hf.
  rewrite Z.shiftr_0_r in Hf.
  split_and!; [lia..| |exact Hfields].
  intros Heq. apply Hid. rewrite Hfields. injection Heq as -> -> -> ->. reflexivity.
Qed.

(** X19 at the pixel (6, 20, 75). *)
Lemma X19_colour_id_decoding_witness :
  exists x y z face,
    GLWidget.window_to_voxel (6, 20, 75) (None, None, None)
    = (Some x, Some y, Some z, Some face) /\
    0 <= x < 128 /\ 0 <= y < 128 /\ 0 <= z < 128 /\ 0 <= face < 8 /\
    (x, y, z, face) ≠ (127, 127, 127, 7) /\
    GLWidget.voxelid (6, 20, 75)
    = Z.lor (Z.lor (Z.lor (Z.shiftl x 17) (Z.shiftl y 10)) (Z.shiftl z 3)) face.
Proof.
  apply (X19_colour_id_decoding 6 20 75 (None, None, None)); (reflexivity || discriminate).
Defined.

Section view_axis_facts.
Context {F : Type} (ge : F -> F -> bool) (fabs : F -> F).

(** X20 ([view_axis]).  Whenever [>=] on the three deviations is total and
    transitive (as it is on floating-point numbers other than NaN), the two
    axes [view_axis] returns are different, and the axis it leaves out is
    one along which the deviation of the viewing ray is largest. *)
Theorem X20_view_axis_leaves_out_the_viewing_direction (dx dy dz : F) :
  (forall a b, ge a b = true \/ ge b a = true) ->
  (forall a b c, ge a b = true -> ge b c = true -> ge a c = true) ->
  exists looking_down,
    looking_down ∈ [GLWidget.X_AXIS; GLWidget.Y_AXIS; GLWidget.Z_AXIS] /\
    looking_down ≠ (GLWidget.view_axis ge dx dy dz).1 /\
    looking_down ≠ (GLWidget.view_axis ge dx dy dz).2 /\
    (GLWidget.view_axis ge dx dy dz).1 ≠ (GLWidget.view_axis ge dx dy dz).2 /\
    forall a, a ∈ [GLWidget.X_AXIS; GLWidget.Y_AXIS; GLWidget.Z_AXIS] ->
      ge (GLWidget.deviation dx dy dz looking_down) (GLWidget.deviation dx dy dz a) = true.
Proof.
  intros Htotal Htrans.
  assert (forall a, ge a a = true) as Hrefl by (intros a; by destruct (Htotal a a)).
  assert (forall a b, ge a b = false -> ge b a = true) as Hflip.
  { intros a b Hab. destruct (Htotal a b); congruence. }
  assert (forall d, (forall a, a ∈ [GLWidget.X_AXIS; GLWidget.Y_AXIS; GLWidget.Z_AXIS] ->
             ge d (GLWidget.deviation dx dy dz a) = true)
           <-> ge d dx = true /\ ge d dy = true /\ ge d dz = true) as Hall.
  { intros d. split.
    - intros H. split_and!.
      + apply (H GLWidget.X_AXIS). rewrite !elem_of_cons. auto.
      + apply (H GLWidget.Y_AXIS). rewrite !elem_of_cons. auto.
      + apply (H GLWidget.Z_AXIS). rewrite !elem_of_cons. auto.
    - intros (Hx & Hy & Hz) a Ha.
      rewrite !elem_of_cons, elem_of_nil in Ha. by destruct Ha as [->|[->|[->|[]]]]. }
  unfold GLWidget.view_axis.
  destruct (ge dz dx && ge dz dy) eqn:Hz; [|destruct (ge dy dx && ge dy dz) eqn:Hy].
  - apply andb_prop in Hz as [Hzx Hzy].
    exists GLWidget.Z_AXIS. split_and!; [rewrite !elem_of_cons; auto|done..|].
    apply Hall. auto.
  - apply andb_prop in Hy as [Hyx Hyz].
    exists GLWidget.Y_AXIS. split_and!; [rewrite !elem_of_cons; auto|done..|].
    apply Hall. auto.
  - exists GLWidget.X_AXIS. split_and!; [rewrite !elem_of_cons; auto|done..|].
    apply Hall. split; [apply Hrefl|].
    apply andb_false_iff in Hz, Hy.
    destruct (ge dx dy) eqn:Hxy, (ge dx dz) eqn:Hxz; [done| | |].
    + apply Hflip in Hxz. destruct Hz as [Hz|Hz]; [congruence|].
      apply Hflip in Hz. destruct Hy as [Hy|Hy].
      * apply Hflip in Hy. split; [done|]. by apply (Htrans dx dy dz).
      * rewrite Hz in Hy. done.
    + apply Hflip in Hxy. destruct Hy as [Hy|Hy]; [congruence|].
      apply Hflip in Hy. destruct Hz as [Hz|Hz].
      * apply Hflip in Hz. split; [|done]. by apply (Htrans dx dz dy).
      * rewrite Hy in Hz. done.
    + apply Hflip in Hxy, Hxz.
      destruct Hz as [Hz|Hz]; [congruence|]. destruct Hy as [Hy|Hy]; [congruence|].
      apply Hflip in Hz. congruence.
Qed.

(** X21 ([mousePressEvent], lines 334-346).  Whatever [view_axis] returns,
    each of the two translation vectors is replaced by the size of one of
    its components: the horizontal one by that of its x or z component,
    the vertical one by that of its y or z component, and not both by the
    z component. *)
Theorem X21_translation_scales_after_a_press (dx dy dz : F) (h v : F * F * F) :
  let ax := (GLWidget.view_axis ge dx dy dz).1 in
  let ay := (GLWidget.view_axis ge dx dy dz).2 in
  (GLWidget.translate_along fabs ax h = GLWidget.Scalar (fabs h.1.1) \/
   GLWidget.translate_along fabs ax h = GLWidget.Scalar (fabs h.2)) /\
  (GLWidget.translate_along fabs ay v = GLWidget.Scalar (fabs v.1.2) \/
   GLWidget.translate_along fabs ay v = GLWidget.Scalar (fabs v.2)) /\
  (ax = GLWidget.Z_AXIS -> ay = GLWidget.Y_AXIS).
Proof.
  unfold GLWidget.view_axis.
  destruct (ge dz dx && ge dz dy); [|destruct (ge dy dx && ge dy dz)]; cbn; auto.
  split_and!; auto. discriminate.
Qed.

End view_axis_facts.

(** X20 at the deviations 1, 5 and 2. *)
Lemma X20_view_axis_leaves_out_the_viewing_direction_witness :
  exists looking_down,
    looking_down ∈ [GLWidget.X_AXIS; GLWidget.Y_AXIS; GLWidget.Z_AXIS] /\
    looking_down ≠ (GLWidget.view_axis Z.geb 1 5 2).1 /\
    looking_down ≠ (GLWidget.view_axis Z.geb 1 5 2).2 /\
    (GLWidget.view_axis Z.geb 1 5 2).1 ≠ (GLWidget.view_axis Z.geb 1 5 2).2 /\
    forall a, a ∈ [GLWidget.X_AXIS; GLWidget.Y_AXIS; GLWidget.Z_AXIS] ->
      Z.geb (GLWidget.deviation 1 5 2 looking_down) (GLWidget.deviation 1 5 2 a) = true.
Proof.
  apply (X20_view_axis_leaves_out_the_viewing_direction Z.geb 1 5 2).
  - intros a b. rewrite !Z.geb_le. lia.
  - intros a b c. rewrite !Z.geb_le. lia.
Defined.

(** ** The widget: mouse moves and releases *)

Section mouse_facts.
Context {F T : Type} (add_scaled : F -> Z -> F -> F) (later : T -> T -> bool).

Lemma mouseMoveEvent_step (w : @GLWidget.widget F T) event :
  let w' := (GLWidget.mouseMoveEvent add_scaled later w event).1 in
  let calls := (GLWidget.mouseMoveEvent add_scaled later w event).2 in
  GLWidget._mousedown_time w' = GLWidget._mousedown_time w /\
  (GLWidget._dragging w = true ->
     GLWidget._dragging w' = true /\
     (GLWidget.drag_types calls = [] \/ GLWidget.drag_types calls = [GLWidget.DRAG])) /\
  (GLWidget._dragging w = false ->
     GLWidget._dragging w'
     = later (GLWidget.clock event) (GLWidget._mousedown_time w) /\
     (GLWidget.drag_types calls = [] \/
      (GLWidget.drag_types calls = [GLWidget.DRAG_START] /\ GLWidget._dragging w' = true))).
Proof.
  unfold GLWidget.mouseMoveEvent. cbn [GLWidget._mousedown_time GLWidget._dragging
    GLWidget._key_modifiers].
  destruct (negb (Z.land (GLWidget._key_modifiers w) GLWidget.ControlModifier =? 0)),
    (negb (Z.land (GLWidget.buttons event) GLWidget.MiddleButton =? 0)),
    (negb (Z.land (GLWidget.buttons event) GLWidget.RightButton =? 0)),
    (later (GLWidget.clock event) (GLWidget._mousedown_time w)),
    (later (GLWidget.clock_again event) (GLWidget._mousedown_time w)),
    (GLWidget._dragging w); cbn; split_and!; try done; intros _; split; auto.
Qed.

Lemma drag_types_app (a b : list GLWidget.call) :
  GLWidget.drag_types (a ++ b) = GLWidget.drag_types a ++ GLWidget.drag_types b.
Proof. apply omap_app. Qed.

Lemma mouse_moves_cons (w : @GLWidget.widget F T) event events :
  GLWidget.mouse_moves add_scaled later w (event :: events)
  = ((GLWidget.mouse_moves add_scaled later
        (GLWidget.mouseMoveEvent add_scaled later w event).1 events).1,
     (GLWidget.mouseMoveEvent add_scaled later w event).2 ++
     (GLWidget.mouse_moves add_scaled later
        (GLWidget.mouseMoveEvent add_scaled later w event).1 events).2).
Proof.
  cbn [GLWidget.mouse_moves].
  destruct (GLWidget.mouseMoveEvent add_scaled later w event) as [w1 c1]. cbn [fst snd].
  by destruct (GLWidget.mouse_moves add_scaled later w1 events).
Qed.

(** Once the widget is _dragging, moves announce nothing but [DRAG]. *)
Lemma mouse_moves_dragging (w : @GLWidget.widget F T) events :
  GLWidget._dragging w = true ->
  GLWidget._dragging (GLWidget.mouse_moves add_scaled later w events).1 = true /\
  exists n, GLWidget.drag_types (GLWidget.mouse_moves add_scaled later w events).2
            = replicate n GLWidget.DRAG.
Proof.
  revert w. induction events as [|event events IH]; intros w Hw.
  - split; [done|]. by exists 0%nat.
  - rewrite mouse_moves_cons. cbn [fst snd].
    destruct (mouseMoveEvent_step w event) as (_ & Hd & _).
    destruct (Hd Hw) as [Hw' Hcalls].
    destruct (IH _ Hw') as [Hw'' [n Hn]]. split; [done|].
    rewrite drag_types_app, Hn. destruct Hcalls as [->| ->].
    + by exists n.
    + by exists (S n).
Qed.

Lemma mouse_moves_gesture (w : @GLWidget.widget F T) events :
  GLWidget._dragging w = false ->
  let w' := (GLWidget.mouse_moves add_scaled later w events).1 in
  let calls := (GLWidget.mouse_moves add_scaled later w events).2 in
  GLWidget._dragging w'
  = existsb (fun event => later (GLWidget.clock event) (GLWidget._mousedown_time w)) events /\
  (GLWidget._dragging w' = false -> GLWidget.drag_types calls = []) /\
  exists n, GLWidget.drag_types calls = replicate n GLWidget.DRAG \/
            GLWidget.drag_types calls = GLWidget.DRAG_START :: replicate n GLWidget.DRAG.
Proof.
  revert w. induction events as [|event events IH]; intros w Hw.
  - cbn. split_and!; [done..|]. exists 0%nat. by left.
  - rewrite mouse_moves_cons. cbn [fst snd existsb].
    destruct (mouseMoveEvent_step w event) as (Htime & _ & Hd).
    destruct (Hd Hw) as [Hw' Hcalls]. rewrite drag_types_app.
    destruct (later (GLWidget.clock event) (GLWidget._mousedown_time w)) eqn:Hlate.
    + destruct (mouse_moves_dragging _ events Hw') as [Hw'' [n Hn]].
      cbn [orb]. rewrite Hw'', Hn. split_and!; [done..|].
      exists n. destruct Hcalls as [->|[-> _]]; auto.
    + destruct (IH _ Hw') as (Hw'' & Hnone & n & Hn). rewrite Htime in Hw''.
      cbn [orb]. destruct Hcalls as [->|[_ ?]]; [|congruence].
      split_and!; [done..|]. by exists n.
Qed.

(** X22 ([mouseMoveEvent]).  A mouse move either announces a drag or moves
    the camera, never both: when [send_drag] is called, rotation and
    translation are as before, and when they change, no drag is announced.
    The move always records the new mouse position, and leaves the old one
    in [mouse_position]. *)
Theorem X22_a_move_drags_or_moves_the_camera (w : @GLWidget.widget F T) event :
  let w' := (GLWidget.mouseMoveEvent add_scaled later w event).1 in
  let calls := (GLWidget.mouseMoveEvent add_scaled later w event).2 in
  (GLWidget.drag_types calls ≠ [] -> GLWidget.camera w' = GLWidget.camera w) /\
  (GLWidget.camera w' ≠ GLWidget.camera w -> GLWidget.drag_types calls = []) /\
  GLWidget._mouse w' = (GLWidget.x event, GLWidget.y event) /\
  GLWidget.mouse_position w' = GLWidget._mouse w.
Proof.
  unfold GLWidget.mouseMoveEvent. cbn [GLWidget._mousedown_time GLWidget._dragging
    GLWidget._key_modifiers].
  destruct (negb (Z.land (GLWidget._key_modifiers w) GLWidget.ControlModifier =? 0)),
    (negb (Z.land (GLWidget.buttons event) GLWidget.MiddleButton =? 0)),
    (negb (Z.land (GLWidget.buttons event) GLWidget.RightButton =? 0)),
    (later (GLWidget.clock event) (GLWidget._mousedown_time w)),
    (later (GLWidget.clock_again event) (GLWidget._mousedown_time w)),
    (GLWidget._dragging w); cbn; split_and!; try done; intros H; by destruct H.
Qed.

(** X23 (the announcements of one gesture).  Take a widget that is not
    dragging, any sequence of mouse moves, and the release that follows.
    If no move came more than 0.3 s after the press (by the first reading
    of the clock), nothing is announced but one [send_mouse_click].
    Otherwise the drag announcements are at most one [DRAG_START], then
    only [DRAG]s, then the [DRAG_END] of the release; the [DRAG_START] is
    missing when the move that began the drag was consumed for the camera.
    In both cases the widget is not dragging afterwards. *)
Theorem X23_drag_announcements_of_a_gesture (w : @GLWidget.widget F T) events release :
  GLWidget._dragging w = false ->
  let held :=
    existsb (fun event => later (GLWidget.clock event) (GLWidget._mousedown_time w)) events in
  let moved := GLWidget.mouse_moves add_scaled later w events in
  let released := GLWidget.mouseReleaseEvent moved.1 release in
  GLWidget._dragging released.1 = false /\
  released.2
  = [ if held
      then GLWidget.send_drag GLWidget.DRAG_END (GLWidget.under_mouse release)
             (GLWidget.x release) (GLWidget.y release)
      else GLWidget.send_mouse_click (GLWidget.under_mouse release)
             (GLWidget.x release) (GLWidget.y release);
      GLWidget.refresh ] /\
  if held
  then exists n,
         GLWidget.drag_types (moved.2 ++ released.2)
         = replicate n GLWidget.DRAG ++ [GLWidget.DRAG_END] \/
         GLWidget.drag_types (moved.2 ++ released.2)
         = GLWidget.DRAG_START :: replicate n GLWidget.DRAG ++ [GLWidget.DRAG_END]
  else GLWidget.drag_types (moved.2 ++ released.2) = [].
Proof.
  intros Hw held moved released.
  destruct (mouse_moves_gesture w events Hw) as (Hheld & Hnone & n & Hn).
  fold moved held in Hheld, Hnone, Hn.
  unfold released, GLWidget.mouseReleaseEvent.
  cbn [GLWidget.with_mouse GLWidget._dragging]. rewrite Hheld.
  rewrite drag_types_app.
  destruct held; cbn [fst snd GLWidget.with_dragging GLWidget._dragging].
  - split_and!; [done..|]. exists n. cbn. destruct Hn as [-> | ->]; auto.
  - split_and!; [done..|]. rewrite Hnone by done. reflexivity.
Qed.

End mouse_facts.

(** X23 at a press at time 100 followed by moves at 102 and 105. *)
Lemma X23_drag_announcements_of_a_gesture_witness :
  let add_scaled := fun t d s : Z => t + d * s in
  let later := fun now down : Z => 3 <? now - down in
  let w := GLWidget.Widget (10, 10) (10, 10) (0, 0) (0, 0) (10, 10) 0 100 false 0 0 0 0 1 1 in
  let events := [GLWidget.MouseEvent 11 10 1 102 102 (None, None, None, None);
                 GLWidget.MouseEvent 12 10 1 105 105 (Some 1, Some 2, Some 3, Some 0)] in
  let release := GLWidget.MouseEvent 12 10 0 106 106 (Some 1, Some 2, Some 3, Some 0) in
  let held :=
    existsb (fun event => later (GLWidget.clock event) (GLWidget._mousedown_time w)) events in
  let moved := GLWidget.mouse_moves add_scaled later w events in
  let released := GLWidget.mouseReleaseEvent moved.1 release in
  GLWidget._dragging released.1 = false /\
  released.2
  = [ if held
      then GLWidget.send_drag GLWidget.DRAG_END (GLWidget.under_mouse release)
             (GLWidget.x release) (GLWidget.y release)
      else GLWidget.send_mouse_click (GLWidget.under_mouse release)
             (GLWidget.x release) (GLWidget.y release);
      GLWidget.refresh ] /\
  if held
  then exists n,
         GLWidget.drag_types (moved.2 ++ released.2)
         = replicate n GLWidget.DRAG ++ [GLWidget.DRAG_END] \/
         GLWidget.drag_types (moved.2 ++ released.2)
         = GLWidget.DRAG_START :: replicate n GLWidget.DRAG ++ [GLWidget.DRAG_END]
  else GLWidget.drag_types (moved.2 ++ released.2) = [].
Proof.
  intros add_scaled later w events release.
  apply (X23_drag_announcements_of_a_gesture add_scaled later w events release).
  reflexivity.
Defined.
